(** * k2000: data acquisition from a Keithley 2000 multimeter over GPIB

    A shallow embedding of [k2000.c].  The program is one [main] function
    that talks to its surroundings all the time (the GPIB bus, the output
    file, a gnuplot pipe, the terminal, the clock), so it is embedded in a
    small state-and-early-return monad over an explicit [world]:

    - what the surroundings answer is read from an [oracle] (one field per
      library call the program makes; calls that happen repeatedly are
      indexed by a call counter kept in the world);
    - what the program does to its surroundings is recorded both as a
      [trace] of events, in program order, and in the state of the
      resources it owns (the output stream, the plot pipe, the terminal
      mode, the file on disk);
    - [return c] in the middle of [main] is [halt (Exit c)]; behaviour that
      C leaves undefined (a write before the start of a buffer, a division
      by zero, [pclose] of a null stream, a [strcpy] past the end of a
      buffer) is [halt (Fault _)];
    - the acquisition loop has no bound of its own, so it takes fuel, and
      [halt Running] says that the fuel ran out with the loop still going.

    C strings are [string]s (the bytes before the terminating NUL),
    [int] values are [Z], the [unsigned long] sample counter is a [Z] kept
    below [2^64].  A floating point number is the rational ([Q]) it
    stands for; every floating point operation of the program rounds its
    exact result to the nearest number of the format, ties to even
    ([double] for the [double] arithmetic of the elapsed time, [float] for
    the [float] that holds the time limit).  The clock is read in
    microseconds. *)

From Stdlib Require Import ZArith List String Ascii Bool Lia QArith Qabs Qpower.
Import ListNotations.

Open Scope string_scope.
Open Scope Z_scope.

(** ** Constants of the program *)

Definition VERSION : string := "V20170725".
Definition MAXLEN : Z := 127.
Definition ESC : Z := 27.
Definition GNUPLOT : string := "gnuplot".
Definition ERR_FILE : Z := 4.
Definition ERR_INST : Z := 5.
Definition EOF : Z := -1.

Definition scpi_mode : list string :=
  ["volt:dc"; "curr:dc"; "res"; "temp"; "cont"; "diod"].

Definition ylabels : list string :=
  ["V"; "mA"; "Ohm"; "degrees C"; "Ohm"; "mV"].

(** The value of a character constant, and of a byte read into a [char]
    (signed, as on the platforms the program is built for). *)
Definition uchar (c : ascii) : Z := Z.of_N (N_of_ascii c).
Definition schar (c : ascii) : Z :=
  if uchar c <? 128 then uchar c else uchar c - 256.

Definition LF : string := String (ascii_of_nat 10) "".
Definition TAB : string := String (ascii_of_nat 9) "".

Definition strlen (s : string) : Z := Z.of_nat (String.length s).

(** ** The pieces of [scanf] the option parser uses *)

Definition isspace (c : ascii) : bool :=
  let n := uchar c in (n =? 32) || ((9 <=? n) && (n <=? 13)).

Definition isdigit (c : ascii) : bool :=
  let n := uchar c in (48 <=? n) && (n <=? 57).

Fixpoint skip_space (s : string) : string :=
  match s with
  | String c r => if isspace c then skip_space r else s
  | EmptyString => s
  end.

(** At most [w] leading decimal digits of [s], most significant first. *)
Fixpoint take_digits (w : nat) (s : string) : list Z :=
  match w, s with
  | S w', String c r => if isdigit c then (uchar c - 48) :: take_digits w' r else []
  | _, _ => []
  end.

Definition digits_value (ds : list Z) : Z :=
  fold_left (fun acc d => 10 * acc + d) ds 0.

Definition scan_digits (w : nat) (s : string) : option Z :=
  match take_digits w s with
  | [] => None
  | ds => Some (digits_value ds)
  end.

(** [sscanf (s, "%<w>d", &x)]: [Some v] when [x] is assigned [v], [None]
    on a matching failure (then [x] keeps its value).  The sign counts in
    the field width. *)
Definition scan_d (w : nat) (s : string) : option Z :=
  match skip_space s with
  | String "-" r => option_map Z.opp (scan_digits (pred w) r)
  | String "+" r => scan_digits (pred w) r
  | r => scan_digits w r
  end.

Fixpoint take_word (w : nat) (s : string) : string :=
  match w, s with
  | S w', String c r => if isspace c then "" else String c (take_word w' r)
  | _, _ => ""
  end.

(** [sscanf (s, "%<w>s", buf)]. *)
Definition scan_s (w : nat) (s : string) : option string :=
  match take_word w (skip_space s) with
  | "" => None
  | t => Some t
  end.

(** ** [strclean] *)

(** The text of [buf] once [strclean] has cut it at the first CR or LF. *)
Fixpoint strclean_text (buf : string) : string :=
  match buf with
  | String c r =>
      if (uchar c =? 10) || (uchar c =? 13) then "" else String c (strclean_text r)
  | EmptyString => ""
  end.

(** [strclean] returns the length of the cleaned buffer; the buffer itself
    is returned next to it. *)
Definition strclean (buf : string) : Z * string :=
  let b := strclean_text buf in (strlen b, b).

(** ** Outcomes, events, the oracle and the world *)

Inductive fault :=
| NullStream        (* a library call on a null pointer *)
| DivideByZero      (* [loop % do_flush] with [do_flush = 0] *)
| OutOfBounds.      (* a write outside a character buffer *)

Inductive outcome :=
| Exit (code : Z)   (* [main] returned [code] *)
| Fault (f : fault) (* undefined behaviour was reached *)
| Running.          (* the fuel ran out in the acquisition loop *)

Inductive result (A : Type) :=
| Ret (a : A)
| Halt (o : outcome).
Arguments Ret {A} a.
Arguments Halt {A} o.

(** What the program prints on the console ([stderr] or [stdout]); numbers
    are kept as numbers. *)
Inductive message :=
| Disclaimer
| Usage                               (* the syntax text [msg] *)
| HelpHint (argv0 : string)           (* "'%s -h' for help." *)
| OptionError                         (* [perror] in [GetOpt] *)
| BadAddress | BadDelay | BadTimeout | BadMode
| NeedDataFile
| OverwritePrompt (file : string)     (* "File '%s' exists - Overwrite? [Y/*] " *)
| CannotOpen (file : string)
| IbdevError (pad : Z)
| SendError (cmd : string)            (* "Error sending '%s': %d" *)
| IdReadError
| NoGnuplot                           (* "Cannot launch gnuplot, will continue ..." *)
| Summary                             (* the on-screen block before the loop *)
| Progress (loop : Z) (t1 : Q) (reading : string)
| ReadError                           (* "Error trying to read ..." *)
| Farewell.                           (* the final two newlines *)

Inductive event :=
| Msg (m : message)
| Access (file : string)
| Getc
| Fopen (file : string)
| Fprintf (s : string)                (* text written to [outfile] *)
| Fflush
| Fclose
| Ibdev (pad : Z)
| Ibwrt (cmd : string)
| Ibrd (cnt : Z)
| Popen (cmd : string)
| GpPrintf (s : string)               (* text written to the plot pipe *)
| GpFlush
| Pclose
| InitKeyboard
| CloseKeyboard
| PollTty                             (* [read] on the terminal with VMIN = 0 *)
| WaitTty                             (* [read] on the terminal with VMIN = 1 *)
| Usleep (usec : Z)
| TimeCall
| Gettimeofday.

(** The answers of the surroundings.  [ibwrt_ok k cmd] tells whether the
    [k]-th [ibwrt] of the run, sending [cmd], comes back without the ERR
    bit; [ibrd_data k] is what the [k]-th [ibrd] delivers ([None] with the
    ERR bit set); [clock k] is the [k]-th [gettimeofday], in microseconds;
    [tty_poll k] is the byte the [k]-th non-blocking read of the terminal
    finds, if any, and [tty_wait k] the byte the [k]-th blocking read
    leaves in its buffer.  [scan_g] and [ctime] are the C library's
    conversions for "%g" (the [float] it stores) and for calendar time.
    The C library writes its buffer for the output stream to the file
    whenever the buffer is full: [stdio_spill p d] is the number of bytes
    it writes at an [fprintf] after which the stream holds [d], the file
    holding [p]. *)
Record oracle := {
  existing  : option string;   (* the file at the output path before the run *)
  stdin_key : option ascii;    (* what [fgetc (stdin)] reads; [None] is EOF *)
  fopen_ok  : bool;
  ibdev_ud  : Z;
  ibwrt_ok  : nat -> string -> bool;
  ibrd_data : nat -> option string;
  popen_ok  : bool;
  time_now  : nat -> Z;
  ctime     : Z -> string;
  clock     : nat -> Z;
  tty_poll  : nat -> option ascii;
  tty_wait  : nat -> ascii;
  scan_g    : string -> option Q;
  stdio_spill : string -> string -> nat
}.

(** The state of everything the program owns or has touched.  [outfile] is
    [None] while the stream is not open and otherwise holds all the text
    written to it; [disk] is the file at the output path. *)
Record world := {
  disk           : option string;
  outfile        : option string;
  gp             : bool;         (* the plot pipe is open *)
  raw_mode       : bool;         (* the terminal is in the program's raw mode *)
  peek_character : Z;
  optind         : nat;
  letP           : option string;
  n_ibwrt        : nat;
  n_ibrd         : nat;
  n_time         : nat;
  n_clock        : nat;
  n_poll         : nat;
  n_wait         : nat;
  trace          : list event
}.

Definition initial (o : oracle) : world :=
  {| disk := existing o; outfile := None; gp := false; raw_mode := false;
     peek_character := -1; optind := 1; letP := None;
     n_ibwrt := 0; n_ibrd := 0; n_time := 0; n_clock := 0; n_poll := 0;
     n_wait := 0; trace := [] |}.

Definition set_disk (v : option string) (w : world) : world :=
  {| disk := v; outfile := outfile w; gp := gp w; raw_mode := raw_mode w;
     peek_character := peek_character w; optind := optind w; letP := letP w;
     n_ibwrt := n_ibwrt w; n_ibrd := n_ibrd w; n_time := n_time w;
     n_clock := n_clock w; n_poll := n_poll w; n_wait := n_wait w;
     trace := trace w |}.

Definition set_outfile (v : option string) (w : world) : world :=
  {| disk := disk w; outfile := v; gp := gp w; raw_mode := raw_mode w;
     peek_character := peek_character w; optind := optind w; letP := letP w;
     n_ibwrt := n_ibwrt w; n_ibrd := n_ibrd w; n_time := n_time w;
     n_clock := n_clock w; n_poll := n_poll w; n_wait := n_wait w;
     trace := trace w |}.

Definition set_gp (v : bool) (w : world) : world :=
  {| disk := disk w; outfile := outfile w; gp := v; raw_mode := raw_mode w;
     peek_character := peek_character w; optind := optind w; letP := letP w;
     n_ibwrt := n_ibwrt w; n_ibrd := n_ibrd w; n_time := n_time w;
     n_clock := n_clock w; n_poll := n_poll w; n_wait := n_wait w;
     trace := trace w |}.

Definition set_raw_mode (v : bool) (w : world) : world :=
  {| disk := disk w; outfile := outfile w; gp := gp w; raw_mode := v;
     peek_character := peek_character w; optind := optind w; letP := letP w;
     n_ibwrt := n_ibwrt w; n_ibrd := n_ibrd w; n_time := n_time w;
     n_clock := n_clock w; n_poll := n_poll w; n_wait := n_wait w;
     trace := trace w |}.

Definition set_peek_character (v : Z) (w : world) : world :=
  {| disk := disk w; outfile := outfile w; gp := gp w; raw_mode := raw_mode w;
     peek_character := v; optind := optind w; letP := letP w;
     n_ibwrt := n_ibwrt w; n_ibrd := n_ibrd w; n_time := n_time w;
     n_clock := n_clock w; n_poll := n_poll w; n_wait := n_wait w;
     trace := trace w |}.

Definition set_optind (v : nat) (w : world) : world :=
  {| disk := disk w; outfile := outfile w; gp := gp w; raw_mode := raw_mode w;
     peek_character := peek_character w; optind := v; letP := letP w;
     n_ibwrt := n_ibwrt w; n_ibrd := n_ibrd w; n_time := n_time w;
     n_clock := n_clock w; n_poll := n_poll w; n_wait := n_wait w;
     trace := trace w |}.

Definition set_letP (v : option string) (w : world) : world :=
  {| disk := disk w; outfile := outfile w; gp := gp w; raw_mode := raw_mode w;
     peek_character := peek_character w; optind := optind w; letP := v;
     n_ibwrt := n_ibwrt w; n_ibrd := n_ibrd w; n_time := n_time w;
     n_clock := n_clock w; n_poll := n_poll w; n_wait := n_wait w;
     trace := trace w |}.

Definition tick_ibwrt (w : world) : world :=
  {| disk := disk w; outfile := outfile w; gp := gp w; raw_mode := raw_mode w;
     peek_character := peek_character w; optind := optind w; letP := letP w;
     n_ibwrt := S (n_ibwrt w); n_ibrd := n_ibrd w; n_time := n_time w;
     n_clock := n_clock w; n_poll := n_poll w; n_wait := n_wait w;
     trace := trace w |}.

Definition tick_ibrd (w : world) : world :=
  {| disk := disk w; outfile := outfile w; gp := gp w; raw_mode := raw_mode w;
     peek_character := peek_character w; optind := optind w; letP := letP w;
     n_ibwrt := n_ibwrt w; n_ibrd := S (n_ibrd w); n_time := n_time w;
     n_clock := n_clock w; n_poll := n_poll w; n_wait := n_wait w;
     trace := trace w |}.

Definition tick_time (w : world) : world :=
  {| disk := disk w; outfile := outfile w; gp := gp w; raw_mode := raw_mode w;
     peek_character := peek_character w; optind := optind w; letP := letP w;
     n_ibwrt := n_ibwrt w; n_ibrd := n_ibrd w; n_time := S (n_time w);
     n_clock := n_clock w; n_poll := n_poll w; n_wait := n_wait w;
     trace := trace w |}.

Definition tick_clock (w : world) : world :=
  {| disk := disk w; outfile := outfile w; gp := gp w; raw_mode := raw_mode w;
     peek_character := peek_character w; optind := optind w; letP := letP w;
     n_ibwrt := n_ibwrt w; n_ibrd := n_ibrd w; n_time := n_time w;
     n_clock := S (n_clock w); n_poll := n_poll w; n_wait := n_wait w;
     trace := trace w |}.

Definition tick_poll (w : world) : world :=
  {| disk := disk w; outfile := outfile w; gp := gp w; raw_mode := raw_mode w;
     peek_character := peek_character w; optind := optind w; letP := letP w;
     n_ibwrt := n_ibwrt w; n_ibrd := n_ibrd w; n_time := n_time w;
     n_clock := n_clock w; n_poll := S (n_poll w); n_wait := n_wait w;
     trace := trace w |}.

Definition tick_wait (w : world) : world :=
  {| disk := disk w; outfile := outfile w; gp := gp w; raw_mode := raw_mode w;
     peek_character := peek_character w; optind := optind w; letP := letP w;
     n_ibwrt := n_ibwrt w; n_ibrd := n_ibrd w; n_time := n_time w;
     n_clock := n_clock w; n_poll := n_poll w; n_wait := S (n_wait w);
     trace := trace w |}.

Definition log (e : event) (w : world) : world :=
  {| disk := disk w; outfile := outfile w; gp := gp w; raw_mode := raw_mode w;
     peek_character := peek_character w; optind := optind w; letP := letP w;
     n_ibwrt := n_ibwrt w; n_ibrd := n_ibrd w; n_time := n_time w;
     n_clock := n_clock w; n_poll := n_poll w; n_wait := n_wait w;
     trace := trace w ++ [e] |}.

(** ** The monad *)

Definition M (A : Type) : Type := world -> result A * world.

Definition ret {A} (a : A) : M A := fun w => (Ret a, w).
Definition halt {A} (o : outcome) : M A := fun w => (Halt o, w).
Definition bind {A B} (m : M A) (k : A -> M B) : M B :=
  fun w => match m w with
           | (Ret a, w') => k a w'
           | (Halt o, w') => (Halt o, w')
           end.
Definition get : M world := fun w => (Ret w, w).
Definition modify (f : world -> world) : M unit := fun w => (Ret tt, f w).
Definition emit (e : event) : M unit := modify (log e).
Definition say (m : message) : M unit := emit (Msg m).

Declare Scope k_scope.
Delimit Scope k_scope with k.
Notation "x <- m ;; k" := (bind m (fun x => k))
  (at level 100, m at next level, right associativity) : k_scope.
Notation "m ;; k" := (bind m (fun _ => k))
  (at level 100, right associativity) : k_scope.
Open Scope k_scope.

(** ** Text helpers of the acquisition part *)

(** The C string a character buffer holds: its bytes up to the first NUL. *)
Fixpoint cstring (s : string) : string :=
  match s with
  | String c r => if uchar c =? 0 then "" else String c (cstring r)
  | EmptyString => ""
  end.

(** All of [s] but its last byte. *)
Fixpoint chop (s : string) : string :=
  match s with
  | String c EmptyString => ""
  | String c r => String c (chop r)
  | EmptyString => ""
  end.

(** [strchr (s, ch)] for a [ch] other than NUL. *)
Fixpoint strchr (s : string) (ch : ascii) : option string :=
  match s with
  | String c r => if Ascii.eqb c ch then Some s else strchr r ch
  | EmptyString => None
  end.

(** The integer nearest to [n / d], ties to even, for [d > 0]. *)
Definition round_half_even (n d : Z) : Z :=
  let q := n / d in
  let r := n mod d in
  if 2 * r <? d then q
  else if d <? 2 * r then q + 1
  else if Z.even q then q else q + 1.

(** *** Binary floating point *)

(** The integer nearest to [x], ties to even. *)
Definition nearest_even (x : Q) : Z := round_half_even (Qnum x) (Zpos (Qden x)).

(** The exponent [e] with [2^e <= q < 2^(e+1)], for [q > 0]. *)
Definition floor_log2 (q : Q) : Z :=
  let n := Qnum q in
  let d := Zpos (Qden q) in
  if d <=? n then Z.log2 (n / d) else - Z.log2_up ((d + n - 1) / n).

(** [q] rounded to the nearest multiple of [2^e], ties to the even
    multiple. *)
Definition round_to_quantum (e : Z) (q : Q) : Q :=
  (inject_Z (nearest_even (q * 2 ^ (- e))) * 2 ^ e)%Q.

(** [q] rounded to the nearest number of the binary format with [prec]
    bits of precision and least exponent [emin], ties to even: the numbers
    of the format next to [q] are the multiples of [2^e], where
    [2^(e + prec - 1) <= |q| < 2^(e + prec)], or [e = emin] for the
    smallest ones.  (The numbers of the program stay far below the largest
    number of their format.) *)
Definition round_binary (prec emin : Z) (q : Q) : Q :=
  if Qnum q =? 0 then 0%Q
  else round_to_quantum (Z.max emin (floor_log2 (Qabs q) - prec + 1)) q.

(** Rounding to [double] (IEEE binary64) and to [float] (binary32). *)
Definition double (q : Q) : Q := round_binary 53 (-1074) q.
Definition float (q : Q) : Q := round_binary 24 (-149) q.

Definition digit_char (d : Z) : ascii := ascii_of_N (Z.to_N (48 + d)).

(** The decimal digits of [n >= 0], most significant first; [fuel] bounds
    their number. *)
Fixpoint digits_of (fuel : nat) (n : Z) : list Z :=
  match fuel with
  | O => []
  | S f => if n <? 10 then [n] else digits_of f (n / 10) ++ [n mod 10]
  end.

Definition show_digits (ds : list Z) : string :=
  fold_right (fun d s => String (digit_char d) s) "" ds.

(** [n >= 0] in decimal, without leading zeros. *)
Definition decimal (n : Z) : string :=
  show_digits (digits_of (S (Z.to_nat (Z.log2 n))) n).

Definition digits4 (k : Z) : string :=
  show_digits [k / 1000 mod 10; k / 100 mod 10; k / 10 mod 10; k mod 10].

(** The number of ten-thousandths "%.4f" prints for the [double] that
    stands for [q]: the decimal nearest to its exact value. *)
Definition round4 (q : Q) : Z :=
  round_half_even (Qnum q * 10000) (Zpos (Qden q)).

(** [printf ("%.4f", q)]. *)
Definition fmt_f4 (q : Q) : string :=
  let a := Z.abs (round4 q) in
  (if Qnum q <? 0 then "-" else "") ++ decimal (a / 10000) ++ "." ++ digits4 (a mod 10000).

Definition Qltb (x y : Q) : bool := negb (Qle_bool y x).

(** ** Main's variables *)

Record config := {
  do_display   : bool;
  do_graph     : bool;
  do_overwrite : bool;
  pad          : Z;
  do_flush     : Z;
  delay        : Z;
  mode         : Z;
  tstop        : Q;
  comment      : string;
  gnuplot      : string
}.

(** Their values when the option loop starts. *)
Definition defaults : config :=
  {| do_display := true; do_graph := true; do_overwrite := false;
     pad := 16; do_flush := 100; delay := 10; mode := 0; tstop := 0%Q;
     comment := ""; gnuplot := GNUPLOT |}.

Definition set_do_display (v : bool) (c : config) : config :=
  {| do_display := v; do_graph := do_graph c; do_overwrite := do_overwrite c;
     pad := pad c; do_flush := do_flush c; delay := delay c; mode := mode c;
     tstop := tstop c; comment := comment c; gnuplot := gnuplot c |}.
Definition set_do_graph (v : bool) (c : config) : config :=
  {| do_display := do_display c; do_graph := v; do_overwrite := do_overwrite c;
     pad := pad c; do_flush := do_flush c; delay := delay c; mode := mode c;
     tstop := tstop c; comment := comment c; gnuplot := gnuplot c |}.
Definition set_do_overwrite (v : bool) (c : config) : config :=
  {| do_display := do_display c; do_graph := do_graph c; do_overwrite := v;
     pad := pad c; do_flush := do_flush c; delay := delay c; mode := mode c;
     tstop := tstop c; comment := comment c; gnuplot := gnuplot c |}.
Definition set_pad (v : Z) (c : config) : config :=
  {| do_display := do_display c; do_graph := do_graph c; do_overwrite := do_overwrite c;
     pad := v; do_flush := do_flush c; delay := delay c; mode := mode c;
     tstop := tstop c; comment := comment c; gnuplot := gnuplot c |}.
Definition set_do_flush (v : Z) (c : config) : config :=
  {| do_display := do_display c; do_graph := do_graph c; do_overwrite := do_overwrite c;
     pad := pad c; do_flush := v; delay := delay c; mode := mode c;
     tstop := tstop c; comment := comment c; gnuplot := gnuplot c |}.
Definition set_delay (v : Z) (c : config) : config :=
  {| do_display := do_display c; do_graph := do_graph c; do_overwrite := do_overwrite c;
     pad := pad c; do_flush := do_flush c; delay := v; mode := mode c;
     tstop := tstop c; comment := comment c; gnuplot := gnuplot c |}.
Definition set_mode (v : Z) (c : config) : config :=
  {| do_display := do_display c; do_graph := do_graph c; do_overwrite := do_overwrite c;
     pad := pad c; do_flush := do_flush c; delay := delay c; mode := v;
     tstop := tstop c; comment := comment c; gnuplot := gnuplot c |}.
Definition set_tstop (v : Q) (c : config) : config :=
  {| do_display := do_display c; do_graph := do_graph c; do_overwrite := do_overwrite c;
     pad := pad c; do_flush := do_flush c; delay := delay c; mode := mode c;
     tstop := v; comment := comment c; gnuplot := gnuplot c |}.
Definition set_comment (v : string) (c : config) : config :=
  {| do_display := do_display c; do_graph := do_graph c; do_overwrite := do_overwrite c;
     pad := pad c; do_flush := do_flush c; delay := delay c; mode := mode c;
     tstop := tstop c; comment := v; gnuplot := gnuplot c |}.
Definition set_gnuplot (v : string) (c : config) : config :=
  {| do_display := do_display c; do_graph := do_graph c; do_overwrite := do_overwrite c;
     pad := pad c; do_flush := do_flush c; delay := delay c; mode := mode c;
     tstop := tstop c; comment := comment c; gnuplot := v |}.

(** What the acquisition loop carries from one round to the next. *)
Record locals := {
  loop : Z;    (* samples taken so far, an [unsigned long] *)
  key  : Z     (* the last key, or ESC once the time limit has passed *)
}.

(** How control leaves the body of the loop: at its end, where the
    [while] condition is looked at, or through [break]. *)
Inductive round :=
| AtEnd (l : locals)
| Break (l : locals).

(** ** The program *)

Section Program.

Variable o : oracle.

(** *** Library calls *)

Definition fopen_wt (file : string) : M bool :=
  emit (Fopen file);;
  if fopen_ok o
  then modify (set_disk (Some ""));; modify (set_outfile (Some ""));; ret true
  else ret false.

(** The file after an [fprintf] that leaves [stream] in the output
    stream: what it held and as much of what follows in the stream as the
    library writes by itself. *)
Definition written_through (on_disk : option string) (stream : string)
  : option string :=
  match on_disk with
  | Some p =>
      Some (p ++ substring (String.length p) (stdio_spill o p stream) stream)
  | None => None
  end.

Definition fprintf_outfile (s : string) : M unit :=
  w <- get;;
  match outfile w with
  | Some d =>
      modify (set_outfile (Some (d ++ s)));;
      modify (set_disk (written_through (disk w) (d ++ s)));;
      emit (Fprintf s)
  | None => halt (Fault NullStream)
  end.

Definition fflush_outfile : M unit :=
  w <- get;;
  match outfile w with
  | Some d => modify (set_disk (Some d));; emit Fflush
  | None => halt (Fault NullStream)
  end.

Definition fclose_outfile : M unit :=
  w <- get;;
  match outfile w with
  | Some d => modify (set_disk (Some d));; modify (set_outfile None);; emit Fclose
  | None => halt (Fault NullStream)
  end.

Definition popen_w (cmd : string) : M bool :=
  emit (Popen cmd);;
  if popen_ok o then modify (set_gp true);; ret true else ret false.

Definition fprintf_gp (s : string) : M unit :=
  w <- get;;
  if gp w then emit (GpPrintf s) else halt (Fault NullStream).

Definition fflush_gp : M unit :=
  w <- get;;
  if gp w then emit GpFlush else halt (Fault NullStream).

Definition pclose_gp : M unit :=
  w <- get;;
  if gp w then modify (set_gp false);; emit Pclose else halt (Fault NullStream).

Definition ibdev (pad : Z) : M Z :=
  emit (Ibdev pad);; ret (ibdev_ud o).

(** [ibwrt (dvm, cmd, strlen (cmd)) & ERR] is zero. *)
Definition ibwrt (cmd : string) : M bool :=
  w <- get;;
  emit (Ibwrt cmd);; modify tick_ibwrt;;
  ret (ibwrt_ok o (n_ibwrt w) cmd).

(** [ibrd (dvm, buf, cnt)]: the bytes put into [buf] (there are [ibcnt]
    of them, at most [cnt]), or [None] with the ERR bit set. *)
Definition ibrd (cnt : Z) : M (option string) :=
  w <- get;;
  emit (Ibrd cnt);; modify tick_ibrd;;
  ret (option_map (substring 0 (Z.to_nat cnt)) (ibrd_data o (n_ibrd w))).

Definition time_ : M Z :=
  w <- get;;
  emit TimeCall;; modify tick_time;;
  ret (time_now o (n_time w)).

(** *** [inst_write], [timeinfo] and the keyboard *)

Definition inst_write (cmd : string) : M Z :=
  ok <- ibwrt cmd;;
  if ok then ret 1 else say (SendError cmd);; ret 0.

(** The reading of the clock, in microseconds; [seconds] makes the
    [double] of it where the program computes with it. *)
Definition timeinfo : M Z :=
  w <- get;;
  emit Gettimeofday;; modify tick_clock;;
  ret (clock o (n_clock w)).

Definition init_keyboard : M unit :=
  modify (set_raw_mode true);; emit InitKeyboard.

Definition close_keyboard : M unit :=
  modify (set_raw_mode false);; emit CloseKeyboard.

Definition kbhit : M Z :=
  w <- get;;
  if negb (peek_character w =? -1) then ret 1
  else
    emit PollTty;; modify tick_poll;;
    match tty_poll o (n_poll w) with
    | Some ch => modify (set_peek_character (schar ch));; ret 1
    | None => ret 0
    end.

Definition readch : M Z :=
  w <- get;;
  if negb (peek_character w =? -1)
  then modify (set_peek_character (-1));; ret (peek_character w)
  else
    emit WaitTty;; modify tick_wait;;
    ret (schar (tty_wait o (n_wait w))).

(** *** [GetOpt] *)

(** [GetOpt] returns the option character together with [optarg]. *)
Definition gopEOF : M (Z * option string) :=
  modify (set_letP None);; ret (EOF, None).

Definition gopError : M (Z * option string) :=
  say OptionError;; ret (uchar "~", None).

Definition bump_optind : M unit :=
  modify (fun w => set_optind (S (optind w)) w).

(** [':' == *(++optP)] for the place [optP] that [strchr] has found. *)
Definition colon_follows (optP : string) : bool :=
  match optP with
  | String _ (String c _) => Ascii.eqb c ":"
  | _ => false
  end.

(** [GetOpt] from [if (0 == (ch = *(letP++)))] on, [l] being the text
    [letP] points to. *)
Definition GetOpt_letter (argv : list string) (optionS : string) (l : string)
  : M (Z * option string) :=
  match l with
  | EmptyString => bump_optind;; gopEOF
  | String ch l' =>
      modify (set_letP (Some l'));;
      if Ascii.eqb ch ":" then gopError
      else
        match strchr optionS ch with
        | None => gopError
        | Some optP =>
            if colon_follows optP then
              bump_optind;;
              match l' with
              | EmptyString =>
                  w <- get;;
                  match nth_error argv (optind w) with
                  | None => gopError
                  | Some a =>
                      bump_optind;; modify (set_letP None);; ret (uchar ch, Some a)
                  end
              | _ => modify (set_letP None);; ret (uchar ch, Some l')
              end
            else
              match l' with
              | EmptyString => bump_optind;; modify (set_letP None)
              | _ => ret tt
              end;;
              ret (uchar ch, None)
        end
  end.

Definition SW : ascii := "-".

Definition GetOpt (argv : list string) (optionS : string) : M (Z * option string) :=
  w <- get;;
  if (optind w <? List.length argv)%nat then
    match letP w with
    | None =>
        match nth_error argv (optind w) with
        | Some (String c r) =>
            if Ascii.eqb c SW then
              match r with
              | String c' _ =>
                  if Ascii.eqb c' SW then bump_optind;; gopEOF
                  else GetOpt_letter argv optionS r
              | EmptyString => GetOpt_letter argv optionS r
              end
            else gopEOF
        | _ => gopEOF
        end
    | Some l => GetOpt_letter argv optionS l
    end
  else gopEOF.

(** *** The option loop of [main] *)

Definition optionS : string := "hfnda:w:t:T:m:c:g:".

(** [optarg] as the option cases use it. *)
Definition the_arg (optarg : option string) : M string :=
  match optarg with
  | Some a => ret a
  | None => halt (Fault NullStream)
  end.

(** [strcpy (buf, s)] into a buffer of [MAXLEN] bytes. *)
Definition strcpy_check (s : string) : M unit :=
  if strlen s <? MAXLEN then ret tt else halt (Fault OutOfBounds).

Definition or_keep {A} (scanned : option A) (old : A) : A :=
  match scanned with
  | Some v => v
  | None => old
  end.

(** One case of the [switch]: the variables after it, when the case ends
    in [continue]. *)
Definition option_case (argv : list string) (k : Z) (optarg : option string)
  (c : config) : M config :=
  if k =? uchar "h" then say Usage;; halt (Exit 0)
  else if k =? uchar "f" then ret (set_do_overwrite true c)
  else if k =? uchar "n" then ret (set_do_graph false c)
  else if k =? uchar "d" then ret (set_do_display false c)
  else if k =? uchar "c" then
    a <- the_arg optarg;;
    let (n, a') := strclean a in
    if n =? 0 then ret c else strcpy_check a';; ret (set_comment a' c)
  else if k =? uchar "g" then
    a <- the_arg optarg;;
    ret (set_gnuplot (or_keep (scan_s 80 a) (gnuplot c)) c)
  else if k =? uchar "w" then
    a <- the_arg optarg;;
    ret (set_do_flush (or_keep (scan_d 5 a) (do_flush c)) c)
  else if k =? uchar "a" then
    a <- the_arg optarg;;
    let c' := set_pad (or_keep (scan_d 5 a) (pad c)) c in
    if (pad c' <? 0) || (30 <? pad c') then say BadAddress;; halt (Exit 1)
    else ret c'
  else if k =? uchar "t" then
    a <- the_arg optarg;;
    let c' := set_delay (or_keep (scan_d 6 a) (delay c)) c in
    if (delay c' <? 0) || (600 <? delay c') then say BadDelay;; halt (Exit 1)
    else ret c'
  else if k =? uchar "T" then
    a <- the_arg optarg;;
    let c' := set_tstop (or_keep (scan_g o a) (tstop c)) c in
    if Qltb (tstop c') 0 then say BadTimeout;; halt (Exit 1)
    else ret c'
  else if k =? uchar "m" then
    a <- the_arg optarg;;
    let c' := set_mode (or_keep (scan_d 5 a) (mode c)) c in
    if (mode c' <? 0) || (5 <? mode c') then say BadMode;; halt (Exit 1)
    else ret c'
  else
    say (HelpHint (nth 0 argv ""));; halt (Exit 1).

(** [while ((key = GetOpt (...)) != EOF) switch (key) ...]. *)
Fixpoint options (fuel : nat) (argv : list string) (c : config) : M config :=
  match fuel with
  | O => halt Running
  | S f =>
      r <- GetOpt argv optionS;;
      if fst r =? EOF then ret c
      else c' <- option_case argv (fst r) (snd r) c;; options f argv c'
  end.

(** The number of characters of some arguments. *)
Definition chars (l : list string) : nat :=
  fold_right (fun a n => String.length a + n)%nat O l.

(** Every call of [GetOpt] that does not end the loop takes at least one
    character of the command line, which bounds the number of rounds
    ([options_fuel_suffices] below). *)
Definition options_fuel (argv : list string) : nat := S (chars argv).

(** The characters of the command line [GetOpt] has not gone through. *)
Definition pending (argv : list string) (w : world) : nat :=
  match letP w with
  | Some l => (String.length l + chars (skipn (S (optind w)) argv))%nat
  | None => chars (skipn (optind w) argv)
  end.

(** *** The acquisition loop *)

Definition two64 : Z := 2 ^ 64.

(** [buf[ibcnt - 1] = 0] after a read of [data] into [buf], and the string
    [buf] holds then. *)
Definition cut_last (data : string) : M string :=
  match data with
  | EmptyString => halt (Fault OutOfBounds)
  | _ => ret (cstring (chop data))
  end.

(** What [timeinfo] returns for a clock reading of [usec] microseconds:
    [(double)t.tv_sec + (double)t.tv_usec/1000000.0]. *)
Definition seconds (usec : Z) : Q :=
  double (double (inject_Z (usec / 1000000))
          + double (double (inject_Z (usec mod 1000000)) / 1000000)).

(** [(timeinfo() - t0)/60.0], for the clock readings behind the two
    times. *)
Definition elapsed (t0 now : Z) : Q :=
  double (double (seconds now - seconds t0) / 60).

Definition data_line (t1 : Q) (reading : string) : string :=
  fmt_f4 t1 ++ TAB ++ reading ++ LF.

(** "ensure write & display at least every x data points". *)
Definition refresh (c : config) (file : string) (loop' : Z) : M unit :=
  if do_flush c mod two64 =? 0 then halt (Fault DivideByZero)
  else if loop' mod (do_flush c mod two64) =? 0 then
    fflush_outfile;;
    if do_graph c then
      fprintf_gp ("plot '" ++ file ++ "' with lines title ''" ++ LF);;
      fflush_gp
    else ret tt
  else ret tt.

(** "look up keyboard for keypress": the value of [key] afterwards. *)
Definition look_up_keyboard (key : Z) : M Z :=
  hit <- kbhit;;
  if hit =? 0 then ret key else readch.

(** The round from the flush check to the end of the body. *)
Definition end_of_round (c : config) (file : string) (loop' key' : Z) : M round :=
  refresh c file loop';;
  k <- look_up_keyboard key';;
  ret (AtEnd {| loop := loop'; key := k |}).

(** The delay and the read command; a send failure ends the program. *)
Definition trigger (c : config) : M unit :=
  (if 0 <? delay c then emit (Usleep (delay c * 100000)) else ret tt);;
  sent <- inst_write ":read?";;
  if sent =? 0 then
    w <- get;;
    (if gp w then pclose_gp else ret tt);;
    fclose_outfile;;
    close_keyboard;;
    halt (Exit ERR_INST)
  else ret tt.

(** What is done with the [data] bytes of a response. *)
Definition log_reading (c : config) (file : string) (t0 : Z) (l : locals)
  (data : string) : M round :=
  buffer <- cut_last data;;
  let buffer := if String.eqb buffer "+9.9E37" then "OVERFLOW" else buffer in
  now <- timeinfo;;
  let t1 := elapsed t0 now in
  let loop' := (loop l + 1) mod two64 in
  say (Progress loop' t1 buffer);;
  fprintf_outfile (data_line t1 buffer);;
  let key' := if Qltb (tstop c) t1 && Qltb 0 (tstop c) then ESC else key l in
  end_of_round c file loop' key'.

(** The body of the [do ... while]. *)
Definition sample (c : config) (file : string) (t0 : Z) (l : locals) : M round :=
  trigger c;;
  r <- ibrd 90;;
  match r with
  | None => say ReadError;; ret (Break l)
  | Some data => log_reading c file t0 l data
  end.

Definition stop_key (k : Z) : bool := (k =? uchar "q") || (k =? ESC).

Fixpoint sampling (fuel : nat) (c : config) (file : string) (t0 : Z) (l : locals)
  : M locals :=
  match fuel with
  | O => halt Running
  | S f =>
      r <- sample c file t0 l;;
      match r with
      | Break l' => ret l'
      | AtEnd l' => if stop_key (key l') then ret l' else sampling f c file t0 l'
      end
  end.

Definition trailer (stamp : string) : string :=
  "# Acquisition stop: " ++ stamp ++ LF.

(** What follows the loop, down to [return 0]. *)
Definition stopping (c : config) : M Z :=
  t <- time_;;
  fprintf_outfile (trailer (ctime o t));;
  fclose_outfile;;
  close_keyboard;;
  (if do_graph c then pclose_gp else ret tt);;
  (if do_display c then ret tt
   else
     r <- inst_write ":DISP:TEXT:STAT 0";;
     if r =? 0 then halt (Exit ERR_INST) else ret tt);;
  r <- inst_write "syst:pres";;
  if r =? 0 then halt (Exit ERR_INST)
  else say Farewell;; ret 0.

(** *** The phases of [main] before the loop *)

(** [table[i]] for one of the two mode tables. *)
Definition index (table : list string) (i : Z) : M string :=
  if i <? 0 then halt (Fault OutOfBounds)
  else match nth_error table (Z.to_nat i) with
       | Some s => ret s
       | None => halt (Fault OutOfBounds)
       end.

Definition file_there (w : world) : bool :=
  match disk w with
  | Some _ => true
  | None => false
  end.

(** "prepare output data file". *)
Definition prepare_output (c : config) (file : string) : M unit :=
  emit (Access file);;
  w <- get;;
  (if file_there w && negb (do_overwrite c) then
     say (OverwritePrompt file);;
     emit Getc;;
     let key := match stdin_key o with
                | Some k => uchar k
                | None => EOF
                end in
     if (key =? uchar "Y") || (key =? uchar "y") then ret tt else halt (Exit 1)
   else ret tt);;
  opened <- fopen_wt file;;
  if opened then ret tt else say (CannotOpen file);; halt (Exit ERR_FILE).

Definition mode_command (token : string) : string :=
  ":func '" ++ token ++ "';:init; *opc" ++ LF.

(** "now connect to the instrument", down to the display message; the
    result is the identity string [inst]. *)
Definition handshake (c : config) : M string :=
  dvm <- ibdev (pad c);;
  (if dvm <? 0 then
     say (IbdevError (pad c));;
     (if do_graph c then pclose_gp else ret tt);;
     halt (Exit ERR_INST)
   else ret tt);;
  r <- inst_write "*rst;*cls;:form:elem read,unit;*opc";;
  (if r =? 0 then halt (Exit ERR_INST) else ret tt);;
  r <- inst_write "*idn?";;
  (if r =? 0 then halt (Exit ERR_INST) else ret tt);;
  id <- ibrd (MAXLEN - 1);;
  inst <- match id with
          | None => say IdReadError;; halt (Exit ERR_INST)
          | Some data => cut_last data
          end;;
  (if do_display c then ret tt
   else
     r <- inst_write ":DISP:TEXT:DATA '-ACQUIRING- ';:DISP:TEXT:STAT 1";;
     if r =? 0 then halt (Exit ERR_INST) else ret tt);;
  ret inst.

(** "set mode by copying the relevant string from the pre-defined
    array". *)
Definition select_mode (c : config) : M unit :=
  token <- index scpi_mode (mode c);;
  r <- inst_write (mode_command token);;
  if r =? 0 then halt (Exit ERR_INST) else ret tt.

Definition connect (c : config) : M string :=
  inst <- handshake c;;
  select_mode c;;
  ret inst.

Definition plot_title (file : string) : string :=
  "set mouse;set mouse labels; set style data lines; set title '" ++ file ++ "'" ++ LF.

Definition plot_axes (label : string) : string :=
  "set grid xt; set grid yt; set xlabel 'min'; set ylabel '" ++ label ++ "'" ++ LF.

(** "prepare gnuplot": the variables afterwards ([do_graph] is cleared
    when the pipe cannot be opened). *)
Definition prepare_gnuplot (c : config) (file : string) : M config :=
  launched <- popen_w "gnuplot";;
  c' <- (if launched then ret c else say NoGnuplot;; ret (set_do_graph false c));;
  (if do_graph c' then
     fprintf_gp (plot_title file);;
     label <- index ylabels (mode c');;
     fprintf_gp (plot_axes label);;
     fflush_gp
   else ret tt);;
  ret c'.

(** "Get time, write file header". *)
Definition write_header (c : config) (inst : string) : M unit :=
  t <- time_;;
  fprintf_outfile ("# k2000 " ++ VERSION ++ LF);;
  fprintf_outfile ("# Instrument: " ++ inst ++ LF);;
  fprintf_outfile ("# " ++ comment c ++ LF);;
  fprintf_outfile ("# Acquisition start: " ++ ctime o t);;
  fprintf_outfile ("# min" ++ TAB ++ "readout" ++ LF).

(** [main] from "Set up on-screen display" on: the header, the loop and
    what follows it. *)
Definition record (fuel : nat) (c : config) (file inst : string) : M Z :=
  say Summary;;
  write_header c inst;;
  t0 <- timeinfo;;
  init_keyboard;;
  sampling fuel c file t0 {| loop := 0; key := 0 |};;
  stopping c.

(** [main] from "now connect to the instrument" on. *)
Definition measure (fuel : nat) (c : config) (file : string) : M Z :=
  inst <- connect c;;
  c' <- prepare_gnuplot c file;;
  record fuel c' file inst.

(** [main] from "prepare output data file" on, with the variables the
    option loop has left. *)
Definition acquire (fuel : nat) (c : config) (file : string) : M Z :=
  prepare_output c file;;
  measure fuel c file.

Definition main_body (fuel : nat) (argv : list string) : M Z :=
  say Disclaimer;;
  c <- options (options_fuel argv) argv defaults;;
  w <- get;;
  match nth_error argv (optind w) with
  | None => say Usage;; say NeedDataFile;; halt (Exit 1)
  | Some file => strcpy_check file;; acquire fuel c file
  end.

End Program.

(** A run of the program: how it ends and the world it leaves. *)
Definition main (o : oracle) (fuel : nat) (argv : list string) : outcome * world :=
  match main_body o fuel argv (initial o) with
  | (Ret code, w) => (Exit code, w)
  | (Halt out, w) => (out, w)
  end.

(** ** Reading a log back *)

(** The leading decimal digits of [s] and what follows them. *)
Fixpoint span_digits (s : string) : list Z * string :=
  match s with
  | String c r =>
      if isdigit c
      then let (ds, t) := span_digits r in ((uchar c - 48) :: ds, t)
      else ([], s)
  | EmptyString => ([], "")
  end.

(** A number written as digits.digits, negated when [neg] is set. *)
Definition parse_magnitude (neg : bool) (body : string) : option Q :=
  let (ip, rest) := span_digits body in
  match ip, rest with
  | _ :: _, String "." f =>
      let (fp, tail) := span_digits f in
      match fp, tail with
      | _ :: _, EmptyString =>
          let den := 10 ^ Z.of_nat (List.length fp) in
          let v := digits_value ip * den + digits_value fp in
          Some (Qmake (if neg then - v else v) (Z.to_pos den))
      | _, _ => None
      end
  | _, _ => None
  end.

(** A number written as [-]digits.digits. *)
Definition parse_fixed (s : string) : option Q :=
  match s with
  | String "-" r => parse_magnitude true r
  | _ => parse_magnitude false s
  end.

(** [s] cut at its first TAB. *)
Fixpoint split_tab (s : string) : option (string * string) :=
  match s with
  | String c r =>
      if uchar c =? 9 then Some ("", r)
      else match split_tab r with
           | Some (a, b) => Some (String c a, b)
           | None => None
           end
  | EmptyString => None
  end.

(** The lines of a text: what stands before each line feed; what follows
    the last line feed is no line. *)
Fixpoint split_lines (s : string) : list string :=
  match s with
  | EmptyString => []
  | String c r =>
      if uchar c =? 10 then "" :: split_lines r
      else match split_lines r with
           | l :: ls => String c l :: ls
           | [] => []
           end
  end.

(** A data line of the log: the elapsed minutes and the reading text. *)
Definition parse_log_line (line : string) : option (Q * string) :=
  match split_tab line with
  | Some (a, b) =>
      match parse_fixed a with
      | Some t => Some (t, b)
      | None => None
      end
  | None => None
  end.

(** The texts written to the output file, in order. *)
Fixpoint written (tr : list event) : list string :=
  match tr with
  | Fprintf s :: r => s :: written r
  | _ :: r => written r
  | [] => []
  end.

Definition is_data_line (s : string) : bool :=
  match s with
  | String "#" _ => false
  | _ => true
  end.

(** The data lines of a log, the lines that do not begin with #, parsed
    back. *)
Definition log_records (log : string) : list (option (Q * string)) :=
  map parse_log_line (filter is_data_line (split_lines log)).

(** The exponent part of a decimal number, if there is one with a
    digit. *)
Definition scan_exponent (s : string) : Z :=
  let digits_at (neg : bool) (r : string) :=
    match span_digits r with
    | ([], _) => 0
    | (ds, _) => if neg then - digits_value ds else digits_value ds
    end in
  match s with
  | String c r =>
      if (uchar c =? 101) || (uchar c =? 69) then
        match r with
        | String "-" r' => digits_at true r'
        | String "+" r' => digits_at false r'
        | _ => digits_at false r
        end
      else 0
  | EmptyString => 0
  end.

(** The digits of a decimal number, with or without a point, and its
    exponent part. *)
Definition scan_magnitude (s : string) : option Q :=
  let (ip, rest) := span_digits s in
  let (fp, rest') := match rest with
                     | String "." f => span_digits f
                     | _ => ([], rest)
                     end in
  match (ip ++ fp)%list with
  | [] => None
  | ds =>
      Some (inject_Z (digits_value ds)
            * 10 ^ (scan_exponent rest' - Z.of_nat (List.length fp)))%Q
  end.

(** [sscanf (s, "%g", &x)] for a [float x] and a text that begins with a
    decimal number: the [float] nearest to the number.  (Infinities, NaNs
    and hexadecimal numbers are not read.) *)
Definition scan_float (s : string) : option Q :=
  match skip_space s with
  | String "-" r => option_map (fun q => float (- q)) (scan_magnitude r)
  | String "+" r => option_map float (scan_magnitude r)
  | r => option_map float (scan_magnitude r)
  end.

Fixpoint nondecreasing (l : list Q) : Prop :=
  match l with
  | a :: (b :: _) as r => (a <= b)%Q /\ nondecreasing r
  | _ => True
  end.

(** The reading text written for a device response of [data] bytes. *)
Definition reading_of (data : string) : string :=
  let buffer := cstring (chop data) in
  if String.eqb buffer "+9.9E37" then "OVERFLOW" else buffer.

(** ** Bench set-ups used in the examples *)

(** A C library that writes its buffer of 4096 bytes out when it is
    full. *)
Definition full_blocks (on_disk stream : string) : nat :=
  (4096 * ((String.length stream - String.length on_disk) / 4096))%nat.

(** An instrument on the bench: the file can be created, the device opens,
    gnuplot starts; what the bus, the clock and the keyboard do is left
    open. *)
Definition bench (wrt : nat -> string -> bool) (rd : nat -> option string)
  (clk : nat -> Z) (keys : nat -> option ascii) : oracle :=
  {| existing := None; stdin_key := None; fopen_ok := true; ibdev_ud := 0;
     ibwrt_ok := wrt; ibrd_data := rd; popen_ok := true;
     time_now := fun _ => 0;
     ctime := fun _ => "Thu Jan  1 00:00:00 1970" ++ LF;
     clock := clk; tty_poll := keys; tty_wait := fun _ => "x"%char;
     scan_g := scan_float; stdio_spill := full_blocks |}.

(** The same with a file already at the output path and an answer typed
    at the prompt. *)
Definition with_file (content : string) (answer : option ascii) (o : oracle) : oracle :=
  {| existing := Some content; stdin_key := answer; fopen_ok := fopen_ok o;
     ibdev_ud := ibdev_ud o; ibwrt_ok := ibwrt_ok o; ibrd_data := ibrd_data o;
     popen_ok := popen_ok o; time_now := time_now o; ctime := ctime o;
     clock := clock o; tty_poll := tty_poll o; tty_wait := tty_wait o;
     scan_g := scan_g o; stdio_spill := stdio_spill o |}.



Definition always_ok : nat -> string -> bool := fun _ _ => true.
Definition steady_reading : nat -> option string :=
  fun _ => Some ("+1.2345E+00" ++ LF).
Definition one_second_ticks : nat -> Z := fun k => Z.of_nat k * 1000000.
Definition no_keys : nat -> option ascii := fun _ => None.
Definition key_at (n : nat) (c : ascii) : nat -> option ascii :=
  fun k => if Nat.eqb k n then Some c else None.

(** ** What a run shows *)

(** The commands sent to the instrument, in order. *)
Fixpoint sent (tr : list event) : list string :=
  match tr with
  | Ibwrt cmd :: r => cmd :: sent r
  | _ :: r => sent r
  | [] => []
  end.

(** The texts written to the plot pipe, in order. *)
Fixpoint plotted (tr : list event) : list string :=
  match tr with
  | GpPrintf s :: r => s :: plotted r
  | _ :: r => plotted r
  | [] => []
  end.

(** The commands of the programs started with [popen], in order. *)
Fixpoint launched (tr : list event) : list string :=
  match tr with
  | Popen cmd :: r => cmd :: launched r
  | _ :: r => launched r
  | [] => []
  end.

(** The samples shown on the console: their number and elapsed minutes. *)
Fixpoint progress (tr : list event) : list (Z * Q) :=
  match tr with
  | Msg (Progress n t _) :: r => (n, t) :: progress r
  | _ :: r => progress r
  | [] => []
  end.

(** The mode-select commands and the axis commands among them. *)
Definition mode_commands (tr : list event) : list string :=
  filter (String.prefix ":func") (sent tr).

Definition axis_commands (tr : list event) : list string :=
  filter (String.prefix "set grid") (plotted tr).

(** The mode-select command as the specification words it: the template
    with the token in it and nothing after it. *)
Definition spec_mode_command (token : string) : string :=
  ":func '" ++ token ++ "';:init; *opc".



(** ** Notions used in the properties *)

(** A relation between the world before and after a computation that
    holds whatever the computation answers. *)
Definition preserves {A} (R : world -> world -> Prop) (m : M A) : Prop :=
  forall w, R w (snd (m w)).

(** [w'] has the trace of [w] and then events that all satisfy [P]. *)
Definition grows (P : event -> Prop) (w w' : world) : Prop :=
  exists evs, trace w' = (trace w ++ evs)%list /\ Forall P evs.

Definition no_launch (e : event) : Prop := launched [e] = [].

Definition any_event (e : event) : Prop := True.

(** The events of [w'] that [w] does not have yet. *)
Definition added (w w' : world) : list event :=
  skipn (List.length (trace w)) (trace w').

Definition mode_command_is (expected : string) (e : event) : Prop :=
  forall cmd, e = Ibwrt cmd -> String.prefix ":func" cmd = true -> cmd = expected.

Definition axis_command_is (expected : string) (e : event) : Prop :=
  forall s, e = GpPrintf s -> String.prefix "set grid" s = true -> s = expected.

Definition no_mode_command (e : event) : Prop := mode_commands [e] = [].

(** The key the program holds after a round that took a sample. *)
Definition key_after (o : oracle) (w : world) (key' : Z) : Z :=
  match tty_poll o (n_poll w) with
  | None => key'
  | Some ch => if schar ch =? -1 then schar (tty_wait o (n_wait w)) else schar ch
  end.


Definition is_digit (d : Z) : Prop := 0 <= d <= 9.

(** Every character of [s] satisfies [p]. *)
Fixpoint string_all (p : ascii -> bool) (s : string) : bool :=
  match s with
  | String c r => p c && string_all p r
  | EmptyString => true
  end.

(** What follows the digits is not a digit. *)
Definition ends_digits (rest : string) : Prop :=
  match rest with
  | String c _ => isdigit c = false
  | EmptyString => True
  end.

Definition not_tab (c : ascii) : bool := negb (uchar c =? 9).

Definition not_lf (c : ascii) : bool := negb (uchar c =? 10).

Definition not_written (e : event) : Prop := written [e] = [].

(** Nothing is written to the output file, and the clock and the bus are
    not read. *)
Definition quiet (w w' : world) : Prop :=
  grows not_written w w' /\ n_clock w' = n_clock w /\ n_ibrd w' = n_ibrd w.

(** The output stream is left as it is. *)
Definition same_outfile (w w' : world) : Prop := outfile w' = outfile w.


(** The samples of a run from the [kc]-th clock reading and the [kr]-th
    bus read on: the clock reading and the bytes delivered for each. *)
Fixpoint samples_from (o : oracle) (kc kr : nat) (recs : list (Z * string)) : Prop :=
  match recs with
  | [] => True
  | rec :: rest =>
      fst rec = clock o kc
      /\ option_map (substring 0 (Z.to_nat 90)) (ibrd_data o kr) = Some (snd rec)
      /\ samples_from o (S kc) (S kr) rest
  end.

Definition line_of (t0 : Z) (rec : Z * string) : string :=
  data_line (elapsed t0 (fst rec)) (reading_of (snd rec)).

Definition minutes_of (t0 : Z) (rec : Z * string) : Q :=
  Qmake (round4 (elapsed t0 (fst rec))) 10000.

(** ** Scenarios *)

Definition argv_plain : list string := ["k2000"; "out.dat"].

(** The instrument rejects every command. *)
Definition deaf_instrument : oracle :=
  bench (fun _ _ => false) steady_reading one_second_ticks no_keys.

(** The device cannot be opened. *)
Definition no_device : oracle :=
  {| existing := None; stdin_key := None; fopen_ok := true; ibdev_ud := -1;
     ibwrt_ok := always_ok; ibrd_data := steady_reading; popen_ok := true;
     time_now := fun _ => 0;
     ctime := fun _ => "Thu Jan  1 00:00:00 1970" ++ LF;
     clock := one_second_ticks; tty_poll := no_keys; tty_wait := fun _ => "x"%char;
     scan_g := scan_float; stdio_spill := full_blocks |}.

(** The identity cannot be read. *)
Definition mute_instrument : oracle :=
  bench always_ok (fun _ => None) one_second_ticks no_keys.


(** All goes well and q is typed during the first round. *)
Definition quit_at_once : oracle :=
  bench always_ok steady_reading one_second_ticks (key_at 0 "q").

(** The clock is set back by half a minute between two samples; q is
    typed during the second round. *)
Definition clock_set_back : oracle :=
  bench always_ok steady_reading
    (fun k => match k with
              | O => 120000000
              | S O => 180000000
              | _ => 150000000
              end)
    (key_at 1 "q").



(** The clock reads 3 and 9 milliseconds and then stays at one second;
    q is typed during the third round. *)
Definition three_samples : oracle :=
  bench always_ok steady_reading
    (fun k => match k with
              | O => 3000
              | S O => 9000
              | _ => 1000000
              end)
    (key_at 2 "q").

(** Nothing is typed. *)
Definition hands_off : oracle :=
  bench always_ok steady_reading one_second_ticks no_keys.

(** A file is in the way and the user answers n. *)
Definition file_in_the_way : oracle := with_file "precious" (Some "n"%char) hands_off.

(** The world when the loop is entered in the examples: the output file
    is open and holds [text]. *)
Definition at_loop (o : oracle) (text : string) : world :=
  set_raw_mode true (set_outfile (Some text) (initial o)).

Definition first_round : locals := {| loop := 0; key := 0 |}.

(** No display blanking and no graph, as with the options -n. *)
Definition no_graph : config := set_do_graph false defaults.


(** ** Checks *)



(** ** Notions used in the further properties *)

(** Neither CR nor LF. *)
Definition not_eol (c : ascii) : bool := negb ((uchar c =? 10) || (uchar c =? 13)).

(** What follows the text [strclean] keeps. *)
Definition starts_with_eol (rest : string) : Prop :=
  match rest with
  | String c _ => not_eol c = false
  | EmptyString => True
  end.

(** The ranges the option loop keeps the variables in. *)
Definition in_range (c : config) : Prop :=
  0 <= pad c <= 30
  /\ 0 <= delay c <= 600
  /\ 0 <= mode c <= 5
  /\ (0 <= tstop c)%Q
  /\ -9999 <= do_flush c <= 99999
  /\ strlen (comment c) < MAXLEN
  /\ string_all not_eol (comment c) = true
  /\ strlen (gnuplot c) <= 80.

Definition is_message (e : event) : Prop := exists m, e = Msg m.

(** Nothing the program owns is touched and only messages are printed. *)
Definition console_only (w w' : world) : Prop :=
  grows is_message w w'
  /\ disk w' = disk w /\ outfile w' = outfile w /\ gp w' = gp w
  /\ raw_mode w' = raw_mode w /\ peek_character w' = peek_character w
  /\ n_ibwrt w' = n_ibwrt w /\ n_ibrd w' = n_ibrd w.

(** The option characters whose case of the [switch] reads [optarg]. *)
Definition takes_argument (k : Z) : bool :=
  existsb (Z.eqb k) (map uchar ["a"; "w"; "t"; "T"; "m"; "c"; "g"]%char).

(** The calendar time has not been asked for. *)
Definition same_time (w w' : world) : Prop := n_time w' = n_time w.

(** The command that refreshes the plot. *)
Definition plot_command (file : string) : string :=
  "plot '" ++ file ++ "' with lines title ''" ++ LF.

Definition no_sleep (e : event) : Prop := forall us, e <> Usleep us.

(** The codes [main] returns. *)
Definition exit_code (n : Z) : Prop := n = 0 \/ n = 1 \/ n = ERR_FILE \/ n = ERR_INST.

(** A computation whose results satisfy [P] and which, when it returns
    from [main], does so with a code that satisfies [Q]. *)
Definition ends_in {A} (Q : Z -> Prop) (P : A -> Prop) (m : M A) : Prop :=
  forall w, match fst (m w) with
            | Ret a => P a
            | Halt (Exit n) => Q n
            | Halt _ => True
            end.

Definition anything {A} (a : A) : Prop := True.

(** The events of a run that has not got to the instrument. *)
Definition early_event (e : event) : Prop :=
  match e with
  | Msg _ | Access _ | Getc | Fopen _ => True
  | _ => False
  end.

(** The file on disk is as it was, no stream or pipe has been opened,
    the terminal and the bus have not been used. *)
Definition nothing_opened (w w' : world) : Prop :=
  grows early_event w w'
  /\ disk w' = disk w /\ outfile w' = outfile w /\ gp w' = gp w
  /\ raw_mode w' = raw_mode w /\ n_ibwrt w' = n_ibwrt w /\ n_ibrd w' = n_ibrd w.




(** The plot pipe is left as it is. *)
Definition same_gp (w w' : world) : Prop := gp w' = gp w.

(** Lines put together to a text. *)
Definition text (lines : list string) : string := fold_right append "" lines.

(** The header of the log, [stamp] being the start time as [ctime] gives
    it (with its line feed). *)
Definition header (c : config) (inst stamp : string) : list string :=
  ["# k2000 " ++ VERSION ++ LF;
   "# Instrument: " ++ inst ++ LF;
   "# " ++ comment c ++ LF;
   "# Acquisition start: " ++ stamp;
   "# min" ++ TAB ++ "readout" ++ LF].

(** What is written goes to the end of the output stream while it is
    open, and is on disk once it is closed. *)
Definition logged (w w' : world) : Prop :=
  exists evs,
    trace w' = (trace w ++ evs)%list
    /\ match outfile w with
       | Some d =>
           outfile w' = Some (d ++ text (written evs))
           \/ (outfile w' = None /\ disk w' = Some (d ++ text (written evs)))
       | None => outfile w' = None /\ disk w' = disk w /\ written evs = []
       end.

Definition no_send (e : event) : Prop := sent [e] = [].

Definition only_read (e : event) : Prop := forall cmd, e = Ibwrt cmd -> cmd = ":read?".

Definition not_nul (c : ascii) : bool := negb (uchar c =? 0).

(** Neither the overwrite prompt nor the reading of its answer. *)
Definition no_prompt (e : event) : Prop :=
  e <> Getc /\ forall file, e <> Msg (OverwritePrompt file).



(** The output file, on disk and as a stream, and the terminal mode are
    left as they are. *)
Definition file_untouched (w w' : world) : Prop :=
  outfile w' = outfile w /\ disk w' = disk w /\ raw_mode w' = raw_mode w.

(** A name of [n] characters. *)
Definition name_of_length (n : nat) : string :=
  string_of_list_ascii (repeat "a"%char n).

(** * Properties *)

(** ** How the monad runs *)

Lemma uchar_inj a b : uchar a = uchar b -> a = b.
Proof.
  unfold uchar. intros H. apply N2Z.inj in H.
  rewrite <- (ascii_N_embedding a), <- (ascii_N_embedding b). now f_equal.
Qed.

Lemma trace_log e w : trace (log e w) = (trace w ++ [e])%list.
Proof. reflexivity. Qed.

Section Preservation.

Variable R : world -> world -> Prop.
Hypothesis R_refl : forall w, R w w.
Hypothesis R_trans : forall a b c, R a b -> R b c -> R a c.

Lemma preserves_ret A (a : A) : preserves R (ret a).
Proof. intros w. apply R_refl. Qed.

Lemma preserves_halt A out : preserves R (@halt A out).
Proof. intros w. apply R_refl. Qed.

Lemma preserves_get : preserves R get.
Proof. intros w. apply R_refl. Qed.

Lemma preserves_bind A B (m : M A) (k : A -> M B) :
  preserves R m -> (forall a, preserves R (k a)) -> preserves R (bind m k).
Proof.
  intros Hm Hk w. unfold bind. specialize (Hm w).
  destruct (m w) as [[a | out] w1]; cbn in *; [ | exact Hm ].
  eapply R_trans; [ exact Hm | apply Hk ].
Qed.

Lemma preserves_get_bind A (k : world -> M A) :
  (forall w, preserves R (k w)) -> preserves R (bind get k).
Proof. intros Hk. apply preserves_bind; [ apply preserves_get | exact Hk ]. Qed.

Lemma preserves_bind_ret A B (a : A) (k : A -> M B) :
  preserves R (k a) -> preserves R (bind (ret a) k).
Proof. intros Hk w. apply Hk. Qed.

Lemma preserves_bind_assoc A B C (m : M A) (f : A -> M B) (k : B -> M C) :
  preserves R (bind m (fun x => bind (f x) k)) -> preserves R (bind (bind m f) k).
Proof.
  intros H w. specialize (H w). unfold bind in *.
  destruct (m w) as [[a | out] w1]; exact H.
Qed.

Lemma preserves_modify f : (forall w, R w (f w)) -> preserves R (modify f).
Proof. intros Hf w. apply Hf. Qed.

Lemma preserves_if A (b : bool) (m1 m2 : M A) :
  preserves R m1 -> preserves R m2 -> preserves R (if b then m1 else m2).
Proof. now destruct b. Qed.

Lemma preserves_option A B (x : option B) (m1 : B -> M A) (m2 : M A) :
  (forall b, preserves R (m1 b)) -> preserves R m2 ->
  preserves R (match x with Some b => m1 b | None => m2 end).
Proof. now destruct x. Qed.

End Preservation.

(** *** Events added by a computation *)

Lemma grows_refl P w : grows P w w.
Proof. exists []. split; [ now rewrite app_nil_r | constructor ]. Qed.

Lemma grows_trans P a b c : grows P a b -> grows P b c -> grows P a c.
Proof.
  intros [e1 [H1 F1]] [e2 [H2 F2]]. exists (e1 ++ e2)%list. split.
  - now rewrite H2, H1, app_assoc.
  - apply Forall_app. now split.
Qed.

Lemma grows_log (P : event -> Prop) e w : P e -> grows P w (log e w).
Proof. intros H. exists [e]. split; [ reflexivity | now repeat constructor ]. Qed.

Lemma grows_same P w w' : trace w' = trace w -> grows P w w'.
Proof. intros H. exists []. split; [ now rewrite app_nil_r | constructor ]. Qed.

Lemma index_spec table i w :
  (exists s, index table i w = (Ret s, w) /\ 0 <= i
             /\ nth_error table (Z.to_nat i) = Some s)
  \/ index table i w = (Halt (Fault OutOfBounds), w).
Proof.
  unfold index. destruct (Z.ltb_spec i 0); [ now right | ].
  destruct (nth_error table (Z.to_nat i)) as [s | ] eqn:E; [ left | now right ].
  exists s. now repeat split.
Qed.

Lemma preserves_index R table i A (k : string -> M A) :
  (forall w, R w w) ->
  (forall s, nth_error table (Z.to_nat i) = Some s -> preserves R (k s)) ->
  preserves R (bind (index table i) k).
Proof.
  intros Hrefl Hk w. unfold bind.
  destruct (index_spec table i w) as [[s [-> [_ Hs]]] | ->]; cbn.
  - now apply Hk.
  - apply Hrefl.
Qed.

Ltac head_of t :=
  match t with
  | ?f _ => head_of f
  | _ => t
  end.

(** One step through a computation along its binds and case distinctions,
    down to the single changes of the world; [known] is tried first. *)
Ltac walk_step refl trans known :=
  intros;
  match goal with
  | |- preserves _ _ => solve [ known ]
  | |- preserves _ (ret _) => apply preserves_ret, refl
  | |- preserves _ (halt _) => apply preserves_halt, refl
  | |- preserves _ get => apply preserves_get, refl
  | |- preserves _ (bind (index _ _) _) =>
      apply preserves_index; [ exact refl | intros ]
  | |- preserves _ (bind _ _) => apply preserves_bind; [ exact trans | | ]
  | |- preserves _ (match ?x with _ => _ end) => destruct x
  | |- preserves _ (modify _) => fail 1
  | |- preserves _ ?m => let h := head_of m in progress unfold h
  end.

(** One step that keeps the value a computation hands to the next one. *)
Ltac flow_step :=
  match goal with
  | |- preserves _ (bind (ret _) _) => apply preserves_bind_ret
  | |- preserves _ (bind (bind _ _) _) => apply preserves_bind_assoc
  | |- preserves _ (bind (match ?x with _ => _ end) _) => destruct x
  end.

Ltac walk refl trans known := repeat walk_step refl trans known.

Ltac walk_values refl trans known :=
  repeat (intros; first [ flow_step | walk_step refl trans known ]).

Ltac leaves P :=
  match goal with
  | |- preserves (grows P) (modify (log ?e)) =>
      apply preserves_modify; intros; apply grows_log
  | |- preserves (grows P) (modify _) =>
      apply preserves_modify; intros; apply grows_same; reflexivity
  end.

Ltac grow P known :=
  walk (grows_refl P) (grows_trans P) known; try leaves P.

Ltac grow_values P known :=
  walk_values (grows_refl P) (grows_trans P) known; try leaves P.

Lemma skipn_added (tr evs : list event) : skipn (List.length tr) (tr ++ evs) = evs.
Proof. now rewrite skipn_app, skipn_all, Nat.sub_diag. Qed.

Lemma added_app w w' evs : trace w' = (trace w ++ evs)%list -> added w w' = evs.
Proof.
  intros H. unfold added. rewrite H.
  rewrite skipn_app, skipn_all, Nat.sub_diag. reflexivity.
Qed.

(** *** The plot program *)

Lemma sampling_gnuplot o fuel c file t0 g :
  forall l w,
    sampling o fuel (set_gnuplot g c) file t0 l w = sampling o fuel c file t0 l w.
Proof.
  induction fuel as [ | fuel IH ]; intros l w; [ reflexivity | ].
  cbn [sampling]. unfold bind.
  change (sample o (set_gnuplot g c) file t0 l w) with (sample o c file t0 l w).
  destruct (sample o c file t0 l w) as [[[l' | l'] | out] w']; try reflexivity.
  destruct (stop_key (key l')); [ reflexivity | apply IH ].
Qed.

Lemma record_gnuplot o fuel c file inst g w :
  record o fuel (set_gnuplot g c) file inst w = record o fuel c file inst w.
Proof.
  unfold record, bind.
  destruct (say Summary w) as [[[] | out] w1]; [ | reflexivity ].
  change (write_header o (set_gnuplot g c) inst w1) with (write_header o c inst w1).
  destruct (write_header o c inst w1) as [[[] | out] w2]; [ | reflexivity ].
  destruct (timeinfo o w2) as [[t0 | out] w3]; [ | reflexivity ].
  destruct (init_keyboard w3) as [[[] | out] w4]; [ | reflexivity ].
  rewrite sampling_gnuplot.
  destruct (sampling o fuel c file t0 _ w4) as [[l' | out] w5]; reflexivity.
Qed.

Lemma prepare_gnuplot_gnuplot o c file g w :
  prepare_gnuplot o (set_gnuplot g c) file w =
  match prepare_gnuplot o c file w with
  | (Ret c', w') => (Ret (set_gnuplot g c'), w')
  | (Halt out, w') => (Halt out, w')
  end.
Proof.
  unfold prepare_gnuplot, bind.
  destruct (popen_w o "gnuplot" w) as [[[ | ] | out] w1]; [ | | reflexivity ].
  - cbn [ret]. 
    change (do_graph (set_gnuplot g c)) with (do_graph c).
    destruct (do_graph c); [ | reflexivity ].
    destruct (fprintf_gp (plot_title file) w1) as [[[] | out] w2]; [ | reflexivity ].
    change (mode (set_gnuplot g c)) with (mode c).
    destruct (index ylabels (mode c) w2) as [[lab | out] w3]; [ | reflexivity ].
    destruct (fprintf_gp (plot_axes lab) w3) as [[[] | out] w4]; [ | reflexivity ].
    destruct (fflush_gp w4) as [[[] | out] w5]; reflexivity.
  - destruct (say NoGnuplot w1) as [[[] | out] w2]; reflexivity.
Qed.

Lemma acquire_gnuplot o fuel c file g w :
  acquire o fuel (set_gnuplot g c) file w = acquire o fuel c file w.
Proof.
  unfold acquire, measure, bind.
  change (prepare_output o (set_gnuplot g c) file w) with (prepare_output o c file w).
  destruct (prepare_output o c file w) as [[[] | out] w1]; [ | reflexivity ].
  change (connect o (set_gnuplot g c) w1) with (connect o c w1).
  destruct (connect o c w1) as [[inst | out] w2]; [ | reflexivity ].
  rewrite prepare_gnuplot_gnuplot.
  destruct (prepare_gnuplot o c file w2) as [[c' | out] w3]; [ | reflexivity ].
  apply record_gnuplot.
Qed.

(** *** What is started *)

Lemma launched_app tr1 tr2 :
  launched (tr1 ++ tr2) = (launched tr1 ++ launched tr2)%list.
Proof.
  induction tr1 as [ | e tr1 IH ]; [ reflexivity | ].
  destruct e; cbn; rewrite ?IH; reflexivity.
Qed.

Lemma no_launch_all evs : Forall no_launch evs -> launched evs = [].
Proof.
  induction 1 as [ | e evs He _ IH ]; [ reflexivity | ].
  change (e :: evs) with ([e] ++ evs)%list. now rewrite launched_app, He, IH.
Qed.

Lemma sampling_no_launch o fuel c file t0 :
  forall l, preserves (grows no_launch) (sampling o fuel c file t0 l).
Proof.
  induction fuel as [ | fuel IH ]; intros l.
  - grow no_launch fail; reflexivity.
  - cbn [sampling]. grow no_launch ltac:(apply IH); reflexivity.
Qed.

Lemma record_no_launch o fuel c file inst :
  preserves (grows no_launch) (record o fuel c file inst).
Proof. grow no_launch ltac:(apply sampling_no_launch); reflexivity. Qed.

Lemma connect_no_launch o c : preserves (grows no_launch) (connect o c).
Proof. grow no_launch fail; reflexivity. Qed.

Lemma prepare_output_no_launch o c file :
  preserves (grows no_launch) (prepare_output o c file).
Proof. grow no_launch fail; reflexivity. Qed.

(** What [prepare_gnuplot] does once [popen] has answered. *)
Lemma after_popen_no_launch c file (answer : bool) :
  preserves (grows no_launch)
    (c' <- (if answer then ret c else say NoGnuplot;; ret (set_do_graph false c));;
     (if do_graph c' then
        fprintf_gp (plot_title file);;
        label <- index ylabels (mode c');;
        fprintf_gp (plot_axes label);;
        fflush_gp
      else ret tt);;
     ret c').
Proof. grow_values no_launch fail; reflexivity. Qed.

Lemma prepare_gnuplot_launches o c file w :
  exists evs,
    trace (snd (prepare_gnuplot o c file w)) = (trace w ++ Popen "gnuplot" :: evs)%list
    /\ Forall no_launch evs.
Proof.
  pose (rest := fun answer : bool =>
    c' <- (if answer then ret c else say NoGnuplot;; ret (set_do_graph false c));;
    (if do_graph c' then
       fprintf_gp (plot_title file);;
       label <- index ylabels (mode c');;
       fprintf_gp (plot_axes label);;
       fflush_gp
     else ret tt);;
    ret c').
  change (prepare_gnuplot o c file) with (bind (popen_w o "gnuplot") rest).
  assert (forall answer w1,
            trace w1 = (trace w ++ [Popen "gnuplot"])%list ->
            exists evs,
              trace (snd (rest answer w1)) = (trace w ++ Popen "gnuplot" :: evs)%list
              /\ Forall no_launch evs) as Hrest.
  { intros answer w1 Hw1.
    destruct (after_popen_no_launch c file answer w1) as (evs & Htr & Hall).
    exists evs. split; [ | exact Hall ].
    subst rest. cbn beta. rewrite Htr, Hw1, <- app_assoc. reflexivity. }
  unfold bind at 1, popen_w. unfold bind at 1. unfold bind at 1.
  unfold emit, modify at 1. cbn iota.
  destruct (popen_ok o).
  - apply Hrest. reflexivity.
  - apply Hrest. reflexivity.
Qed.

Lemma nth_error_in_range {A} (l : list A) n x :
  nth_error l n = Some x -> (n <? List.length l)%nat = true.
Proof.
  intros H. apply Nat.ltb_lt. apply nth_error_Some. rewrite H. discriminate.
Qed.

(** Runs [GetOpt] as far as the command line at hand allows. *)
Ltac run_getopt :=
  lazy beta iota zeta delta
    [GetOpt GetOpt_letter gopEOF gopError bump_optind colon_follows
     bind get emit say modify ret halt log
     set_disk set_outfile set_gp set_raw_mode set_peek_character set_optind
     set_letP
     disk outfile gp raw_mode peek_character optind letP
     n_ibwrt n_ibrd n_time n_clock n_poll n_wait trace fst snd].

(** C9: whatever is given to -g, the plot program that is started is the
    literal "gnuplot".  A round of the option loop that stands before
    -g and its argument stores the word scanned from the argument in the
    [gnuplot] variable and goes on behind the argument; the run from the
    opening of the output file on is the same whatever that variable
    holds; and when the output file has been opened and the instrument
    has answered, that run starts one program, with the command
    "gnuplot". *)
Theorem C9_plotter_path_is_ignored (o : oracle) (fuel rounds : nat)
  (argv : list string) (arg file inst : string) (c : config)
  (w wa wb wc : world) :
  letP w = None ->
  nth_error argv (optind w) = Some "-g" ->
  nth_error argv (S (optind w)) = Some arg ->
  prepare_output o c file wa = (Ret tt, wb) ->
  connect o c wb = (Ret inst, wc) ->
  let c' := set_gnuplot (or_keep (scan_s 80 arg) (gnuplot c)) c in
  (exists w',
     options o (S rounds) argv c w = options o rounds argv c' w'
     /\ optind w' = S (S (optind w))
     /\ letP w' = None
     /\ trace w' = trace w)
  /\ acquire o fuel c' file wa = acquire o fuel c file wa
  /\ launched (added wa (snd (acquire o fuel c' file wa))) = ["gnuplot"].
Proof.
  intros Hlet Hopt Harg Hprep Hconn c'.
  split; [ | split ].
  - destruct w as [wdisk wout wgp wraw wpeek woptind wletP nwrt nrd ntime nclock npoll
                   nwait wtrace].
    cbn [letP optind] in Hlet, Hopt, Harg. subst wletP.
    pose proof (nth_error_in_range _ _ _ Hopt) as Hin.
    eexists. split.
    + cbn [options].
      run_getopt. rewrite Hin, Hopt.
      change (Ascii.eqb "-" SW) with true. change (Ascii.eqb "g" SW) with false.
      change (Ascii.eqb "g" ":") with false.
      change (strchr optionS "g") with (Some "g:").
      run_getopt. change (Ascii.eqb ":" ":") with true. run_getopt.
      rewrite Harg. run_getopt.
      change (uchar "g" =? EOF) with false. cbn iota.
      change (option_case o argv (uchar "g") (Some arg) c)
        with (@ret config c').
      reflexivity.
    + repeat split.
  - apply acquire_gnuplot.
  - subst c'. rewrite acquire_gnuplot.
    destruct (prepare_output_no_launch o c file wa) as (evs1 & Htr1 & Hall1).
    rewrite Hprep in Htr1. cbn [snd] in Htr1.
    destruct (connect_no_launch o c wb) as (evs2 & Htr2 & Hall2).
    rewrite Hconn in Htr2. cbn [snd] in Htr2.
    destruct (prepare_gnuplot_launches o c file wc) as (evs3 & Htr3 & Hall3).
    assert (exists evs4,
              trace (snd (acquire o fuel c file wa))
              = (trace wc ++ Popen "gnuplot" :: evs4)%list
              /\ Forall no_launch evs4) as (evs4 & Htr4 & Hall4).
    { unfold acquire, measure. unfold bind at 1. rewrite Hprep.
      unfold bind at 1. rewrite Hconn. unfold bind at 1.
      destruct (prepare_gnuplot o c file wc) as [[c1 | out] w3]; cbn [snd] in Htr3.
      - destruct (record_no_launch o fuel c1 file inst w3) as (evs5 & Htr5 & Hall5).
        exists (evs3 ++ evs5)%list. split.
        + rewrite Htr5, Htr3, <- app_assoc. reflexivity.
        + apply Forall_app. now split.
      - exists evs3. now split. }
    rewrite Htr2, Htr1, <- !app_assoc in Htr4.
    rewrite (added_app _ _ _ Htr4).
    rewrite !launched_app, (no_launch_all _ Hall1), (no_launch_all _ Hall2).
    cbn [launched app]. now rewrite (no_launch_all _ Hall4).
Qed.

(** *** The overwrite prompt *)

Lemma sampling_grows o fuel c file t0 l :
  preserves (grows any_event) (sampling o fuel c file t0 l).
Proof.
  revert l. induction fuel as [ | fuel IH ]; intros l.
  - grow any_event fail; exact I.
  - cbn [sampling]. grow any_event ltac:(apply IH); exact I.
Qed.

Lemma measure_grows o fuel c file :
  preserves (grows any_event) (measure o fuel c file).
Proof. grow any_event ltac:(apply sampling_grows); exact I. Qed.

Lemma answer_no o :
  stdin_key o <> Some "y"%char -> stdin_key o <> Some "Y"%char ->
  (let key := match stdin_key o with
              | Some k => uchar k
              | None => EOF
              end in (key =? uchar "Y") || (key =? uchar "y")) = false.
Proof.
  intros Hy HY. cbv zeta. destruct (stdin_key o) as [k | ]; [ | reflexivity ].
  apply orb_false_iff. split; apply Z.eqb_neq; intros E; apply uchar_inj in E;
    subst k; congruence.
Qed.

Lemma answer_yes o :
  stdin_key o = Some "y"%char \/ stdin_key o = Some "Y"%char ->
  (let key := match stdin_key o with
              | Some k => uchar k
              | None => EOF
              end in (key =? uchar "Y") || (key =? uchar "y")) = true.
Proof. intros [-> | ->]; reflexivity. Qed.

(** C7: with a file at the output path and overwriting not forced, the
    user is asked; any answer but y or Y ends the run with code 1 before
    the file is opened ([fopen] is not reached, the file on disk is as it
    was), and y or Y lets the run go on to open it. *)
Theorem C7_overwrite_needs_consent (o : oracle) (fuel : nat) (c : config)
  (file content : string) (w : world) :
  disk w = Some content ->
  do_overwrite c = false ->
  (stdin_key o <> Some "y"%char -> stdin_key o <> Some "Y"%char ->
   exists w',
     acquire o fuel c file w = (Halt (Exit 1), w')
     /\ trace w' = (trace w ++ [Access file; Msg (OverwritePrompt file); Getc])%list
     /\ disk w' = Some content
     /\ outfile w' = outfile w)
  /\ (stdin_key o = Some "y"%char \/ stdin_key o = Some "Y"%char ->
      exists evs,
        trace (snd (acquire o fuel c file w))
        = (trace w ++ [Access file; Msg (OverwritePrompt file); Getc; Fopen file]
             ++ evs)%list).
Proof.
  intros Hdisk Hforce. split.
  - intros Hy HY. pose proof (answer_no o Hy HY) as Hkey. cbn in Hkey.
    unfold acquire, prepare_output, bind, get, emit, say, modify, ret, halt, file_there.
    cbn. rewrite Hdisk, Hforce. cbn. rewrite Hkey. cbn.
    eexists. split; [ reflexivity | ]. cbn.
    repeat split; try assumption. now rewrite <- !app_assoc.
  - intros Hans. pose proof (answer_yes o Hans) as Hkey. cbn in Hkey.
    unfold acquire, prepare_output, fopen_wt, bind, get, emit, say, modify, ret, halt,
      file_there.
    cbn. rewrite Hdisk, Hforce. cbn. rewrite Hkey. cbn.
    destruct (fopen_ok o); cbn.
    + match goal with
      | |- context [measure o fuel c file ?w1] =>
          destruct (measure_grows o fuel c file w1) as [evs [Htr _]];
          destruct (measure o fuel c file w1) as [[code | out] w2]
      end; cbn in *; exists evs; rewrite Htr; cbn; now rewrite <- !app_assoc.
    + exists [Msg (CannotOpen file)]. cbn. now rewrite <- !app_assoc.
Qed.

(** *** The mode command and the axis label *)

Lemma mode_commands_all expected evs :
  Forall (mode_command_is expected) evs ->
  forall cmd, In cmd (mode_commands evs) -> cmd = expected.
Proof.
  unfold mode_commands. induction 1 as [ | e evs He _ IH ]; intros cmd Hin.
  - contradiction.
  - destruct e; cbn in Hin; try (now apply IH).
    destruct (String.prefix ":func" cmd0) eqn:E; [ | now apply IH ].
    destruct Hin as [<- | Hin]; [ now apply (He cmd0) | now apply IH ].
Qed.

Lemma axis_commands_all expected evs :
  Forall (axis_command_is expected) evs ->
  forall s, In s (axis_commands evs) -> s = expected.
Proof.
  unfold axis_commands. induction 1 as [ | e evs He _ IH ]; intros cmd Hin.
  - contradiction.
  - destruct e; cbn in Hin; try (now apply IH).
    destruct (String.prefix "set grid" s) eqn:E; [ | now apply IH ].
    destruct Hin as [<- | Hin]; [ now apply (He s) | now apply IH ].
Qed.

Lemma connect_mode_command o c token :
  nth_error scpi_mode (Z.to_nat (mode c)) = Some token ->
  preserves (grows (mode_command_is (mode_command token))) (connect o c).
Proof.
  intros Htok.
  grow (mode_command_is (mode_command token)) fail;
    intros cmd; try discriminate; intros [= <-]; try discriminate.
  intros _. congruence.
Qed.

Lemma prepare_gnuplot_axis_command o c file label :
  nth_error ylabels (Z.to_nat (mode c)) = Some label ->
  preserves (grows (axis_command_is (plot_axes label))) (prepare_gnuplot o c file).
Proof.
  intros Hlab.
  unfold prepare_gnuplot.
  grow_values (axis_command_is (plot_axes label)) fail;
    intros cmd; try discriminate; intros [= <-]; try discriminate.
  all: intros _; cbn in *; congruence.
Qed.

Lemma bind_Ret A B (m : M A) (k : A -> M B) w b w' :
  bind m k w = (Ret b, w') ->
  exists a w1, m w = (Ret a, w1) /\ k a w1 = (Ret b, w').
Proof.
  unfold bind. destruct (m w) as [[a | out] w1]; intros H; [ | discriminate ].
  now exists a, w1.
Qed.

Lemma mode_commands_app tr1 tr2 :
  mode_commands (tr1 ++ tr2) = (mode_commands tr1 ++ mode_commands tr2)%list.
Proof.
  unfold mode_commands. rewrite <- filter_app. f_equal.
  induction tr1 as [ | e tr1 IH ]; [ reflexivity | ].
  destruct e; cbn; rewrite ?IH; reflexivity.
Qed.

Lemma axis_commands_app tr1 tr2 :
  axis_commands (tr1 ++ tr2) = (axis_commands tr1 ++ axis_commands tr2)%list.
Proof.
  unfold axis_commands. rewrite <- filter_app. f_equal.
  induction tr1 as [ | e tr1 IH ]; [ reflexivity | ].
  destruct e; cbn; rewrite ?IH; reflexivity.
Qed.

Lemma no_mode_commands evs : Forall no_mode_command evs -> mode_commands evs = [].
Proof.
  induction 1 as [ | e evs He _ IH ]; [ reflexivity | ].
  change (e :: evs) with ([e] ++ evs)%list.
  now rewrite mode_commands_app, He, IH.
Qed.

Lemma handshake_no_mode_command o c :
  preserves (grows no_mode_command) (handshake o c).
Proof. grow no_mode_command fail; reflexivity. Qed.

Lemma select_mode_Ret o c w w' :
  select_mode o c w = (Ret tt, w') ->
  exists token,
    nth_error scpi_mode (Z.to_nat (mode c)) = Some token
    /\ trace w' = (trace w ++ [Ibwrt (mode_command token)])%list.
Proof.
  unfold select_mode, bind. intros H.
  destruct (index_spec scpi_mode (mode c) w) as [[token [E [_ Htok]]] | E];
    rewrite E in H; [ | discriminate ].
  exists token. split; [ exact Htok | ].
  unfold inst_write, ibwrt, bind, get, emit, say, modify, ret, halt in H.
  cbn -[mode_command] in H.
  destruct (ibwrt_ok o (n_ibwrt w) (mode_command token)); cbn -[mode_command] in H;
    [ | discriminate ].
  injection H as <-. reflexivity.
Qed.

Lemma tokens_in_order m :
  0 <= m <= 5 ->
  nth_error scpi_mode (Z.to_nat m)
  = Some (nth (Z.to_nat m) ["volt:dc"; "curr:dc"; "res"; "temp"; "cont"; "diod"] "").
Proof.
  intros Hm.
  assert (m = 0 \/ m = 1 \/ m = 2 \/ m = 3 \/ m = 4 \/ m = 5) as H by lia.
  destruct H as [-> | [-> | [-> | [-> | [-> | ->]]]]]; reflexivity.
Qed.

Lemma labels_in_order m :
  0 <= m <= 5 ->
  nth_error ylabels (Z.to_nat m)
  = Some (nth (Z.to_nat m) ["V"; "mA"; "Ohm"; "degrees C"; "Ohm"; "mV"] "").
Proof.
  intros Hm.
  assert (m = 0 \/ m = 1 \/ m = 2 \/ m = 3 \/ m = 4 \/ m = 5) as H by lia.
  destruct H as [-> | [-> | [-> | [-> | [-> | ->]]]]]; reflexivity.
Qed.

Lemma connect_Ret_mode_command o c w inst w' token :
  nth_error scpi_mode (Z.to_nat (mode c)) = Some token ->
  connect o c w = (Ret inst, w') ->
  mode_commands (added w w') = [mode_command token].
Proof.
  intros Htok H. unfold connect in H.
  apply bind_Ret in H. destruct H as [inst' [w1 [H1 H]]].
  apply bind_Ret in H. destruct H as [[] [w2 [H2 H]]].
  injection H as -> ->.
  destruct (handshake_no_mode_command o c w) as [evs [Htr Hall]].
  rewrite H1 in Htr. cbn in Htr.
  apply select_mode_Ret in H2. destruct H2 as [token' [Htok' Htr']].
  assert (token' = token) by congruence. subst token'.
  rewrite (added_app w w' (evs ++ [Ibwrt (mode_command token)])).
  - rewrite mode_commands_app, (no_mode_commands evs Hall). reflexivity.
  - now rewrite Htr', Htr, app_assoc.
Qed.

Lemma prepare_gnuplot_Ret_axes o c file w c' w' label :
  nth_error ylabels (Z.to_nat (mode c)) = Some label ->
  prepare_gnuplot o c file w = (Ret c', w') ->
  do_graph c' = true ->
  axis_commands (added w w') = [plot_axes label].
Proof.
  intros Hlab H Hg.
  unfold prepare_gnuplot, popen_w, bind, get, emit, say, modify, ret, halt in H.
  cbn in H. destruct (popen_ok o); cbn in H.
  - destruct (do_graph c) eqn:Hc; cbn in H.
    + unfold fprintf_gp, fflush_gp, bind, get, emit, say, modify, ret, halt in H.
      cbn in H.
      match type of H with
      | context [index ylabels (mode c) ?w1] =>
          destruct (index_spec ylabels (mode c) w1) as [[s [E [_ Hs]]] | E];
          rewrite E in H; [ | discriminate ]
      end.
      assert (s = label) by congruence. subst s.
      cbn in H. injection H as <- <-.
      erewrite added_app; [ | cbn; rewrite <- !app_assoc; reflexivity ].
      reflexivity.
    + injection H as <- <-. congruence.
  - injection H as <- <-. discriminate.
Qed.

(** C5, as the program has it: for every mode [m] in 0..5 the mode-select
    command sent is the template with [m]'s token in it, followed by a
    line feed, and the axis command sent to gnuplot (sent when graphing is
    on and the pipe opens) carries [m]'s label.  This holds for the
    commands of every run of the two phases, and a run of a phase that
    goes through sends exactly that one command. *)
Theorem C5_mode_command_and_axis_label (o : oracle) (c : config) (file : string)
  (w : world) :
  0 <= mode c <= 5 ->
  let token :=
    nth (Z.to_nat (mode c)) ["volt:dc"; "curr:dc"; "res"; "temp"; "cont"; "diod"] "" in
  let label :=
    nth (Z.to_nat (mode c)) ["V"; "mA"; "Ohm"; "degrees C"; "Ohm"; "mV"] "" in
  let command := ":func '" ++ token ++ "';:init; *opc" ++ LF in
  let axes :=
    "set grid xt; set grid yt; set xlabel 'min'; set ylabel '" ++ label ++ "'" ++ LF in
  (forall cmd, In cmd (mode_commands (added w (snd (connect o c w)))) -> cmd = command)
  /\ (forall inst w', connect o c w = (Ret inst, w') ->
        mode_commands (added w w') = [command])
  /\ (forall s, In s (axis_commands (added w (snd (prepare_gnuplot o c file w)))) ->
        s = axes)
  /\ (forall c' w', prepare_gnuplot o c file w = (Ret c', w') -> do_graph c' = true ->
        axis_commands (added w w') = [axes]).
Proof.
  intros Hm token label command axes.
  pose proof (tokens_in_order (mode c) Hm) as Htok.
  pose proof (labels_in_order (mode c) Hm) as Hlab.
  fold token in Htok. fold label in Hlab.
  repeat split.
  - destruct (connect_mode_command o c token Htok w) as [evs [Htr Hall]].
    rewrite (added_app _ _ _ Htr). apply (mode_commands_all _ _ Hall).
  - intros inst w' H. apply (connect_Ret_mode_command o c w inst w' token Htok H).
  - destruct (prepare_gnuplot_axis_command o c file label Hlab w) as [evs [Htr Hall]].
    rewrite (added_app _ _ _ Htr). apply (axis_commands_all _ _ Hall).
  - intros c' w' H Hg.
    apply (prepare_gnuplot_Ret_axes o c file w c' w' label Hlab H Hg).
Qed.

(** *** One round of the loop *)

(** Runs the program text in the goal as far as the values at hand allow:
    the monad, the library calls and the record updates are unfolded,
    and nothing else. *)
Ltac crunch :=
  lazy beta iota zeta delta
    [sampling sample trigger log_reading end_of_round refresh look_up_keyboard
     stopping kbhit readch inst_write
     ibwrt ibrd timeinfo time_ fprintf_outfile fflush_outfile
     fclose_outfile fprintf_gp fflush_gp pclose_gp close_keyboard init_keyboard
     bind get emit say modify ret halt log
     set_disk set_outfile set_gp set_raw_mode set_peek_character set_optind
     set_letP tick_ibwrt tick_ibrd tick_time tick_clock tick_poll tick_wait
     disk outfile gp raw_mode peek_character optind letP
     n_ibwrt n_ibrd n_time n_clock n_poll n_wait trace
     loop key added fst snd option_map negb];
  change (1 =? 0) with false; change (0 =? 0) with true;
  lazy beta iota.

Ltac crunch_in H :=
  lazy beta iota zeta delta
    [disk outfile gp raw_mode peek_character optind letP
     n_ibwrt n_ibrd n_time n_clock n_poll n_wait trace] in H.



Lemma Qltb_false x y : (y <= x)%Q -> Qltb x y = false.
Proof.
  intros H. unfold Qltb. apply negb_false_iff. now apply Qle_bool_iff.
Qed.

Lemma cut_last_run data w :
  data <> "" ->
  cut_last (substring 0 (Z.to_nat 90) data) w
  = (Ret (cstring (chop (substring 0 (Z.to_nat 90) data))), w).
Proof.
  intros H. destruct data as [ | a r ]; [ contradiction | ].
  reflexivity.
Qed.

Lemma written_app tr1 tr2 : written (tr1 ++ tr2) = (written tr1 ++ written tr2)%list.
Proof.
  induction tr1 as [ | e tr1 IH ]; [ reflexivity | ].
  destruct e; cbn; rewrite ?IH; reflexivity.
Qed.

Lemma progress_app tr1 tr2 :
  progress (tr1 ++ tr2) = (progress tr1 ++ progress tr2)%list.
Proof.
  induction tr1 as [ | e tr1 IH ]; [ reflexivity | ].
  destruct e as [ m | | | | | | | | | | | | | | | | | | | | ]; cbn; rewrite ?IH;
    try reflexivity.
  destruct m; cbn; rewrite ?IH; reflexivity.
Qed.

(** A round in which the instrument answers: the sample is logged and the
    end of the body is reached. *)
Lemma sample_round o c file t0 l w d data :
  outfile w = Some d ->
  (do_graph c = true -> gp w = true) ->
  do_flush c mod two64 <> 0 ->
  peek_character w = -1 ->
  ibwrt_ok o (n_ibwrt w) ":read?" = true ->
  ibrd_data o (n_ibrd w) = Some data ->
  data <> "" ->
  let t1 := elapsed t0 (clock o (n_clock w)) in
  let reading := reading_of (substring 0 (Z.to_nat 90) data) in
  let loop' := (loop l + 1) mod two64 in
  let key' := if Qltb (tstop c) t1 && Qltb 0 (tstop c) then ESC else key l in
  exists w' evs,
    sample o c file t0 l w
    = (Ret (AtEnd {| loop := loop'; key := key_after o w key' |}), w')
    /\ trace w' = (trace w ++ evs)%list
    /\ outfile w' = Some (d ++ data_line t1 reading)
    /\ gp w' = gp w
    /\ peek_character w' = -1
    /\ n_ibwrt w' = S (n_ibwrt w)
    /\ n_ibrd w' = S (n_ibrd w)
    /\ n_clock w' = S (n_clock w)
    /\ n_poll w' = S (n_poll w)
    /\ written evs = [data_line t1 reading]
    /\ progress evs = [(loop', t1)]
    /\ ((forall ch, tty_poll o (n_poll w) = Some ch -> schar ch <> -1) ->
        ~ In WaitTty evs)
    /\ (delay c = 0 -> forall us, ~ In (Usleep us) evs).
Proof.
  intros Hout Hgp Hflush Hpeek Hsend Hread Hdata t1 reading loop' key'.
  unfold key_after.
  destruct w as [wdisk wout wgp wraw wpeek woptind wletP nwrt nrd ntime nclock npoll nwait wtrace]. crunch_in Hout. crunch_in Hgp. crunch_in Hpeek. crunch_in Hsend.
  crunch_in Hread. subst.
  subst t1 reading loop' key'. unfold reading_of.
  apply Z.eqb_neq in Hflush.
  crunch.
  destruct (Z.ltb_spec 0 (delay c)) as [Hdelay | Hdelay]; crunch;
    rewrite Hsend; crunch; rewrite Hread; crunch;
    rewrite (cut_last_run _ _ Hdata); crunch; rewrite Hflush; crunch.
  all: match goal with
       | |- context [if ?b =? 0 then _ else _] => destruct (b =? 0)
       end; crunch.
  all: try (destruct (do_graph c); [ rewrite (Hgp eq_refl) | ]; crunch).
  all: change (-1 =? -1) with true; crunch.
  all: destruct (tty_poll o npoll) as [ch | ]; crunch.
  all: try (destruct (schar ch =? -1) eqn:Hch; crunch;
            [ apply Z.eqb_eq in Hch; rewrite ?Hch; change (-1 =? -1) with true
            | rewrite ?Hch ]; crunch).
  all: eexists; eexists; split; [ reflexivity | ]; crunch.
  all: split; [ rewrite <- ?app_assoc; reflexivity | ].
  all: repeat (split; [ reflexivity | ]).
  all: split;
         [ intros Hno Hin;
           first [ exfalso; exact (Hno _ eq_refl Hch)
                 | cbn in Hin; intuition discriminate ] | ].
  all: intros Hd us Hin; try lia; cbn in Hin; intuition discriminate.
Qed.

Lemma sampling_step o fuel c file t0 l w l' w' :
  sample o c file t0 l w = (Ret (AtEnd l'), w') ->
  sampling o (S fuel) c file t0 l w
  = if stop_key (key l') then (Ret l', w') else sampling o fuel c file t0 l' w'.
Proof.
  intros H. cbn [sampling]. unfold bind. rewrite H.
  destruct (stop_key (key l')); reflexivity.
Qed.


(** *** The time limit *)

Lemma In_app_not {A} (x : A) l1 l2 : ~ In x l1 -> ~ In x l2 -> ~ In x (l1 ++ l2).
Proof. intros H1 H2 H. apply in_app_or in H. tauto. Qed.


(** ** Writing a number and reading it back *)

Lemma digit_char_code d : 0 <= d <= 9 -> uchar (digit_char d) = 48 + d.
Proof.
  intros H.
  assert (d = 0 \/ d = 1 \/ d = 2 \/ d = 3 \/ d = 4 \/ d = 5 \/ d = 6 \/ d = 7
          \/ d = 8 \/ d = 9) as E by lia.
  destruct E as [-> | [-> | [-> | [-> | [-> | [-> | [-> | [-> | [-> | ->]]]]]]]]];
    reflexivity.
Qed.

Lemma digit_char_isdigit d : 0 <= d <= 9 -> isdigit (digit_char d) = true.
Proof.
  intros H. unfold isdigit. rewrite (digit_char_code d H).
  apply andb_true_iff. split; apply Z.leb_le; lia.
Qed.

Lemma digits_value_snoc ds d : digits_value (ds ++ [d]) = 10 * digits_value ds + d.
Proof. unfold digits_value. now rewrite fold_left_app. Qed.

Lemma digits_of_spec fuel :
  forall n, 0 <= n < 10 ^ Z.of_nat (S fuel) ->
    digits_value (digits_of (S fuel) n) = n
    /\ Forall is_digit (digits_of (S fuel) n)
    /\ digits_of (S fuel) n <> [].
Proof.
  induction fuel as [ | fuel IH ]; intros n Hn.
  - change (10 ^ Z.of_nat 1) with 10 in Hn. cbn [digits_of].
    destruct (Z.ltb_spec n 10) as [Hlt | Hge]; [ | lia ].
    split; [ cbn; lia | ].
    split; [ | discriminate ].
    constructor; [ unfold is_digit; lia | constructor ].
  - remember (S fuel) as f eqn:Ef. cbn [digits_of].
    destruct (Z.ltb_spec n 10) as [Hlt | Hge].
    + split; [ cbn; lia | ].
      split; [ | discriminate ].
      constructor; [ unfold is_digit; lia | constructor ].
    + assert (0 <= n / 10 < 10 ^ Z.of_nat f) as Hq.
      { split; [ apply Z.div_pos; lia | ].
        apply Z.div_lt_upper_bound; [ lia | ].
        rewrite Nat2Z.inj_succ, Z.pow_succ_r in Hn; lia. }
      destruct (IH _ Hq) as (Hval & Hall & _).
      split; [ | split ].
      * rewrite digits_value_snoc, Hval. pose proof (Z.div_mod n 10). lia.
      * apply Forall_app. split; [ exact Hall | ].
        constructor; [ | constructor ].
        unfold is_digit. pose proof (Z.mod_pos_bound n 10). lia.
      * intros E. apply app_eq_nil in E. destruct E as [_ E]. discriminate.
Qed.

Lemma decimal_fuel n : 0 <= n -> n < 10 ^ Z.of_nat (S (Z.to_nat (Z.log2 n))).
Proof.
  intros Hn. rewrite Nat2Z.inj_succ, Z2Nat.id by apply Z.log2_nonneg.
  destruct (Z.eq_dec n 0) as [-> | Hpos]; [ reflexivity | ].
  assert (0 < n) as Hp by lia.
  pose proof (Z.log2_spec n Hp) as [_ Hup].
  eapply Z.lt_le_trans; [ exact Hup | ].
  apply Z.pow_le_mono_l. lia.
Qed.

Lemma string_all_app p s1 s2 :
  string_all p (s1 ++ s2) = string_all p s1 && string_all p s2.
Proof.
  induction s1 as [ | c s1 IH ]; [ reflexivity | ].
  cbn. now rewrite IH, andb_assoc.
Qed.

Lemma show_digits_cons d ds :
  show_digits (d :: ds) = String (digit_char d) (show_digits ds).
Proof. reflexivity. Qed.

Lemma show_digits_all ds : Forall is_digit ds -> string_all isdigit (show_digits ds) = true.
Proof.
  induction 1 as [ | d ds Hd _ IH ]; [ reflexivity | ].
  rewrite show_digits_cons. cbn [string_all].
  now rewrite (digit_char_isdigit d Hd), IH.
Qed.

Lemma span_show_digits ds rest :
  Forall is_digit ds -> ends_digits rest ->
  span_digits (show_digits ds ++ rest) = (ds, rest).
Proof.
  intros Hall Hrest. induction Hall as [ | d ds Hd _ IH ].
  - cbn. destruct rest as [ | c r ]; [ reflexivity | ].
    cbn in *. now rewrite Hrest.
  - rewrite show_digits_cons. cbn [String.append span_digits].
    rewrite (digit_char_isdigit d Hd), IH, (digit_char_code d Hd).
    f_equal. f_equal. lia.
Qed.

Lemma digits4_spec k :
  0 <= k < 10000 ->
  let ds := [k / 1000 mod 10; k / 100 mod 10; k / 10 mod 10; k mod 10] in
  Forall is_digit ds /\ digits_value ds = k.
Proof.
  intros Hk ds. split.
  - subst ds.
    assert (forall x, is_digit (x mod 10)) as Hmod.
    { intros x. unfold is_digit. pose proof (Z.mod_pos_bound x 10). lia. }
    constructor; [ apply Hmod | ]. constructor; [ apply Hmod | ].
    constructor; [ apply Hmod | ]. constructor; [ apply Hmod | ]. constructor.
  - subst ds. unfold digits_value. cbn [fold_left].
    pose proof (Z.div_mod k 10). pose proof (Z.div_mod (k / 10) 10).
    pose proof (Z.div_mod (k / 100) 10).
    assert (k / 10 / 10 = k / 100) by (rewrite Z.div_div by lia; reflexivity).
    assert (k / 100 / 10 = k / 1000) by (rewrite Z.div_div by lia; reflexivity).
    assert (k / 1000 mod 10 = k / 1000).
    { apply Z.mod_small. split; [ apply Z.div_pos; lia | ].
      apply Z.div_lt_upper_bound; lia. }
    lia.
Qed.

(** The sign of what "%.4f" prints. *)
Lemma round_half_even_sign n d :
  0 < d ->
  (0 <= n -> 0 <= round_half_even n d) /\ (n < 0 -> round_half_even n d <= 0).
Proof.
  intros Hd. unfold round_half_even.
  pose proof (Z.div_mod n d). pose proof (Z.mod_pos_bound n d Hd).
  split; intros Hn.
  - assert (0 <= n / d) by (apply Z.div_pos; lia).
    destruct (2 * (n mod d) <? d), (d <? 2 * (n mod d)), (Z.even (n / d)); lia.
  - assert (n / d < 0) by (apply Z.div_lt_upper_bound; lia).
    destruct (2 * (n mod d) <? d), (d <? 2 * (n mod d)), (Z.even (n / d)); lia.
Qed.

Lemma round_half_even_mono a b d :
  0 < d -> a <= b -> round_half_even a d <= round_half_even b d.
Proof.
  intros Hd Hab. unfold round_half_even.
  pose proof (Z.div_mod a d). pose proof (Z.mod_pos_bound a d Hd).
  pose proof (Z.div_mod b d). pose proof (Z.mod_pos_bound b d Hd).
  assert (a / d <= b / d) as Hq by (apply Z.div_le_mono; lia).
  destruct (Z.eq_dec (a / d) (b / d)) as [E | E].
  - rewrite E in *. assert (a mod d <= b mod d) by lia.
    destruct (Z.ltb_spec (2 * (a mod d)) d), (Z.ltb_spec d (2 * (a mod d))),
      (Z.ltb_spec (2 * (b mod d)) d), (Z.ltb_spec d (2 * (b mod d))),
      (Z.even (b / d)); lia.
  - destruct (2 * (a mod d) <? d), (d <? 2 * (a mod d)), (Z.even (a / d)),
      (2 * (b mod d) <? d), (d <? 2 * (b mod d)), (Z.even (b / d)); lia.
Qed.

(** *** Rounding to the nearest integer *)

Lemma round_half_even_scale n d k :
  0 < d -> 0 < k -> round_half_even (n * k) (d * k) = round_half_even n d.
Proof.
  intros Hd Hk. unfold round_half_even.
  rewrite Z.div_mul_cancel_r by lia.
  rewrite Z.mul_mod_distr_r by lia.
  destruct (Z.ltb_spec (2 * (n mod d)) d), (Z.ltb_spec (2 * (n mod d * k)) (d * k));
    try nia; try reflexivity.
  destruct (Z.ltb_spec d (2 * (n mod d))), (Z.ltb_spec (d * k) (2 * (n mod d * k)));
    try nia; reflexivity.
Qed.

Lemma round_half_even_exact k d : 0 < d -> round_half_even (k * d) d = k.
Proof.
  intros Hd. unfold round_half_even.
  rewrite Z.div_mul, Z.mod_mul by lia.
  destruct (Z.ltb_spec (2 * 0) d); [ reflexivity | lia ].
Qed.

Lemma round_half_even_opp n d :
  0 < d -> round_half_even (- n) d = - round_half_even n d.
Proof.
  intros Hd. unfold round_half_even.
  pose proof (Z.mod_pos_bound n d Hd) as Hr.
  destruct (Z.eq_dec (n mod d) 0) as [E | E].
  - rewrite (Z.div_opp_l_z n d) by lia. rewrite (Z.mod_opp_l_z n d) by lia.
    rewrite E.
    destruct (Z.ltb_spec (2 * 0) d); [ reflexivity | lia ].
  - rewrite (Z.div_opp_l_nz n d) by lia. rewrite (Z.mod_opp_l_nz n d) by lia.
    replace (- (n / d) - 1) with (- (n / d + 1)) by lia.
    rewrite Z.even_opp, Z.even_add. change (Z.even 1) with false.
    destruct (Z.ltb_spec (2 * (n mod d)) d), (Z.ltb_spec d (2 * (n mod d))),
      (Z.ltb_spec (2 * (d - n mod d)) d), (Z.ltb_spec d (2 * (d - n mod d)));
      try lia.
    destruct (Z.even (n / d)); cbn; lia.
Qed.

Lemma nearest_even_le x y : (x <= y)%Q -> nearest_even x <= nearest_even y.
Proof.
  unfold Qle, nearest_even. intros H.
  destruct x as [n1 d1], y as [n2 d2]. cbn [Qnum Qden] in *.
  rewrite <- (round_half_even_scale n1 (Zpos d1) (Zpos d2)) by lia.
  rewrite <- (round_half_even_scale n2 (Zpos d2) (Zpos d1)) by lia.
  rewrite (Z.mul_comm (Zpos d2) (Zpos d1)).
  apply round_half_even_mono; lia.
Qed.

Lemma nearest_even_comp x y : (x == y)%Q -> nearest_even x = nearest_even y.
Proof.
  intros H. apply Z.le_antisymm; apply nearest_even_le; rewrite H; apply Qle_refl.
Qed.

Lemma nearest_even_inject k : nearest_even (inject_Z k) = k.
Proof.
  unfold nearest_even, inject_Z. cbn [Qnum Qden].
  rewrite <- (Z.mul_1_r k) at 1. apply round_half_even_exact. lia.
Qed.

Lemma nearest_even_opp x : nearest_even (- x) = - nearest_even x.
Proof. destruct x as [n d]. apply round_half_even_opp. lia. Qed.

(** *** Powers of two *)

Lemma two_pow_pos e : (0 < 2 ^ e)%Q.
Proof. apply Qpower_0_lt. reflexivity. Qed.

Lemma inject_two_pow e : 0 <= e -> (inject_Z (2 ^ e) == 2 ^ e)%Q.
Proof. intros He. apply (Zpower_Qpower 2 e He). Qed.

Lemma two_pow_add a b : (2 ^ (a + b) == 2 ^ a * 2 ^ b)%Q.
Proof. apply Qpower_plus. discriminate. Qed.

Lemma two_pow_le a b : a <= b -> (2 ^ a <= 2 ^ b)%Q.
Proof. intros H. apply Qpower_le_compat_l; [ exact H | discriminate ]. Qed.

Lemma floor_log2_spec q :
  (0 < q)%Q -> (2 ^ floor_log2 q <= q)%Q /\ (q < 2 ^ (floor_log2 q + 1))%Q.
Proof.
  destruct q as [n d]. intros Hn.
  unfold Qlt in Hn. cbn [Qnum Qden] in Hn. rewrite Z.mul_1_r in Hn.
  unfold floor_log2. cbn [Qnum Qden].
  destruct (Z.leb_spec (Zpos d) n) as [Hdn | Hdn].
  - assert (0 < n / Zpos d) as Hq by (apply Z.div_str_pos; lia).
    pose proof (Z.log2_spec _ Hq) as [Hlo Hhi].
    pose proof (Z.log2_nonneg (n / Zpos d)) as He.
    pose proof (Z.div_mod n (Zpos d) ltac:(lia)) as Hdm.
    pose proof (Z.mod_pos_bound n (Zpos d) ltac:(lia)) as Hr.
    rewrite <- Z.add_1_r in Hhi.
    set (E := Z.log2 (n / Zpos d)) in *.
    split.
    + rewrite <- (inject_two_pow E) by lia.
      unfold Qle, inject_Z. cbn [Qnum Qden]. nia.
    + pose proof (inject_two_pow (E + 1) ltac:(lia)) as Hp.
      apply Qlt_le_trans with (inject_Z (2 ^ (E + 1)));
        [ | rewrite Hp; apply Qle_refl ].
      unfold Qlt, inject_Z. cbn [Qnum Qden]. nia.
  - set (a := (Zpos d + n - 1) / n).
    assert (a = (Zpos d - 1) / n + 1) as Ha.
    { unfold a. replace (Zpos d + n - 1) with (Zpos d - 1 + 1 * n) by lia.
      apply Z.div_add. lia. }
    pose proof (Z.div_mod (Zpos d - 1) n ltac:(lia)) as Hdm.
    pose proof (Z.mod_pos_bound (Zpos d - 1) n ltac:(lia)) as Hr.
    assert (1 <= (Zpos d - 1) / n) as Hq1.
    { apply Z.div_le_lower_bound; lia. }
    assert (1 < a) as Ha1 by lia.
    pose proof (Z.log2_up_spec _ Ha1) as [Hlo Hhi].
    assert (0 < Z.log2_up a) as Hk by (apply Z.log2_up_pos; lia).
    set (k := Z.log2_up a) in *.
    split.
    + rewrite Qpower_opp. apply Qle_shift_inv_r; [ apply two_pow_pos | ].
      rewrite <- (inject_two_pow k) by lia.
      unfold Qle, Qmult, inject_Z. cbn [Qnum Qden]. nia.
    + replace (- k + 1) with (- (k - 1)) by lia.
      pose proof (inject_two_pow (k - 1) ltac:(lia)) as Hp.
      rewrite Qpower_opp. apply Qlt_shift_inv_l; [ apply two_pow_pos | ].
      apply Qle_lt_trans with ((n # d) * inject_Z (2 ^ (k - 1)))%Q;
        [ rewrite Hp; apply Qle_refl | ].
      replace (Z.pred k) with (k - 1) in Hlo by lia.
      unfold Qlt, Qmult, inject_Z. cbn [Qnum Qden]. nia.
Qed.

Lemma floor_log2_le x y : (0 < x)%Q -> (x <= y)%Q -> floor_log2 x <= floor_log2 y.
Proof.
  intros Hx Hxy.
  assert (0 < y)%Q as Hy by (eapply Qlt_le_trans; eauto).
  destruct (floor_log2_spec x Hx) as [Hlo _].
  destruct (floor_log2_spec y Hy) as [_ Hhi].
  destruct (Z.le_gt_cases (floor_log2 x) (floor_log2 y)) as [H | H]; [ exact H | ].
  exfalso.
  assert (2 ^ (floor_log2 y + 1) <= 2 ^ floor_log2 x)%Q as Hp
    by (apply two_pow_le; lia).
  apply (Qlt_irrefl y).
  eapply Qlt_le_trans; [ exact Hhi | ].
  eapply Qle_trans; [ exact Hp | ]. eapply Qle_trans; eauto.
Qed.

(** *** Rounding to a quantum *)

Lemma round_to_quantum_le e x y :
  (x <= y)%Q -> (round_to_quantum e x <= round_to_quantum e y)%Q.
Proof.
  intros H. unfold round_to_quantum.
  apply Qmult_le_compat_r; [ | apply Qlt_le_weak, two_pow_pos ].
  rewrite <- Zle_Qle. apply nearest_even_le.
  apply Qmult_le_compat_r; [ exact H | apply Qlt_le_weak, two_pow_pos ].
Qed.

Lemma round_to_quantum_two_pow e E :
  e <= E -> (round_to_quantum e (2 ^ E) == 2 ^ E)%Q.
Proof.
  intros H. unfold round_to_quantum.
  assert (2 ^ E * 2 ^ (- e) == inject_Z (2 ^ (E - e)))%Q as Hs.
  { rewrite inject_two_pow by lia. rewrite <- two_pow_add.
    replace (E + - e) with (E - e) by lia. reflexivity. }
  rewrite (nearest_even_comp _ _ Hs), nearest_even_inject.
  rewrite inject_two_pow by lia. rewrite <- two_pow_add.
  replace (E - e + e) with E by lia. reflexivity.
Qed.

Lemma round_to_quantum_opp e x :
  (round_to_quantum e (- x) == - round_to_quantum e x)%Q.
Proof.
  unfold round_to_quantum.
  assert (- x * 2 ^ (- e) == - (x * 2 ^ (- e)))%Q as Hs by ring.
  rewrite (nearest_even_comp _ _ Hs), nearest_even_opp.
  rewrite inject_Z_opp. ring.
Qed.

Lemma round_to_quantum_nonneg e x :
  (0 <= x)%Q -> (0 <= round_to_quantum e x)%Q.
Proof.
  intros H. unfold round_to_quantum.
  apply Qmult_le_0_compat; [ | apply Qlt_le_weak, two_pow_pos ].
  change 0%Q with (inject_Z 0). rewrite <- Zle_Qle.
  rewrite <- (nearest_even_inject 0). apply nearest_even_le.
  change (inject_Z 0) with 0%Q.
  apply Qmult_le_0_compat; [ exact H | apply Qlt_le_weak, two_pow_pos ].
Qed.

(** *** Rounding to a binary format *)

Section Rounding.

Variables prec emin : Z.
Hypothesis prec_pos : 0 < prec.

Lemma Qnum_pos q : (0 < q)%Q -> 0 < Qnum q.
Proof. unfold Qlt. cbn. lia. Qed.

Lemma round_binary_pos q :
  (0 < q)%Q ->
  round_binary prec emin q
  = round_to_quantum (Z.max emin (floor_log2 (Qabs q) - prec + 1)) q.
Proof.
  intros H. apply Qnum_pos in H. unfold round_binary.
  destruct (Z.eqb_spec (Qnum q) 0); [ lia | reflexivity ].
Qed.

Lemma Qabs_pos_eq q : (0 < q)%Q -> Qabs q = q.
Proof.
  intros H. apply Qnum_pos in H. destruct q as [n d]. cbn in *.
  now rewrite Z.abs_eq by lia.
Qed.

Lemma round_binary_le_pos x y :
  (0 < x)%Q -> (x <= y)%Q ->
  (round_binary prec emin x <= round_binary prec emin y)%Q.
Proof.
  intros Hx Hxy.
  assert (0 < y)%Q as Hy by (eapply Qlt_le_trans; eauto).
  rewrite (round_binary_pos x Hx), (round_binary_pos y Hy).
  rewrite (Qabs_pos_eq x Hx), (Qabs_pos_eq y Hy).
  pose proof (floor_log2_le x y Hx Hxy) as Hfl.
  set (ex := floor_log2 x) in *. set (ey := floor_log2 y) in *.
  destruct (Z.eq_dec (Z.max emin (ex - prec + 1)) (Z.max emin (ey - prec + 1)))
    as [E | E].
  - rewrite E. now apply round_to_quantum_le.
  - assert (ex < ey) as Hlt by lia.
    destruct (floor_log2_spec x Hx) as [_ Hxhi]. fold ex in Hxhi.
    destruct (floor_log2_spec y Hy) as [Hylo _]. fold ey in Hylo.
    assert (x <= 2 ^ ey)%Q as Hxp.
    { apply Qlt_le_weak. eapply Qlt_le_trans; [ exact Hxhi | ].
      apply two_pow_le. lia. }
    apply Qle_trans with (2 ^ ey)%Q.
    + rewrite <- (round_to_quantum_two_pow (Z.max emin (ex - prec + 1)) ey) by lia.
      now apply round_to_quantum_le.
    + rewrite <- (round_to_quantum_two_pow (Z.max emin (ey - prec + 1)) ey) at 1 by lia.
      now apply round_to_quantum_le.
Qed.

Lemma round_binary_zero q : (q == 0)%Q -> round_binary prec emin q = 0%Q.
Proof.
  unfold Qeq. cbn. rewrite Z.mul_1_r. intros H. unfold round_binary.
  rewrite H. reflexivity.
Qed.

Lemma round_binary_opp q :
  (round_binary prec emin (- q) == - round_binary prec emin q)%Q.
Proof.
  unfold round_binary. destruct q as [n d]. cbn [Qopp Qnum Qden Qabs].
  destruct (Z.eqb_spec n 0) as [-> | Hn].
  - reflexivity.
  - destruct (Z.eqb_spec (- n) 0); [ lia | ].
    rewrite Z.abs_opp.
    apply (round_to_quantum_opp _ (n # d)).
Qed.

Lemma round_binary_nonneg q :
  (0 <= q)%Q -> (0 <= round_binary prec emin q)%Q.
Proof.
  intros H. unfold round_binary.
  destruct (Qnum q =? 0); [ apply Qle_refl | ].
  now apply round_to_quantum_nonneg.
Qed.

Lemma round_binary_nonpos q :
  (q <= 0)%Q -> (round_binary prec emin q <= 0)%Q.
Proof.
  intros H.
  assert (0 <= - q)%Q as Hn.
  { apply Qopp_le_compat in H. exact H. }
  apply round_binary_nonneg in Hn. rewrite round_binary_opp in Hn.
  apply Qopp_le_compat in Hn. rewrite Qopp_involutive in Hn. exact Hn.
Qed.

(** Rounding keeps the order. *)
Lemma round_binary_le x y :
  (x <= y)%Q -> (round_binary prec emin x <= round_binary prec emin y)%Q.
Proof.
  intros H.
  destruct (Qlt_le_dec 0 x) as [Hx | Hx].
  - now apply round_binary_le_pos.
  - destruct (Qlt_le_dec y 0) as [Hy | Hy].
    + assert (0 < - y)%Q as Hy'.
      { apply Qopp_lt_compat in Hy. exact Hy. }
      assert (- y <= - x)%Q as H' by now apply Qopp_le_compat.
      pose proof (round_binary_le_pos _ _ Hy' H') as Hr.
      rewrite !round_binary_opp in Hr. apply Qopp_le_compat in Hr.
      now rewrite !Qopp_involutive in Hr.
    + apply Qle_trans with 0%Q;
        [ now apply round_binary_nonpos | now apply round_binary_nonneg ].
Qed.

Lemma round_binary_comp x y :
  (x == y)%Q -> (round_binary prec emin x == round_binary prec emin y)%Q.
Proof.
  intros H. apply Qle_antisym; apply round_binary_le; rewrite H; apply Qle_refl.
Qed.

End Rounding.

Lemma floor_log2_integer k : 0 < k -> floor_log2 (inject_Z k) = Z.log2 k.
Proof.
  intros Hk. unfold floor_log2, inject_Z. cbn [Qnum Qden].
  destruct (Z.leb_spec 1 k); [ | lia ]. now rewrite Z.div_1_r.
Qed.

Lemma round_to_quantum_integer e k :
  e <= 0 -> (round_to_quantum e (inject_Z k) == inject_Z k)%Q.
Proof.
  intros He. unfold round_to_quantum.
  assert (inject_Z k * 2 ^ (- e) == inject_Z (k * 2 ^ (- e)))%Q as Hint.
  { rewrite inject_Z_mult. rewrite inject_two_pow by lia. reflexivity. }
  rewrite (nearest_even_comp _ _ Hint), nearest_even_inject.
  rewrite inject_Z_mult, inject_two_pow by lia.
  rewrite <- Qmult_assoc, <- two_pow_add.
  replace (- e + e) with 0 by lia. apply Qmult_1_r.
Qed.

(** An integer of fewer than [prec] bits is a number of the format. *)
Lemma round_binary_integer prec emin k :
  0 < prec -> emin <= 0 -> 0 <= k < 2 ^ prec ->
  (round_binary prec emin (inject_Z k) == inject_Z k)%Q.
Proof.
  intros Hprec Hemin Hk.
  destruct (Z.eq_dec k 0) as [-> | Hnz]; [ reflexivity | ].
  assert (0 < inject_Z k)%Q as Hpos by (unfold Qlt; cbn; lia).
  rewrite (round_binary_pos prec emin _ Hpos), (Qabs_pos_eq _ Hpos).
  rewrite floor_log2_integer by lia.
  apply round_to_quantum_integer.
  assert (Z.log2 k < prec) by (apply Z.log2_lt_pow2; lia).
  lia.
Qed.

Lemma double_le x y : (x <= y)%Q -> (double x <= double y)%Q.
Proof. apply round_binary_le. reflexivity. Qed.

(** The elapsed minutes follow the time as [timeinfo] returns it. *)
Lemma elapsed_le t0 a b :
  (seconds a <= seconds b)%Q -> (elapsed t0 a <= elapsed t0 b)%Q.
Proof.
  intros H. unfold elapsed. apply double_le.
  unfold Qdiv. apply Qmult_le_compat_r; [ | discriminate ].
  apply double_le. unfold Qminus. apply Qplus_le_compat; [ exact H | apply Qle_refl ].
Qed.

Lemma fraction_le u v :
  u <= v ->
  (double (double (inject_Z u) / 1000000) <= double (double (inject_Z v) / 1000000))%Q.
Proof.
  intros H. apply double_le. unfold Qdiv.
  apply Qmult_le_compat_r; [ | discriminate ].
  apply double_le. now rewrite <- Zle_Qle.
Qed.

(** While the clock does not go back, neither does the time [timeinfo]
    makes of it (for the times a [double] tells apart to the second). *)
Lemma seconds_le a b :
  0 <= a <= b -> b < 2 ^ 53 * 1000000 -> (seconds a <= seconds b)%Q.
Proof.
  intros Hab Hb. unfold seconds.
  pose proof (Z.div_mod a 1000000 ltac:(lia)) as Ha1.
  pose proof (Z.mod_pos_bound a 1000000 ltac:(lia)) as Ha2.
  pose proof (Z.div_mod b 1000000 ltac:(lia)) as Hb1.
  pose proof (Z.mod_pos_bound b 1000000 ltac:(lia)) as Hb2.
  assert (a / 1000000 <= b / 1000000) as Hdiv by (apply Z.div_le_mono; lia).
  assert (0 <= a / 1000000) as Hsa by (apply Z.div_pos; lia).
  assert (b / 1000000 < 2 ^ 53) as Hsb by (apply Z.div_lt_upper_bound; lia).
  apply double_le.
  destruct (Z.eq_dec (a / 1000000) (b / 1000000)) as [E | E].
  - rewrite E. apply Qplus_le_compat; [ apply Qle_refl | ].
    apply fraction_le. lia.
  - assert (double (inject_Z (a / 1000000)) == inject_Z (a / 1000000))%Q as Ea
      by (apply round_binary_integer; lia).
    assert (double (inject_Z (b / 1000000)) == inject_Z (b / 1000000))%Q as Eb
      by (apply round_binary_integer; lia).
    rewrite Ea, Eb.
    apply Qle_trans with (inject_Z (a / 1000000) + 1)%Q.
    + apply Qplus_le_compat; [ apply Qle_refl | ].
      apply Qle_trans with (double (double (inject_Z 999999) / 1000000)).
      * apply fraction_le. lia.
      * vm_compute. discriminate.
    + apply Qle_trans with (inject_Z (b / 1000000) + 0)%Q.
      * rewrite Qplus_0_r. change 1%Q with (inject_Z 1).
        rewrite <- inject_Z_plus, <- Zle_Qle. lia.
      * apply Qplus_le_compat; [ apply Qle_refl | ].
        apply Qle_trans with (double (double (inject_Z 0) / 1000000)).
        -- vm_compute. discriminate.
        -- apply fraction_le. lia.
Qed.

(** What "%.4f" prints follows the number printed. *)
Lemma round4_le x y : (x <= y)%Q -> round4 x <= round4 y.
Proof.
  unfold Qle, round4. intros H.
  destruct x as [n1 d1], y as [n2 d2]. cbn [Qnum Qden] in *.
  rewrite <- (round_half_even_scale (n1 * 10000) (Zpos d1) (Zpos d2)) by lia.
  rewrite <- (round_half_even_scale (n2 * 10000) (Zpos d2) (Zpos d1)) by lia.
  rewrite (Z.mul_comm (Zpos d2) (Zpos d1)).
  apply round_half_even_mono; lia.
Qed.


Lemma string_all_impl (p q : ascii -> bool) s :
  (forall c, p c = true -> q c = true) ->
  string_all p s = true -> string_all q s = true.
Proof.
  intros Hpq. induction s as [ | c s IH ]; [ reflexivity | ].
  cbn. intros H. apply andb_true_iff in H. destruct H as [Hc Hs].
  now rewrite (Hpq c Hc), (IH Hs).
Qed.

Lemma isdigit_not_tab c : isdigit c = true -> not_tab c = true.
Proof.
  unfold isdigit, not_tab. intros H. apply andb_true_iff in H.
  destruct H as [H _]. apply Z.leb_le in H.
  apply negb_true_iff. apply Z.eqb_neq. lia.
Qed.

Lemma split_tab_app s r :
  string_all not_tab s = true -> split_tab (s ++ TAB ++ r) = Some (s, r).
Proof.
  induction s as [ | c s IH ]; intros H.
  - reflexivity.
  - cbn in H. apply andb_true_iff in H. destruct H as [Hc Hs].
    cbn [String.append split_tab]. unfold not_tab in Hc.
    apply negb_true_iff in Hc. rewrite Hc, (IH Hs). reflexivity.
Qed.

Lemma split_lines_line s rest :
  string_all not_lf s = true -> split_lines (s ++ LF ++ rest) = s :: split_lines rest.
Proof.
  induction s as [ | c s IH ]; intros H.
  - reflexivity.
  - cbn in H. apply andb_true_iff in H. destruct H as [Hc Hs].
    cbn [String.append split_lines]. unfold not_lf in Hc.
    apply negb_true_iff in Hc. rewrite Hc.
    change (s ++ String (ascii_of_nat 10) rest) with (s ++ LF ++ rest).
    rewrite (IH Hs). reflexivity.
Qed.

Lemma split_lines_not_nil s : split_lines (s ++ LF) <> [].
Proof.
  induction s as [ | c s IH ]; [ discriminate | ].
  cbn [String.append split_lines].
  destruct (uchar c =? 10); [ discriminate | ].
  destruct (split_lines (s ++ LF)); [ contradiction | discriminate ].
Qed.

(** The lines of a text that goes on after a line feed. *)
Lemma split_lines_app s rest :
  split_lines ((s ++ LF) ++ rest) = (split_lines (s ++ LF) ++ split_lines rest)%list.
Proof.
  induction s as [ | c s IH ]; [ reflexivity | ].
  cbn [String.append split_lines].
  destruct (uchar c =? 10).
  - cbn [app]. f_equal. exact IH.
  - rewrite IH. pose proof (split_lines_not_nil s) as Hne.
    destruct (split_lines (s ++ LF)); [ contradiction | reflexivity ].
Qed.

Lemma isdigit_not_lf c : isdigit c = true -> not_lf c = true.
Proof.
  unfold isdigit, not_lf. intros H. apply andb_true_iff in H.
  destruct H as [H _]. apply Z.leb_le in H.
  apply negb_true_iff. apply Z.eqb_neq. lia.
Qed.

Lemma span_show_digits_end ds :
  Forall is_digit ds -> span_digits (show_digits ds) = (ds, "").
Proof.
  intros H. pose proof (span_show_digits ds "" H I) as E.
  revert E. clear H. generalize (show_digits ds). intros s.
  replace (s ++ "") with s; [ auto | ].
  induction s as [ | c s IH ]; [ reflexivity | ]. cbn. now rewrite <- IH.
Qed.

Lemma digit_not_minus c r :
  isdigit c = true ->
  parse_fixed (String c r) = parse_magnitude false (String c r).
Proof.
  destruct c as [[] [] [] [] [] [] [] []]; intros H; try reflexivity;
    vm_compute in H; discriminate H.
Qed.

Lemma decimal_spec n :
  0 <= n ->
  exists d ds,
    decimal n = show_digits (d :: ds)
    /\ Forall is_digit (d :: ds)
    /\ digits_value (d :: ds) = n.
Proof.
  intros Hn. unfold decimal.
  destruct (digits_of_spec (Z.to_nat (Z.log2 n)) n) as (Hval & Hall & Hne).
  { split; [ exact Hn | apply (decimal_fuel n Hn) ]. }
  destruct (digits_of (S (Z.to_nat (Z.log2 n))) n) as [ | d ds ]; [ contradiction | ].
  now exists d, ds.
Qed.

Lemma round4_sign q :
  (0 <= Qnum q -> 0 <= round4 q) /\ (Qnum q < 0 -> round4 q <= 0).
Proof.
  unfold round4.
  destruct (round_half_even_sign (Qnum q * 10000) (Zpos (Qden q))) as [Hp Hn];
    [ reflexivity | ].
  split; intros H; [ apply Hp | apply Hn ]; lia.
Qed.

(** What "%.4f" prints reads back as the number of ten-thousandths it was
    rounded to. *)
Lemma parse_fixed_fmt_f4 q : parse_fixed (fmt_f4 q) = Some (Qmake (round4 q) 10000).
Proof.
  unfold fmt_f4.
  set (a := Z.abs (round4 q)).
  assert (0 <= a) as Ha by apply Z.abs_nonneg.
  assert (0 <= a / 10000) as Hip by (apply Z.div_pos; lia).
  assert (0 <= a mod 10000 < 10000) as Hfp by (apply Z.mod_pos_bound; lia).
  destruct (decimal_spec _ Hip) as (d & ds & Hdec & Hall & Hval).
  destruct (digits4_spec _ Hfp) as [Hall4 Hval4].
  assert (isdigit (digit_char d) = true) as Hd.
  { apply digit_char_isdigit. now inversion Hall. }
  unfold digits4. rewrite Hdec.
  assert (forall neg : bool,
    parse_magnitude neg
      (show_digits (d :: ds) ++ "."
       ++ show_digits [a mod 10000 / 1000 mod 10; a mod 10000 / 100 mod 10;
                       a mod 10000 / 10 mod 10; a mod 10000 mod 10])
    = Some (Qmake (if neg then - a else a) 10000)) as Hbody.
  { intros neg. unfold parse_magnitude.
    rewrite (span_show_digits (d :: ds) _ Hall) by reflexivity.
    cbn [String.append]. rewrite (span_show_digits_end _ Hall4).
    cbn [List.length]. change (10 ^ Z.of_nat 4) with 10000.
    change (Z.to_pos 10000) with 10000%positive.
    rewrite Hval, Hval4. pose proof (Z.div_mod a 10000).
    replace (a / 10000 * 10000 + a mod 10000) with a by lia. reflexivity. }
  destruct (round4_sign q) as [Hpos Hneg].
  destruct (Z.ltb_spec (Qnum q) 0) as [Hlt | Hge].
  - change (parse_magnitude true
              (show_digits (d :: ds) ++ "." ++
               show_digits [a mod 10000 / 1000 mod 10; a mod 10000 / 100 mod 10;
                            a mod 10000 / 10 mod 10; a mod 10000 mod 10])
            = Some (Qmake (round4 q) 10000)).
    rewrite (Hbody true).
    f_equal. f_equal. subst a. specialize (Hneg Hlt). lia.
  - change ("" ++ show_digits (d :: ds) ++ "." ++
            show_digits [a mod 10000 / 1000 mod 10; a mod 10000 / 100 mod 10;
                         a mod 10000 / 10 mod 10; a mod 10000 mod 10])
      with (show_digits (d :: ds) ++ "." ++
            show_digits [a mod 10000 / 1000 mod 10; a mod 10000 / 100 mod 10;
                         a mod 10000 / 10 mod 10; a mod 10000 mod 10]).
    rewrite show_digits_cons. cbn [String.append].
    rewrite (digit_not_minus _ _ Hd).
    change (parse_magnitude false
              (show_digits (d :: ds) ++ "." ++
               show_digits [a mod 10000 / 1000 mod 10; a mod 10000 / 100 mod 10;
                            a mod 10000 / 10 mod 10; a mod 10000 mod 10])
            = Some (Qmake (round4 q) 10000)).
    rewrite (Hbody false).
    f_equal. f_equal. subst a. specialize (Hpos Hge). lia.
Qed.

Lemma fmt_f4_not_tab q : string_all not_tab (fmt_f4 q) = true.
Proof.
  unfold fmt_f4.
  set (a := Z.abs (round4 q)).
  assert (0 <= a) as Ha by apply Z.abs_nonneg.
  assert (0 <= a / 10000) as Hip by (apply Z.div_pos; lia).
  assert (0 <= a mod 10000 < 10000) as Hfp by (apply Z.mod_pos_bound; lia).
  destruct (decimal_spec _ Hip) as (d & ds & Hdec & Hall & _).
  destruct (digits4_spec _ Hfp) as [Hall4 _].
  unfold digits4. rewrite Hdec, !string_all_app.
  rewrite (string_all_impl _ _ _ isdigit_not_tab (show_digits_all _ Hall)).
  rewrite (string_all_impl _ _ _ isdigit_not_tab (show_digits_all _ Hall4)).
  destruct (Qnum q <? 0); reflexivity.
Qed.

Lemma fmt_f4_not_lf q : string_all not_lf (fmt_f4 q) = true.
Proof.
  unfold fmt_f4.
  set (a := Z.abs (round4 q)).
  assert (0 <= a) as Ha by apply Z.abs_nonneg.
  assert (0 <= a / 10000) as Hip by (apply Z.div_pos; lia).
  assert (0 <= a mod 10000 < 10000) as Hfp by (apply Z.mod_pos_bound; lia).
  destruct (decimal_spec _ Hip) as (d & ds & Hdec & Hall & _).
  destruct (digits4_spec _ Hfp) as [Hall4 _].
  unfold digits4. rewrite Hdec, !string_all_app.
  rewrite (string_all_impl _ _ _ isdigit_not_lf (show_digits_all _ Hall)).
  rewrite (string_all_impl _ _ _ isdigit_not_lf (show_digits_all _ Hall4)).
  destruct (Qnum q <? 0); reflexivity.
Qed.

(** A data line without its line feed, read back. *)
Lemma parse_log_line_data t reading :
  parse_log_line (fmt_f4 t ++ TAB ++ reading) = Some (Qmake (round4 t) 10000, reading).
Proof.
  unfold parse_log_line.
  rewrite (split_tab_app _ _ (fmt_f4_not_tab t)).
  now rewrite parse_fixed_fmt_f4.
Qed.

(** The first character of a data line is not the comment sign. *)
Lemma data_line_is_data t rest : is_data_line (fmt_f4 t ++ rest) = true.
Proof.
  unfold fmt_f4.
  set (a := Z.abs (round4 t)).
  assert (0 <= a / 10000) as Hip by (apply Z.div_pos; [ apply Z.abs_nonneg | lia ]).
  destruct (decimal_spec _ Hip) as (d & ds & Hdec & Hall & _).
  rewrite Hdec, show_digits_cons.
  destruct (Qnum t <? 0); [ reflexivity | ].
  cbn [String.append is_data_line].
  assert (isdigit (digit_char d) = true) as Hd.
  { apply digit_char_isdigit. now inversion Hall. }
  destruct (digit_char d) as [[] [] [] [] [] [] [] []]; try reflexivity;
    vm_compute in Hd; discriminate Hd.
Qed.

(** *** Every way through a round *)

Ltac crunch_hyp H :=
  lazy beta iota zeta delta
    [sampling sample trigger log_reading end_of_round refresh look_up_keyboard
     stopping kbhit readch inst_write
     ibwrt ibrd timeinfo time_ cut_last fprintf_outfile fflush_outfile
     fclose_outfile fprintf_gp fflush_gp pclose_gp close_keyboard init_keyboard
     bind get emit say modify ret halt log
     set_disk set_outfile set_gp set_raw_mode set_peek_character set_optind
     set_letP tick_ibwrt tick_ibrd tick_time tick_clock tick_poll tick_wait
     disk outfile gp raw_mode peek_character optind letP
     n_ibwrt n_ibrd n_time n_clock n_poll n_wait trace
     loop key added fst snd option_map negb] in H;
  change (1 =? 0) with false in H; change (0 =? 0) with true in H;
  lazy beta iota in H.

Lemma bind_cases A B (m : M A) (k : A -> M B) w r w' :
  bind m k w = (r, w') ->
  (exists out, m w = (Halt out, w') /\ r = Halt out)
  \/ (exists a w1, m w = (Ret a, w1) /\ k a w1 = (r, w')).
Proof.
  unfold bind. destruct (m w) as [[a | out] w1]; intros H.
  - right. now exists a, w1.
  - left. injection H as <- <-. now exists out.
Qed.

Lemma not_written_all evs : Forall not_written evs -> written evs = [].
Proof.
  induction 1 as [ | e evs He _ IH ]; [ reflexivity | ].
  change (e :: evs) with ([e] ++ evs)%list. now rewrite written_app, He, IH.
Qed.

Lemma quiet_refl w : quiet w w.
Proof. split; [ apply grows_refl | now split ]. Qed.

Lemma quiet_trans a b c : quiet a b -> quiet b c -> quiet a c.
Proof.
  intros (G1 & C1 & R1) (G2 & C2 & R2). split; [ eapply grows_trans; eauto | ].
  split; congruence.
Qed.

Ltac quiet_leaf :=
  match goal with
  | |- preserves quiet (modify (log ?e)) =>
      apply preserves_modify; intros; split;
      [ apply grows_log; reflexivity | split; reflexivity ]
  | |- preserves quiet (modify _) =>
      apply preserves_modify; intros; split;
      [ apply grows_same; reflexivity | split; reflexivity ]
  end.

Lemma trigger_quiet o c : preserves quiet (trigger o c).
Proof. walk quiet_refl quiet_trans fail; quiet_leaf. Qed.

Lemma end_of_round_quiet o c file n k : preserves quiet (end_of_round o c file n k).
Proof. walk quiet_refl quiet_trans fail; quiet_leaf. Qed.

Lemma same_outfile_refl w : same_outfile w w.
Proof. reflexivity. Qed.

Lemma same_outfile_trans a b c : same_outfile a b -> same_outfile b c -> same_outfile a c.
Proof. unfold same_outfile. congruence. Qed.

Lemma end_of_round_outfile o c file n k :
  preserves same_outfile (end_of_round o c file n k).
Proof.
  walk same_outfile_refl same_outfile_trans fail;
    apply preserves_modify; intros; reflexivity.
Qed.

(** Takes the next case distinction of the program text in [H]. *)
Ltac split_hyp H :=
  match type of H with
  | context [if ?b then _ else _] =>
      lazymatch b with
      | context [if _ then _ else _] => fail
      | context [match _ with _ => _ end] => fail
      | _ => destruct b eqn:?
      end
  | context [match ?x with _ => _ end] =>
      lazymatch x with
      | context [if _ then _ else _] => fail
      | context [match _ with _ => _ end] => fail
      | _ => destruct x eqn:?
      end
  end; crunch_hyp H.

Lemma refresh_halts c file n w out w' :
  refresh c file n w = (Halt out, w') -> exists f, out = Fault f.
Proof.
  intros H. destruct w as [wdisk wout wgp wraw wpeek woptind wletP nwrt nrd ntime nclock npoll nwait wtrace]. crunch_hyp H. repeat split_hyp H.
  all: try discriminate H.
  all: injection H as <- _; now eexists.
Qed.

Lemma look_up_keyboard_returns o k w :
  exists k' w', look_up_keyboard o k w = (Ret k', w').
Proof.
  destruct w as [wdisk wout wgp wraw wpeek woptind wletP nwrt nrd ntime nclock npoll nwait wtrace]. crunch.
  destruct (wpeek =? -1) eqn:E; crunch.
  - destruct (tty_poll o npoll); crunch; [ | now eexists; eexists ].
    match goal with
      | |- context [if ?b then _ else _] => destruct b
      end; crunch; now eexists; eexists.
  - rewrite E. crunch. now eexists; eexists.
Qed.

(** The rest of a round stops the program only through a fault. *)
Lemma end_of_round_halts o c file n k w out w' :
  end_of_round o c file n k w = (Halt out, w') -> exists f, out = Fault f.
Proof.
  unfold end_of_round. intros H.
  apply bind_cases in H. destruct H as [(out' & H & E) | ([] & w1 & H1 & H)].
  - injection E as <-. apply (refresh_halts _ _ _ _ _ _ H).
  - exfalso. destruct (look_up_keyboard_returns o k w1) as (k' & w2 & Hk).
    unfold bind in H. rewrite Hk in H. discriminate H.
Qed.

(** The program text of [H] up to the end of a round, which is left
    folded. *)
Ltac crunch_front_hyp H :=
  lazy beta iota zeta delta
    [sample trigger log_reading cut_last inst_write
     ibwrt ibrd timeinfo time_ fprintf_outfile fflush_outfile
     fclose_outfile fprintf_gp fflush_gp pclose_gp close_keyboard init_keyboard
     bind get emit say modify ret halt log
     set_disk set_outfile set_gp set_raw_mode set_peek_character set_optind
     set_letP tick_ibwrt tick_ibrd tick_time tick_clock tick_poll tick_wait
     disk outfile gp raw_mode peek_character optind letP
     n_ibwrt n_ibrd n_time n_clock n_poll n_wait trace
     loop key added fst snd option_map negb] in H;
  change (1 =? 0) with false in H; change (0 =? 0) with true in H;
  lazy beta iota in H.

Lemma trigger_cases o c w d r w' :
  outfile w = Some d ->
  trigger o c w = (r, w') ->
  (r = Ret tt /\ outfile w' = Some d)
  \/ (r = Halt (Exit ERR_INST) /\ outfile w' = None
      /\ exists evs, trace w' = (trace w ++ evs)%list
                     /\ In (Msg (SendError ":read?")) evs /\ In Fclose evs).
Proof.
  intros Hout H. destruct w as [wdisk wout wgp wraw wpeek woptind wletP nwrt nrd ntime nclock npoll nwait wtrace]. crunch_in Hout. subst.
  crunch_hyp H. repeat split_hyp H.
  all: injection H as <- <-.
  all: try (left; split; reflexivity).
  all: right; split; [ reflexivity | ]; split; [ reflexivity | ].
  all: crunch; eexists; split; [ rewrite <- ?app_assoc; reflexivity | ].
  all: cbn; intuition.
Qed.

Lemma end_of_round_Ret o c file n k w x w' :
  end_of_round o c file n k w = (Ret x, w') -> exists l', x = AtEnd l'.
Proof.
  unfold end_of_round. intros H.
  apply bind_cases in H. destruct H as [(out' & H & E) | ([] & w1 & H1 & H)];
    [ discriminate | ].
  apply bind_cases in H. destruct H as [(out' & H & E) | (k' & w2 & H2 & H)];
    [ discriminate | ].
  injection H as <- _. now eexists.
Qed.

Lemma log_reading_cases o c file t0 l data w d r w' :
  outfile w = Some d ->
  log_reading o c file t0 l data w = (r, w') ->
  match r with
  | Ret x => (exists l', x = AtEnd l') /\ exists d', outfile w' = Some d'
  | Halt out => exists f, out = Fault f
  end.
Proof.
  intros Hout H. destruct w as [wdisk wout wgp wraw wpeek woptind wletP nwrt nrd ntime nclock npoll nwait wtrace]. crunch_in Hout. subst.
  destruct data as [ | a data ]; crunch_front_hyp H.
  - injection H as <- _. now eexists.
  - match type of H with
    | end_of_round ?o ?c ?f ?n ?k ?W = _ =>
        pose proof (end_of_round_outfile o c f n k W) as Hsame;
        rewrite H in Hsame; unfold same_outfile in Hsame; cbn in Hsame
    end.
    destruct r as [x | out].
    + split; [ apply (end_of_round_Ret _ _ _ _ _ _ _ _ H) | ].
      eexists. exact Hsame.
    + apply (end_of_round_halts _ _ _ _ _ _ _ _ H).
Qed.

Lemma sample_cases o c file t0 l w d r w' :
  outfile w = Some d ->
  sample o c file t0 l w = (r, w') ->
  match r with
  | Ret (AtEnd _) => exists d', outfile w' = Some d'
  | Ret (Break _) =>
      outfile w' = Some d /\ exists tr, trace w' = (tr ++ [Msg ReadError])%list
  | Halt (Exit n) =>
      n = ERR_INST /\ outfile w' = None
      /\ exists evs, trace w' = (trace w ++ evs)%list
                     /\ In (Msg (SendError ":read?")) evs /\ In Fclose evs
  | Halt _ => True
  end.
Proof.
  intros Hout H. unfold sample in H.
  apply bind_cases in H. destruct H as [(out & H & ->) | ([] & w1 & H1 & H)].
  - destruct (trigger_cases _ _ _ _ _ _ Hout H) as [[E _] | (E & Hnone & Hevs)];
      [ discriminate | ].
    injection E as ->. auto.
  - destruct (trigger_cases _ _ _ _ _ _ Hout H1) as [[_ Hout1] | (E & _)];
      [ | discriminate ].
    apply bind_cases in H. destruct H as [(out & H & ->) | (rd & w2 & H2 & H)];
      [ discriminate | ].
    assert (outfile w2 = Some d) as Hout2.
    { injection H2 as _ <-. exact Hout1. }
    destruct rd as [data | ].
    + pose proof (log_reading_cases _ _ _ _ _ _ _ _ _ _ Hout2 H) as Hlog.
      destruct r as [x | out].
      * destruct Hlog as [[l' ->] Hd]. exact Hd.
      * destruct Hlog as [f ->]. exact I.
    + injection H as <- <-. split; [ exact Hout2 | ]. now eexists.
Qed.

(** *** The trailer *)




Lemma sample_grows o c file t0 l : preserves (grows any_event) (sample o c file t0 l).
Proof. grow any_event fail; exact I. Qed.

(** How the loop can end, with the output file open when it starts. *)
Lemma sampling_cases o fuel c file t0 :
  forall l w d r w',
    outfile w = Some d ->
    sampling o fuel c file t0 l w = (r, w') ->
    match r with
    | Ret l' =>
        (exists d', outfile w' = Some d')
        /\ (stop_key (key l') = true
            \/ exists tr, trace w' = (tr ++ [Msg ReadError])%list)
    | Halt (Exit n) =>
        n = ERR_INST /\ outfile w' = None
        /\ exists evs, trace w' = (trace w ++ evs)%list
                       /\ In (Msg (SendError ":read?")) evs /\ In Fclose evs
    | Halt _ => True
    end.
Proof.
  induction fuel as [ | fuel IH ]; intros l w d r w' Hout H.
  - injection H as <- _. exact I.
  - cbn [sampling] in H.
    apply bind_cases in H. destruct H as [(out & H & ->) | (x & w1 & H1 & H)].
    + apply (sample_cases _ _ _ _ _ _ _ _ _ Hout H).
    + pose proof (sample_cases _ _ _ _ _ _ _ _ _ Hout H1) as Hround.
      destruct x as [l1 | l1].
      * destruct Hround as [d1 Hout1].
        destruct (stop_key (key l1)) eqn:Hstop.
        -- injection H as <- <-. split; [ now exists d1 | now left ].
        -- specialize (IH _ _ _ _ _ Hout1 H).
           destruct r as [l' | [n | f | ]]; try exact IH.
           destruct IH as (Hn & Hnone & evs & Htr & Hsend & Hclose).
           destruct (sample_grows o c file t0 l w) as (evs1 & Htr1 & _).
           rewrite H1 in Htr1. cbn in Htr1.
           split; [ exact Hn | ]. split; [ exact Hnone | ].
           exists (evs1 ++ evs)%list.
           split; [ now rewrite Htr, Htr1, app_assoc | ].
           split; apply in_or_app; now right.
      * injection H as <- <-. destruct Hround as [Hout1 Hlast].
        split; [ now exists d | now right ].
Qed.

Lemma stopping_writes_trailer o c w d :
  outfile w = Some d ->
  exists r w' rest,
    stopping o c w = (r, w')
    /\ trace w'
       = (trace w ++ TimeCall :: Fprintf (trailer (ctime o (time_now o (n_time w))))
            :: Fclose :: CloseKeyboard :: rest)%list
    /\ outfile w' = None
    /\ raw_mode w' = false
    /\ disk w' = Some (d ++ trailer (ctime o (time_now o (n_time w)))).
Proof.
  intros Hout. destruct w as [wdisk wout wgp wraw wpeek woptind wletP nwrt nrd ntime nclock npoll nwait wtrace]. crunch_in Hout. subst. crunch.
  destruct (do_graph c); crunch; [ destruct wgp; crunch | ].
  all: try (destruct (do_display c); crunch).
  all: repeat match goal with
         | |- context [if ibwrt_ok ?o ?k ?cmd then _ else _] =>
             destruct (ibwrt_ok o k cmd); crunch
         end.
  all: eexists; eexists; eexists; split; [ reflexivity | ]; crunch.
  all: split; [ rewrite <- ?app_assoc; cbn [app]; reflexivity | ].
  all: repeat split; reflexivity.
Qed.


(** *** The data lines *)

Lemma log_reading_writes o c file t0 l data w r w' :
  log_reading o c file t0 l data w = (r, w') ->
  exists evs,
    trace w' = (trace w ++ evs)%list
    /\ ((written evs = [] /\ exists out, r = Halt out)
        \/ (written evs = [data_line (elapsed t0 (clock o (n_clock w))) (reading_of data)]
            /\ n_clock w' = S (n_clock w) /\ n_ibrd w' = n_ibrd w)).
Proof.
  intros H. destruct w as [wdisk wout wgp wraw wpeek woptind wletP nwrt nrd ntime nclock npoll nwait wtrace].
  destruct data as [ | a data ]; crunch_front_hyp H.
  - injection H as <- <-. exists []. split; [ now rewrite app_nil_r | ].
    left. split; [ reflexivity | now eexists ].
  - destruct wout as [d | ]; crunch_front_hyp H.
    + match type of H with
      | end_of_round ?o ?c ?f ?n ?k ?W = _ =>
          destruct (end_of_round_quiet o c f n k W) as ((evs & Htr & Hall) & Hc & Hr);
          rewrite H in Htr, Hc, Hr; cbn in Htr, Hc, Hr
      end.
      eexists. split; [ rewrite Htr, <- !app_assoc; reflexivity | ].
      right. cbn [written app]. rewrite ?written_app, (not_written_all _ Hall).
      repeat split; assumption.
    + injection H as <- <-. eexists.
      split; [ cbn; rewrite <- !app_assoc; reflexivity | ].
      left. split; [ reflexivity | now eexists ].
Qed.

Lemma sample_writes o c file t0 l w r w' :
  sample o c file t0 l w = (r, w') ->
  exists evs,
    trace w' = (trace w ++ evs)%list
    /\ ((written evs = [] /\ forall l', r <> Ret (AtEnd l'))
        \/ (exists rec,
              samples_from o (n_clock w) (n_ibrd w) [rec]
              /\ written evs = [line_of t0 rec]
              /\ n_clock w' = S (n_clock w) /\ n_ibrd w' = S (n_ibrd w))).
Proof.
  intros H. unfold sample in H.
  destruct (trigger_quiet o c w) as ((evs0 & Htr0 & Hall0) & Hc0 & Hr0).
  apply bind_cases in H. destruct H as [(out & H & ->) | ([] & w1 & H1 & H)].
  - rewrite H in Htr0. cbn in Htr0. exists evs0. split; [ exact Htr0 | ].
    left. split; [ apply (not_written_all _ Hall0) | discriminate ].
  - rewrite H1 in Htr0, Hc0, Hr0. cbn in Htr0, Hc0, Hr0.
    apply bind_cases in H. destruct H as [(out & H & ->) | (rd & w2 & H2 & H)];
      [ discriminate | ].
    unfold ibrd, bind, get, emit, modify, ret in H2. injection H2 as <- <-.
    destruct (ibrd_data o (n_ibrd w1)) as [data | ] eqn:Hdata; cbn [option_map] in H.
    + destruct (log_reading_writes _ _ _ _ _ _ _ _ _ H) as (evs & Htr & Hcases).
      exists (evs0 ++ [Ibrd 90] ++ evs)%list.
      split; [ rewrite Htr; cbn; rewrite Htr0, <- !app_assoc; reflexivity | ].
      rewrite !written_app, (not_written_all _ Hall0).
      destruct Hcases as [[Hw [out ->]] | (Hw & Hc & Hr)].
      * left. rewrite Hw. split; [ reflexivity | discriminate ].
      * right. exists (clock o (n_clock w), substring 0 (Z.to_nat 90) data).
        cbn in Hw, Hc, Hr. rewrite Hc0 in Hw, Hc. rewrite Hr0 in Hdata, Hr.
        split; [ cbn; rewrite Hdata; auto | ].
        split; [ rewrite Hw; reflexivity | ].
        split; assumption.
    + injection H as <- <-. exists (evs0 ++ [Ibrd 90; Msg ReadError])%list.
      split; [ cbn; rewrite Htr0, <- !app_assoc; reflexivity | ].
      left. rewrite written_app, (not_written_all _ Hall0).
      split; [ reflexivity | discriminate ].
Qed.

Lemma sampling_writes o fuel c file t0 :
  forall l w r w',
    sampling o fuel c file t0 l w = (r, w') ->
    exists evs recs,
      trace w' = (trace w ++ evs)%list
      /\ samples_from o (n_clock w) (n_ibrd w) recs
      /\ written evs = map (line_of t0) recs.
Proof.
  induction fuel as [ | fuel IH ]; intros l w r w' H.
  - injection H as _ <-. exists [], []. split; [ now rewrite app_nil_r | now split ].
  - cbn [sampling] in H.
    apply bind_cases in H. destruct H as [(out & H & ->) | (x & w1 & H1 & H)].
    + destruct (sample_writes _ _ _ _ _ _ _ _ H) as (evs & Htr & Hcases).
      destruct Hcases as [[Hw _] | (rec & Hrec & Hw & _)].
      * exists evs, []. split; [ exact Htr | split; [ exact I | exact Hw ] ].
      * exists evs, [rec]. split; [ exact Htr | split; [ exact Hrec | exact Hw ] ].
    + destruct (sample_writes _ _ _ _ _ _ _ _ H1) as (evs & Htr & Hcases).
      destruct x as [l1 | l1].
      * destruct Hcases as [[_ Hno] | (rec & Hrec & Hw & Hc & Hr)];
          [ now contradiction (Hno l1) | ].
        destruct (stop_key (key l1)).
        -- injection H as _ <-. exists evs, [rec]. split; [ exact Htr | split; [ exact Hrec | exact Hw ] ].
        -- destruct (IH _ _ _ _ H) as (evs' & recs & Htr' & Hrecs & Hw').
           exists (evs ++ evs')%list, (rec :: recs).
           split; [ now rewrite Htr', Htr, app_assoc | ].
           split.
           ++ destruct Hrec as (Hnow & Hdata & _).
              rewrite Hc, Hr in Hrecs.
              split; [ exact Hnow | split; [ exact Hdata | exact Hrecs ] ].
           ++ rewrite written_app, Hw, Hw'. reflexivity.
      * injection H as _ <-.
        destruct Hcases as [[Hw _] | (rec & Hrec & Hw & _)].
        -- exists evs, []. split; [ exact Htr | split; [ exact I | exact Hw ] ].
        -- exists evs, [rec]. split; [ exact Htr | split; [ exact Hrec | exact Hw ] ].
Qed.

(** *** One line for every reading of the clock *)

Lemma log_reading_ticks o c file t0 l data w d r w' :
  outfile w = Some d ->
  log_reading o c file t0 l data w = (r, w') ->
  exists evs,
    trace w' = (trace w ++ evs)%list
    /\ n_clock w' = (n_clock w + List.length (written evs))%nat.
Proof.
  intros Hout H.
  destruct w as [wdisk wout wgp wraw wpeek woptind wletP nwrt nrd ntime nclock npoll
                 nwait wtrace].
  crunch_in Hout. subst wout.
  destruct data as [ | a data ]; crunch_front_hyp H.
  - injection H as <- <-. exists []. split; [ now rewrite app_nil_r | ].
    cbn. lia.
  - match type of H with
    | end_of_round ?o ?c ?f ?n ?k ?W = _ =>
        destruct (end_of_round_quiet o c f n k W) as ((evs & Htr & Hall) & Hc & Hr);
        rewrite H in Htr, Hc, Hr; cbn in Htr, Hc, Hr
    end.
    eexists. split; [ rewrite Htr, <- !app_assoc; reflexivity | ].
    cbn [written app]. rewrite ?written_app, (not_written_all _ Hall).
    cbn. lia.
Qed.

Lemma sample_ticks o c file t0 l w d r w' :
  outfile w = Some d ->
  sample o c file t0 l w = (r, w') ->
  exists evs,
    trace w' = (trace w ++ evs)%list
    /\ n_clock w' = (n_clock w + List.length (written evs))%nat.
Proof.
  intros Hout H. unfold sample in H.
  destruct (trigger_quiet o c w) as ((evs0 & Htr0 & Hall0) & Hc0 & Hr0).
  apply bind_cases in H. destruct H as [(out & H & ->) | ([] & w1 & H1 & H)].
  - rewrite H in Htr0, Hc0. cbn in Htr0, Hc0. exists evs0. split; [ exact Htr0 | ].
    rewrite (not_written_all _ Hall0). cbn. lia.
  - destruct (trigger_cases _ _ _ _ _ _ Hout H1) as [[_ Hout1] | (E & _)];
      [ | discriminate ].
    rewrite H1 in Htr0, Hc0. cbn in Htr0, Hc0.
    apply bind_cases in H. destruct H as [(out & H & ->) | (rd & w2 & H2 & H)];
      [ discriminate | ].
    unfold ibrd, bind, get, emit, modify, ret in H2. injection H2 as <- <-.
    destruct (ibrd_data o (n_ibrd w1)) as [data | ]; cbn [option_map] in H.
    + assert (outfile (tick_ibrd (log (Ibrd 90) w1)) = Some d) as Hout2 by exact Hout1.
      destruct (log_reading_ticks _ _ _ _ _ _ _ _ _ _ Hout2 H) as (evs & Htr & Hc).
      exists (evs0 ++ [Ibrd 90] ++ evs)%list.
      split; [ rewrite Htr; cbn; rewrite Htr0, <- !app_assoc; reflexivity | ].
      rewrite !written_app, (not_written_all _ Hall0).
      cbn in Hc |- *. rewrite Hc, Hc0. reflexivity.
    + injection H as <- <-. exists (evs0 ++ [Ibrd 90; Msg ReadError])%list.
      split; [ cbn; rewrite Htr0, <- !app_assoc; reflexivity | ].
      rewrite written_app, (not_written_all _ Hall0). cbn. rewrite Hc0. lia.
Qed.

Lemma sampling_ticks o fuel c file t0 :
  forall l w d r w',
    outfile w = Some d ->
    sampling o fuel c file t0 l w = (r, w') ->
    exists evs,
      trace w' = (trace w ++ evs)%list
      /\ n_clock w' = (n_clock w + List.length (written evs))%nat.
Proof.
  induction fuel as [ | fuel IH ]; intros l w d r w' Hout H.
  - injection H as _ <-. exists []. split; [ now rewrite app_nil_r | cbn; lia ].
  - cbn [sampling] in H.
    apply bind_cases in H. destruct H as [(out & H & ->) | (x & w1 & H1 & H)].
    + apply (sample_ticks _ _ _ _ _ _ _ _ _ Hout H).
    + destruct (sample_ticks _ _ _ _ _ _ _ _ _ Hout H1) as (evs & Htr & Hc).
      pose proof (sample_cases _ _ _ _ _ _ _ _ _ Hout H1) as Hround.
      destruct x as [l1 | l1].
      * destruct Hround as [d1 Hout1].
        destruct (stop_key (key l1)).
        -- injection H as _ <-. exists evs. now split.
        -- destruct (IH _ _ _ _ _ Hout1 H) as (evs' & Htr' & Hc').
           exists (evs ++ evs')%list.
           split; [ now rewrite Htr', Htr, app_assoc | ].
           rewrite written_app, length_app, Hc', Hc. lia.
      * injection H as _ <-. exists evs. now split.
Qed.

(** *** What is written reaches the stream *)

Lemma append_nil_r s : s ++ "" = s.
Proof. induction s as [ | c s IH ]; [ reflexivity | ]. cbn. now rewrite IH. Qed.

Lemma append_assoc (a b c : string) : (a ++ b) ++ c = a ++ (b ++ c).
Proof. induction a as [ | x a IH ]; [ reflexivity | ]. cbn. now rewrite IH. Qed.

Lemma text_app l1 l2 : text (l1 ++ l2) = text l1 ++ text l2.
Proof.
  induction l1 as [ | s l1 IH ]; [ reflexivity | ].
  change (text ((s :: l1) ++ l2)) with (s ++ text (l1 ++ l2)).
  change (text (s :: l1)) with (s ++ text l1).
  now rewrite IH, append_assoc.
Qed.

Lemma logged_refl w : logged w w.
Proof.
  exists []. split; [ now rewrite app_nil_r | ].
  destruct (outfile w); cbn; [ left; now rewrite append_nil_r | now repeat split ].
Qed.

Lemma logged_trans a b c : logged a b -> logged b c -> logged a c.
Proof.
  intros (e1 & T1 & H1) (e2 & T2 & H2). exists (e1 ++ e2)%list. split.
  - now rewrite T2, T1, app_assoc.
  - rewrite written_app, text_app.
    destruct (outfile a) as [d | ].
    + destruct H1 as [H1 | [H1 D1]]; rewrite H1 in H2.
      * destruct H2 as [H2 | [H2 D2]]; [ left | right; split; [ exact H2 | ] ].
        -- now rewrite H2, append_assoc.
        -- now rewrite D2, append_assoc.
      * destruct H2 as (H2 & D2 & W2). right. split; [ exact H2 | ].
        rewrite D2, D1, W2. cbn. now rewrite append_nil_r.
    + destruct H1 as (H1 & D1 & W1). rewrite H1 in H2. destruct H2 as (H2 & D2 & W2).
      split; [ exact H2 | ]. split; [ congruence | ]. now rewrite W1, W2.
Qed.

Lemma fprintf_outfile_logged o s : preserves logged (fprintf_outfile o s).
Proof.
  intros w.
  destruct w as [wdisk wout wgp wraw wpeek woptind wletP nwrt nrd ntime nclock npoll
                 nwait wtrace].
  crunch. destruct wout; crunch.
  - exists [Fprintf s]. split; [ reflexivity | ]. left. cbn. now rewrite append_nil_r.
  - exists []. split; [ now rewrite app_nil_r | now repeat split ].
Qed.

Lemma fflush_outfile_logged : preserves logged fflush_outfile.
Proof.
  intros w.
  destruct w as [wdisk wout wgp wraw wpeek woptind wletP nwrt nrd ntime nclock npoll
                 nwait wtrace].
  crunch. destruct wout; crunch.
  - exists [Fflush]. split; [ reflexivity | ]. left. cbn. now rewrite append_nil_r.
  - exists []. split; [ now rewrite app_nil_r | now repeat split ].
Qed.

Lemma fclose_outfile_logged : preserves logged fclose_outfile.
Proof.
  intros w.
  destruct w as [wdisk wout wgp wraw wpeek woptind wletP nwrt nrd ntime nclock npoll
                 nwait wtrace].
  crunch. destruct wout; crunch.
  - exists [Fclose]. split; [ reflexivity | ]. right. cbn. now rewrite append_nil_r.
  - exists []. split; [ now rewrite app_nil_r | now repeat split ].
Qed.

Ltac logged_leaf :=
  intros;
  match goal with
  | |- preserves logged (modify (log ?e)) =>
      apply preserves_modify; intros w0; exists [e];
      split; [ reflexivity | ];
      cbn; destruct (outfile w0);
      [ left; now rewrite append_nil_r | now repeat split ]
  | |- preserves logged (modify _) =>
      apply preserves_modify; intros w0; exists [];
      split; [ cbn; now rewrite app_nil_r | ];
      cbn; destruct (outfile w0);
      [ left; now rewrite append_nil_r | now repeat split ]
  end.

Ltac logging known :=
  walk logged_refl logged_trans
    ltac:(first [ apply fprintf_outfile_logged
                | apply fflush_outfile_logged
                | apply fclose_outfile_logged
                | known ]);
  try logged_leaf.

Lemma sampling_logged o fuel c file t0 :
  forall l, preserves logged (sampling o fuel c file t0 l).
Proof.
  induction fuel as [ | fuel IH ]; intros l.
  - logging fail.
  - cbn [sampling]. logging ltac:(apply IH).
Qed.

(** *** The data lines read back *)

Lemma samples_nondecreasing o t0 recs :
  forall kc kr,
    (forall i j, (kc <= i)%nat -> (i <= j)%nat ->
       (seconds (clock o i) <= seconds (clock o j))%Q) ->
    samples_from o kc kr recs ->
    nondecreasing (map (minutes_of t0) recs).
Proof.
  induction recs as [ | rec1 recs IH ]; intros kc kr Hmono Hrecs; [ exact I | ].
  destruct recs as [ | rec2 recs ]; [ exact I | ].
  destruct Hrecs as (H1 & _ & Hrest).
  split.
  - destruct Hrest as (H2 & _).
    unfold minutes_of, Qle. cbn [Qnum Qden]. rewrite H1, H2.
    apply Z.mul_le_mono_nonneg_r; [ lia | ].
    apply round4_le, elapsed_le. apply Hmono; lia.
  - apply (IH (S kc) (S kr)); [ | exact Hrest ].
    intros i j Hi Hj. apply Hmono; lia.
Qed.

(** The lines of the text the samples leave in the log. *)
Lemma samples_lines o t0 recs :
  forall kc kr,
    (forall k data, (kr <= k)%nat -> ibrd_data o k = Some data ->
       string_all not_lf (reading_of (substring 0 (Z.to_nat 90) data)) = true) ->
    samples_from o kc kr recs ->
    split_lines (text (map (line_of t0) recs))
    = map (fun rec => fmt_f4 (elapsed t0 (fst rec)) ++ TAB ++ reading_of (snd rec)) recs.
Proof.
  induction recs as [ | rec recs IH ]; intros kc kr Hlf Hrecs; [ reflexivity | ].
  destruct Hrecs as (_ & Hdata & Hrest).
  change (text (map (line_of t0) (rec :: recs)))
    with (line_of t0 rec ++ text (map (line_of t0) recs)).
  unfold line_of at 1. unfold data_line.
  set (rest := text (map (line_of t0) recs)).
  replace ((fmt_f4 (elapsed t0 (fst rec)) ++ TAB ++ reading_of (snd rec) ++ LF) ++ rest)
    with ((fmt_f4 (elapsed t0 (fst rec)) ++ TAB ++ reading_of (snd rec)) ++ LF ++ rest)
    by now rewrite !append_assoc.
  subst rest. rewrite split_lines_line.
  - cbn [map]. f_equal. apply (IH (S kc) (S kr)); [ | exact Hrest ].
    intros k data Hk. apply Hlf. lia.
  - rewrite !string_all_app, fmt_f4_not_lf. cbn [andb string_all TAB not_lf].
    destruct (ibrd_data o kr) as [data | ] eqn:E; [ | discriminate Hdata ].
    injection Hdata as <-. change (negb (uchar (ascii_of_nat 9) =? 10)) with true.
    cbn [andb]. apply (Hlf kr data (Nat.le_refl _) E).
Qed.

(** C6, as the program has it: the samples of the loop are appended to the
    log, one line each: the elapsed minutes with four decimals, a tab, the
    reading text and a line feed, the reading text being the device
    response with its last byte (the line feed) cut off, or OVERFLOW when
    that is exactly +9.9E37.  When no reading text holds a line feed, the
    lines of the appended text are these, and read back each gives the
    elapsed minutes as printed and the reading text unchanged; they
    follow the data lines of a log that ended with a line.  There is one
    line for every reading of the clock.  While the
    time [timeinfo] returns does not go back ([seconds_le]: while the
    clock does not), the elapsed minutes read back never decrease. *)
Theorem C6_data_lines_read_back (o : oracle) (fuel : nat) (c : config)
  (file : string) (t0 : Z) (l : locals) (w : world) (d : string)
  (r : result locals) (w' : world) :
  outfile w = Some d ->
  (forall i j, (n_clock w <= i)%nat -> (i <= j)%nat ->
     (seconds (clock o i) <= seconds (clock o j))%Q) ->
  (forall k data, (n_ibrd w <= k)%nat -> ibrd_data o k = Some data ->
     string_all not_lf (reading_of (substring 0 (Z.to_nat 90) data)) = true) ->
  sampling o fuel c file t0 l w = (r, w') ->
  exists recs appended,
    samples_from o (n_clock w) (n_ibrd w) recs
    /\ n_clock w' = (n_clock w + List.length recs)%nat
    /\ appended
       = text (map (fun rec => fmt_f4 (elapsed t0 (fst rec)) ++ TAB
                               ++ reading_of (snd rec) ++ LF) recs)
    /\ (outfile w' = Some (d ++ appended)
        \/ (outfile w' = None /\ disk w' = Some (d ++ appended)))
    /\ split_lines appended
       = map (fun rec => fmt_f4 (elapsed t0 (fst rec)) ++ TAB ++ reading_of (snd rec))
           recs
    /\ log_records appended
       = map (fun rec => Some (minutes_of t0 rec, reading_of (snd rec))) recs
    /\ (forall head, d = head ++ LF ->
          log_records (d ++ appended)
          = (log_records d
             ++ map (fun rec => Some (minutes_of t0 rec, reading_of (snd rec))) recs)%list)
    /\ nondecreasing (map (minutes_of t0) recs).
Proof.
  intros Hout Hmono Hlf H.
  destruct (sampling_writes _ _ _ _ _ _ _ _ _ H) as (evs & recs & Htr & Hrecs & Hw).
  pose proof (sampling_logged o fuel c file t0 l w) as (evs' & Htr' & Hlog).
  rewrite H in Htr', Hlog. cbn [snd] in Htr', Hlog.
  assert (evs' = evs) as ->
    by (rewrite Htr in Htr'; symmetry; apply (app_inv_head _ _ _ Htr')).
  rewrite Hout, Hw in Hlog.
  pose proof (samples_lines o t0 recs _ _ Hlf Hrecs) as Hlines.
  exists recs, (text (map (line_of t0) recs)).
  split; [ exact Hrecs | ]. split.
  { destruct (sampling_ticks _ _ _ _ _ _ _ _ _ _ Hout H) as (evs2 & Htr2 & Hc).
    assert (evs2 = evs) as ->
      by (rewrite Htr in Htr2; symmetry; apply (app_inv_head _ _ _ Htr2)).
    now rewrite Hc, Hw, length_map. }
  split; [ reflexivity | ]. split; [ exact Hlog | ].
  split; [ exact Hlines | ].
  assert (log_records (text (map (line_of t0) recs))
          = map (fun rec => Some (minutes_of t0 rec, reading_of (snd rec))) recs)
    as Hback.
  { unfold log_records. rewrite Hlines.
    clear. induction recs as [ | rec recs IH ]; [ reflexivity | ].
    cbn [map filter]. rewrite data_line_is_data. cbn [map].
    rewrite parse_log_line_data. f_equal. exact IH. }
  split; [ exact Hback | ]. split.
  - intros head ->. rewrite <- Hback. unfold log_records.
    now rewrite split_lines_app, filter_app, map_app.
  - apply (samples_nondecreasing o t0 recs _ _ Hmono Hrecs).
Qed.

(** ** The option loop comes to an end *)

Lemma chars_skipn l :
  forall n a, nth_error l n = Some a ->
    chars (skipn n l) = (String.length a + chars (skipn (S n) l))%nat.
Proof.
  induction l as [ | x l IH ]; intros [ | n ] a H; try discriminate H.
  - injection H as ->. reflexivity.
  - cbn [nth_error] in H. exact (IH n a H).
Qed.

Lemma chars_skipn_le l : forall n, (chars (skipn (S n) l) <= chars (skipn n l))%nat.
Proof.
  induction l as [ | x l IH ]; intros [ | n ]; cbn; try lia.
  apply (IH n).
Qed.

Ltac crunch_getopt H :=
  lazy beta iota zeta delta
    [GetOpt GetOpt_letter gopEOF gopError bump_optind
     bind get emit say modify ret halt log
     set_disk set_outfile set_gp set_raw_mode set_peek_character set_optind
     set_letP
     disk outfile gp raw_mode peek_character optind letP
     n_ibwrt n_ibrd n_time n_clock n_poll n_wait trace fst snd] in H.

Ltac split_getopt H :=
  match type of H with
  | context [if ?b then _ else _] =>
      lazymatch b with
      | context [if _ then _ else _] => fail
      | context [match _ with _ => _ end] => fail
      | _ => destruct b eqn:?
      end
  | context [match ?x with _ => _ end] =>
      lazymatch x with
      | context [if _ then _ else _] => fail
      | context [match _ with _ => _ end] => fail
      | _ => destruct x eqn:?
      end
  end; crunch_getopt H.

(** A call of [GetOpt] answers EOF or the error character, or it has
    taken at least one more character of the command line. *)
Lemma GetOpt_progress argv optS w r w' :
  GetOpt argv optS w = (r, w') ->
  exists k a,
    r = Ret (k, a)
    /\ (k = EOF \/ k = uchar "~" \/ (pending argv w' < pending argv w)%nat).
Proof.
  intros H.
  destruct w as [wdisk wout wgp wraw wpeek woptind wletP nwrt nrd ntime nclock npoll
                 nwait wtrace].
  crunch_getopt H. repeat split_getopt H.
  all: injection H as <- <-; eexists; eexists; split; [ reflexivity | ].
  all: try (left; reflexivity).
  all: try (right; left; reflexivity).
  all: right; right; unfold pending; cbn [letP optind String.length].
  all: repeat match goal with
         | E : nth_error _ _ = Some _ |- _ =>
             rewrite (chars_skipn _ _ _ E); clear E
         end.
  all: cbn [String.length];
    pose proof (chars_skipn_le argv (S woptind));
    pose proof (chars_skipn_le argv woptind); try lia.
Qed.

Ltac crunch_case H :=
  lazy beta iota zeta delta
    [option_case the_arg strcpy_check strclean
     bind get emit say modify ret halt log
     disk outfile gp raw_mode peek_character optind letP
     n_ibwrt n_ibrd n_time n_clock n_poll n_wait trace fst snd] in H.

Ltac split_case H :=
  match type of H with
  | context [if ?b then _ else _] =>
      lazymatch b with
      | context [if _ then _ else _] => fail
      | context [match _ with _ => _ end] => fail
      | _ => destruct b eqn:?
      end
  | context [match ?x with _ => _ end] =>
      lazymatch x with
      | context [if _ then _ else _] => fail
      | context [match _ with _ => _ end] => fail
      | _ => destruct x eqn:?
      end
  end; crunch_case H.

(** A case of the [switch] that goes on with the loop leaves the world as
    it is; one that does not returns from [main] or is a fault. *)
Lemma option_case_cases o argv k optarg c w r w' :
  option_case o argv k optarg c w = (r, w') ->
  match r with
  | Ret _ => w' = w
  | Halt out => out <> Running
  end.
Proof.
  intros H. crunch_case H. repeat split_case H.
  all: injection H as <- <-; try reflexivity; discriminate.
Qed.

Lemma option_case_error o argv optarg c w :
  exists w', option_case o argv (uchar "~") optarg c w = (Halt (Exit 1), w').
Proof. eexists. reflexivity. Qed.

Lemma options_ends o fuel argv :
  forall c w,
    (pending argv w < fuel)%nat ->
    fst (options o fuel argv c w) <> Halt Running.
Proof.
  induction fuel as [ | fuel IH ]; intros c w Hfuel; [ lia | ].
  cbn [options]. unfold bind at 1.
  destruct (GetOpt argv optionS w) as [r w1] eqn:Hget.
  destruct (GetOpt_progress _ _ _ _ _ Hget) as (k & a & -> & Hk).
  cbn [fst snd].
  destruct (Z.eqb_spec k EOF) as [-> | Hne]; [ discriminate | ].
  unfold bind.
  destruct (option_case o argv k a c w1) as [[c' | out] w2] eqn:Hcase.
  - pose proof (option_case_cases _ _ _ _ _ _ _ _ Hcase) as Hw. cbn in Hw. subst w2.
    destruct Hk as [-> | [-> | Hk]]; [ contradiction | | ].
    + destruct (option_case_error o argv a c w1) as [w3 E]. congruence.
    + apply IH. lia.
  - pose proof (option_case_cases _ _ _ _ _ _ _ _ Hcase) as Hout. cbn in Hout.
    cbn. congruence.
Qed.

Lemma chars_skipn_all l : forall n, (chars (skipn n l) <= chars l)%nat.
Proof.
  intros n. induction n as [ | n IH ]; [ reflexivity | ].
  pose proof (chars_skipn_le l n). lia.
Qed.

(** The fuel [main] gives to the option loop is enough: whatever the
    command line, the loop ends, in [EOF] from [GetOpt] or in a return from
    [main]. *)
Lemma options_fuel_suffices o argv c w :
  letP w = None ->
  fst (options o (options_fuel argv) argv c w) <> Halt Running.
Proof.
  intros Hnone. apply options_ends. unfold pending, options_fuel. rewrite Hnone.
  pose proof (chars_skipn_all argv (optind w)). lia.
Qed.

(** *** The scenario of two samples *)

(** With a flush interval of 2 and the responses +1.2345E+00 and +9.9E37
    the log has two data lines, the second one with OVERFLOW, and the plot
    is refreshed once, after the second sample. *)
Example two_samples_second_overflow :
  let o := bench always_ok
             (fun k => if Nat.eqb k 2 then Some ("+9.9E37" ++ LF) else steady_reading k)
             one_second_ticks (key_at 1 "q") in
  let run := main o 3 ["k2000"; "-w"; "2"; "out.dat"] in
  fst run = Exit 0
  /\ filter is_data_line (written (trace (snd run)))
     = ["0.0167" ++ TAB ++ "+1.2345E+00" ++ LF; "0.0333" ++ TAB ++ "OVERFLOW" ++ LF]
  /\ filter (String.prefix "plot") (plotted (trace (snd run)))
     = ["plot 'out.dat' with lines title ''" ++ LF].
Proof. repeat split; vm_compute; reflexivity. Qed.

(** *** Floating point at work *)

(** Three and nine milliseconds are 0.00005 and 0.00015 minutes; the
    [double]s the program gets for them lie above the first and below the
    second, and both are printed as 0.0001, where the exact quotients
    would be printed as 0.0000 and 0.0002. *)
Example elapsed_minutes_are_doubles :
  fmt_f4 (elapsed 0 3000) = "0.0001"
  /\ fmt_f4 (elapsed 0 9000) = "0.0001"
  /\ fmt_f4 (Qmake 3000 60000000) = "0.0000"
  /\ fmt_f4 (Qmake 9000 60000000) = "0.0002".
Proof. repeat split; vm_compute; reflexivity. Qed.

(** With -T 0.00048828125 and two clock readings 29297 microseconds
    apart, the exact elapsed time is above the limit, the elapsed minutes
    the program computes are equal to it, and the test of the time limit
    fails. *)
Example limit_reached_but_not_exceeded :
  let t0 := 1700000000000003 in
  let now := 1700000000029300 in
  exists limit,
    scan_float "0.00048828125" = Some limit
    /\ (limit < Qmake (now - t0) 60000000)%Q
    /\ (elapsed t0 now == limit)%Q
    /\ Qltb limit (elapsed t0 now) = false.
Proof. vm_compute. eexists. repeat split; reflexivity. Qed.

(** The text "%g" reads: a sign, digits with or without a point, an
    exponent; what is stored is a [float]. *)
Example time_limits_as_scanned :
  option_map Qred (scan_float "1") = Some 1%Q
  /\ option_map Qred (scan_float "-1") = Some (-1)%Q
  /\ option_map Qred (scan_float "1e-2") = Some (Qmake 5368709 536870912)
  /\ option_map Qred (scan_float "0.01") = Some (Qmake 5368709 536870912)
  /\ scan_float "x" = None.
Proof. repeat split; vm_compute; reflexivity. Qed.

(** A response with a line feed in it makes two lines of the log, and the
    second one does not read back as a data line. *)
Example line_feed_in_a_response :
  log_records (data_line (elapsed 0 1000000) (reading_of ("1" ++ LF ++ "2" ++ LF)))
  = [Some (Qmake 167 10000, "1"); None].
Proof. vm_compute. reflexivity. Qed.

(** *** The buffer of the output stream *)

(** With flushing put off (-w 9999) the file on the bench stays empty for
    209 rounds; the line of round 210 fills the buffer of 4096 bytes and
    the C library writes it out, with no [fflush] by the program. *)
Example library_writes_a_full_buffer :
  let argv := ["k2000"; "-n"; "-w"; "9999"; "-t"; "0"; "out.dat"] in
  let before := snd (main hands_off 209 argv) in
  let after := snd (main hands_off 210 argv) in
  (option_map String.length (disk before), option_map String.length (outfile before),
   option_map String.length (disk after), option_map String.length (outfile after),
   filter (fun e => match e with
                    | Fflush => true
                    | _ => false
                    end) (trace after))
  = (Some 0%nat, Some 4078%nat, Some 4096%nat, Some 4097%nat, []).
Proof. vm_compute. reflexivity. Qed.

(** ** Concrete runs *)

(** C1, at a failing input: the instrument rejects the first command of
    the handshake; [main] returns 5 with the output file open (it was
    opened, nothing closes it).  The same happens when the device cannot
    be opened (shown with -n) and when the identity cannot be read; with
    graphing on, a device that cannot be opened leads to [pclose] of a
    pipe that was never opened. *)
Theorem C1_handshake_failure_leaves_file_open :
  (let run := main deaf_instrument 3 argv_plain in
   fst run = Exit ERR_INST
   /\ In (Fopen "out.dat") (trace (snd run))
   /\ ~ In Fclose (trace (snd run))
   /\ outfile (snd run) = Some "")
  /\ (let run := main no_device 3 ["k2000"; "-n"; "out.dat"] in
      fst run = Exit ERR_INST /\ outfile (snd run) = Some "")
  /\ (let run := main mute_instrument 3 argv_plain in
      fst run = Exit ERR_INST /\ outfile (snd run) = Some "")
  /\ fst (main no_device 3 argv_plain) = Fault NullStream.
Proof.
  split; [ | split; [ | split ] ].
  - split; [ vm_compute; reflexivity | ]. split; [ vm_compute; tauto | ].
    split; [ | vm_compute; reflexivity ].
    vm_compute. intuition discriminate.
  - split; vm_compute; reflexivity.
  - split; vm_compute; reflexivity.
  - vm_compute. reflexivity.
Qed.

(** C4, at a failing input: -w 0 is accepted and leaves the flush interval
    at 0, and the first sample divides by it; -w -5 is accepted as well. *)
Theorem C4_zero_flush_interval_is_accepted :
  (exists c w,
     options hands_off 10 ["k2000"; "-w"; "0"; "out.dat"] defaults (initial hands_off)
     = (Ret c, w) /\ do_flush c = 0)
  /\ fst (main hands_off 3 ["k2000"; "-w"; "0"; "out.dat"]) = Fault DivideByZero
  /\ (exists c w,
        options hands_off 10 ["k2000"; "-w"; "-5"; "out.dat"] defaults (initial hands_off)
        = (Ret c, w) /\ do_flush c = -5).
Proof.
  split; [ | split ].
  - vm_compute. eexists. eexists. split; reflexivity.
  - vm_compute. reflexivity.
  - vm_compute. eexists. eexists. split; reflexivity.
Qed.




(** C5 fails as stated: the command sent for mode 0 is not the bare
    template, it has a line feed after it. *)
Lemma C5_mode_command_ends_in_line_feed :
  let tr := trace (snd (main quit_at_once 3 argv_plain)) in
  mode_commands tr = [spec_mode_command "volt:dc" ++ LF]
  /\ mode_commands tr <> [spec_mode_command "volt:dc"].
Proof. split; [ vm_compute; reflexivity | vm_compute; discriminate ]. Qed.

(** C6 fails as stated: with the clock set back between two samples the
    elapsed minutes read back from the log decrease.  (The line that reads
    back as nothing is the empty line after the trailer, whose time stamp
    brings a line feed of its own.) *)
Lemma C6_clock_set_back_decreases :
  let run := main clock_set_back 3 argv_plain in
  fst run = Exit 0
  /\ option_map log_records (disk (snd run))
     = Some [Some (Qmake 10000 10000, "+1.2345E+00");
             Some (Qmake 5000 10000, "+1.2345E+00");
             None]
  /\ ~ nondecreasing [Qmake 10000 10000; Qmake 5000 10000].
Proof.
  split; [ vm_compute; reflexivity | ].
  split; [ vm_compute; reflexivity | ].
  intros [H _]. apply H. reflexivity.
Qed.



(** ** The general statements at concrete inputs *)



(** C5 for mode 3, the temperature. *)
Lemma C5_mode_3_witness :
  let o := hands_off in
  let c := set_mode 3 defaults in
  let w := initial o in
  let command := ":func '" ++ "temp" ++ "';:init; *opc" ++ LF in
  let axes :=
    "set grid xt; set grid yt; set xlabel 'min'; set ylabel '" ++ "degrees C" ++ "'"
    ++ LF in
  (forall cmd, In cmd (mode_commands (added w (snd (connect o c w)))) -> cmd = command)
  /\ (forall inst w', connect o c w = (Ret inst, w') ->
        mode_commands (added w w') = [command])
  /\ (forall s, In s (axis_commands (added w (snd (prepare_gnuplot o c "out.dat" w)))) ->
        s = axes)
  /\ (forall c' w', prepare_gnuplot o c "out.dat" w = (Ret c', w') ->
        do_graph c' = true -> axis_commands (added w w') = [axes]).
Proof.
  intros o c w.
  apply (C5_mode_command_and_axis_label o c "out.dat" w).
  cbn. lia.
Defined.

(** C6 on a run of three samples, taken 3 and 9 milliseconds and one
    second after the start. *)
Lemma C6_three_samples_witness :
  let o := three_samples in
  let d := "# min" ++ TAB ++ "readout" ++ LF in
  let w := at_loop o d in
  let run := sampling o 4 no_graph "out.dat" 0 first_round w in
  exists recs appended,
    samples_from o (n_clock w) (n_ibrd w) recs
    /\ n_clock (snd run) = (n_clock w + List.length recs)%nat
    /\ appended
       = text (map (fun rec => fmt_f4 (elapsed 0 (fst rec)) ++ TAB
                               ++ reading_of (snd rec) ++ LF) recs)
    /\ (outfile (snd run) = Some (d ++ appended)
        \/ (outfile (snd run) = None /\ disk (snd run) = Some (d ++ appended)))
    /\ split_lines appended
       = map (fun rec => fmt_f4 (elapsed 0 (fst rec)) ++ TAB ++ reading_of (snd rec))
           recs
    /\ log_records appended
       = map (fun rec => Some (minutes_of 0 rec, reading_of (snd rec))) recs
    /\ (forall head, d = head ++ LF ->
          log_records (d ++ appended)
          = (log_records d
             ++ map (fun rec => Some (minutes_of 0 rec, reading_of (snd rec))) recs)%list)
    /\ nondecreasing (map (minutes_of 0) recs).
Proof.
  intros o d w run.
  apply (C6_data_lines_read_back o 4 no_graph "out.dat" 0 first_round w d
           (fst run) (snd run)).
  - reflexivity.
  - intros [ | [ | [ | i ] ] ] [ | [ | [ | j ] ] ] _ Hij; try lia;
      vm_compute; discriminate.
  - intros k data _ [= <-]. vm_compute. reflexivity.
  - apply surjective_pairing.
Defined.

(** C9 with the path of another program given to -g. *)
Lemma C9_path_of_another_program_witness :
  let o := quit_at_once in
  let argv := ["k2000"; "-g"; "/opt/bin/plotter"; "out.dat"] in
  let w := initial o in
  let c := defaults in
  let c' := set_gnuplot (or_keep (scan_s 80 "/opt/bin/plotter") (gnuplot c)) c in
  (exists w',
     options o (S 3) argv c w = options o 3 argv c' w'
     /\ optind w' = S (S (optind w))
     /\ letP w' = None
     /\ trace w' = trace w)
  /\ acquire o 3 c' "out.dat" w = acquire o 3 c "out.dat" w
  /\ launched (added w (snd (acquire o 3 c' "out.dat" w))) = ["gnuplot"].
Proof.
  intros o argv w c.
  apply (C9_plotter_path_is_ignored o 3 3 argv "/opt/bin/plotter" "out.dat"
           "+1.2345E+00" c w w
           (snd (prepare_output o c "out.dat" w))
           (snd (connect o c (snd (prepare_output o c "out.dat" w))))).
  - reflexivity.
  - reflexivity.
  - reflexivity.
  - vm_compute. reflexivity.
  - vm_compute. reflexivity.
Defined.

(** C7 with the answer n. *)
Lemma C7_answer_n_witness :
  let o := file_in_the_way in
  exists w',
    acquire o 3 defaults "out.dat" (initial o) = (Halt (Exit 1), w')
    /\ trace w'
       = (trace (initial o)
          ++ [Access "out.dat"; Msg (OverwritePrompt "out.dat"); Getc])%list
    /\ disk w' = Some "precious"
    /\ outfile w' = outfile (initial o).
Proof.
  intros o.
  apply (C7_overwrite_needs_consent o 3 defaults "out.dat" "precious" (initial o)
           eq_refl eq_refl).
  - intros H. discriminate H.
  - intros H. discriminate H.
Defined.



(** * Further properties *)

(** ** [strclean] *)

Lemma strclean_text_spec buf :
  string_all not_eol (strclean_text buf) = true
  /\ exists rest, buf = strclean_text buf ++ rest /\ starts_with_eol rest.
Proof.
  induction buf as [ | c r [IHall [rest [IHeq IHrest]]] ]; cbn [strclean_text].
  - split; [ reflexivity | ]. exists "". now split.
  - destruct ((uchar c =? 10) || (uchar c =? 13)) eqn:E.
    + split; [ reflexivity | ]. exists (String c r). split; [ reflexivity | ].
      cbn. unfold not_eol. now rewrite E.
    + split.
      * cbn [string_all]. unfold not_eol at 1. now rewrite E, IHall.
      * exists rest. split; [ | exact IHrest ].
        cbn [append]. now rewrite <- IHeq.
Qed.

Lemma strclean_text_fixed s : string_all not_eol s = true -> strclean_text s = s.
Proof.
  induction s as [ | c r IH ]; [ reflexivity | ].
  cbn [string_all strclean_text]. intros H. apply andb_true_iff in H as [Hc Hr].
  unfold not_eol in Hc. apply negb_true_iff in Hc. rewrite Hc. now rewrite IH.
Qed.

(** X1: [strclean] cuts the buffer at its first CR or LF and at nothing
    else: what it leaves has neither character, is the part of the buffer
    before the first of them, and its length is the value returned; a
    second call changes nothing. *)
Theorem strclean_cuts_at_first_line_end (buf : string) :
  let (n, b) := strclean buf in
  n = strlen b
  /\ string_all not_eol b = true
  /\ (exists rest, buf = b ++ rest /\ starts_with_eol rest)
  /\ strclean b = (n, b).
Proof.
  unfold strclean. destruct (strclean_text_spec buf) as [Hall Hrest].
  split; [ reflexivity | ]. split; [ exact Hall | ]. split; [ exact Hrest | ].
  now rewrite (strclean_text_fixed _ Hall).
Qed.

(** ** [GetOpt] *)

(** X2: [GetOpt] always returns.  What it returns is EOF, the error
    character, or a character of [optionS] other than the colon; [optarg]
    is set exactly when that character is followed by a colon in
    [optionS]. *)
Theorem GetOpt_returns_letters_of_optionS (argv : list string) (optS : string)
  (w : world) :
  exists k a w',
    GetOpt argv optS w = (Ret (k, a), w')
    /\ ((k = EOF /\ a = None /\ letP w' = None)
        \/ (k = uchar "~" /\ a = None)
        \/ exists ch optP,
             k = uchar ch /\ ch <> ":"%char /\ strchr optS ch = Some optP
             /\ (if colon_follows optP then exists s, a = Some s else a = None)).
Proof.
  destruct (GetOpt argv optS w) as [r w'] eqn:H.
  destruct w as [wdisk wout wgp wraw wpeek woptind wletP nwrt nrd ntime nclock npoll
                 nwait wtrace].
  crunch_getopt H. repeat split_getopt H.
  all: injection H as <- <-; eexists; eexists; eexists; split; [ reflexivity | ].
  all: try (left; repeat split; reflexivity).
  all: try (right; left; split; reflexivity).
  all: right; right;
    match goal with
    | E : strchr _ ?ch = Some ?p |- _ => exists ch, p
    end.
  all: split; [ reflexivity | ].
  all: split; [ intros ->; discriminate | ].
  all: split; [ assumption | ].
  all: match goal with
       | E : colon_follows _ = _ |- _ => rewrite E
       end; try reflexivity; now eexists.
Qed.

(** X3: [GetOpt] never moves [optind] back and never past [argc], so that
    [argv[optind]] is an element of [argv] or its closing null pointer when
    [main] looks at it. *)
Theorem GetOpt_keeps_optind_in_argv (argv : list string) (optS : string)
  (w : world) :
  (optind w <= List.length argv)%nat ->
  let w' := snd (GetOpt argv optS w) in
  (optind w <= optind w')%nat /\ (optind w' <= List.length argv)%nat.
Proof.
  intros Hin. cbv zeta.
  destruct (GetOpt argv optS w) as [r w'] eqn:H.
  destruct w as [wdisk wout wgp wraw wpeek woptind wletP nwrt nrd ntime nclock npoll
                 nwait wtrace].
  cbn [optind] in Hin.
  crunch_getopt H. repeat split_getopt H.
  all: injection H as <- <-; cbn [snd optind].
  all: repeat match goal with
         | E : (_ <? _)%nat = true |- _ => apply Nat.ltb_lt in E
         | E : (_ <? _)%nat = false |- _ => apply Nat.ltb_ge in E
         | E : nth_error ?l ?n = Some _ |- _ =>
             assert (n < List.length l)%nat
               by (apply nth_error_Some; rewrite E; discriminate);
             clear E
         end.
  all: lia.
Qed.

(** X3 on the first call for a command line with an option. *)
Lemma GetOpt_optind_witness :
  let argv := ["k2000"; "-a"; "3"; "out.dat"] in
  let w' := snd (GetOpt argv optionS (initial hands_off)) in
  (optind (initial hands_off) <= optind w')%nat /\ (optind w' <= List.length argv)%nat.
Proof.
  apply (GetOpt_keeps_optind_in_argv ["k2000"; "-a"; "3"; "out.dat"] optionS
           (initial hands_off)).
  cbn. lia.
Defined.

(** ** The option loop *)

Lemma fold_digits_bound ds :
  forall acc, 0 <= acc -> Forall is_digit ds ->
    0 <= fold_left (fun a d => 10 * a + d) ds acc
      < (acc + 1) * 10 ^ Z.of_nat (List.length ds).
Proof.
  induction ds as [ | d ds IH ]; intros acc Hacc Hds.
  - cbn. lia.
  - inversion Hds as [ | ? ? Hd Hrest ]; subst. unfold is_digit in Hd.
    cbn [fold_left List.length]. rewrite Nat2Z.inj_succ, Z.pow_succ_r by lia.
    specialize (IH (10 * acc + d) ltac:(lia) Hrest).
    assert (0 < 10 ^ Z.of_nat (List.length ds)) by (apply Z.pow_pos_nonneg; lia).
    nia.
Qed.

Lemma take_digits_spec w :
  forall s, Forall is_digit (take_digits w s)
            /\ (List.length (take_digits w s) <= w)%nat.
Proof.
  induction w as [ | w IH ]; intros s; cbn [take_digits].
  - split; [ constructor | cbn; lia ].
  - destruct s as [ | c r ]; [ split; [ constructor | cbn; lia ] | ].
    destruct (isdigit c) eqn:E; [ | split; [ constructor | cbn; lia ] ].
    destruct (IH r) as [Hall Hlen]. split.
    + constructor; [ | exact Hall ].
      unfold isdigit in E. apply andb_true_iff in E as [E1 E2].
      apply Z.leb_le in E1, E2. unfold is_digit. lia.
    + cbn [List.length]. lia.
Qed.

Lemma scan_digits_bound w s v :
  scan_digits w s = Some v -> 0 <= v < 10 ^ Z.of_nat w.
Proof.
  unfold scan_digits. destruct (take_digits_spec w s) as [Hall Hlen].
  destruct (take_digits w s) as [ | d ds ] eqn:E; [ discriminate | ].
  intros [= <-]. unfold digits_value.
  pose proof (fold_digits_bound (d :: ds) 0 ltac:(lia) Hall) as Hb.
  assert (10 ^ Z.of_nat (List.length (d :: ds)) <= 10 ^ Z.of_nat w)
    by (apply Z.pow_le_mono_r; lia).
  lia.
Qed.

Lemma scan_d_shape w s :
  scan_d w s = scan_digits w (skip_space s)
  \/ exists r, scan_d w s = option_map Z.opp (scan_digits (pred w) r)
               \/ scan_d w s = scan_digits (pred w) r.
Proof.
  unfold scan_d. destruct (skip_space s) as [ | c r ]; [ now left | ].
  destruct c as [[] [] [] [] [] [] [] []]; try (now left).
  all: right; exists r; auto.
Qed.

(** What "%<w>d" stores has at most [w] characters, sign included. *)
Lemma scan_d_bound w s v :
  (0 < w)%nat ->
  scan_d w s = Some v -> - 10 ^ Z.of_nat (pred w) < v < 10 ^ Z.of_nat w.
Proof.
  intros Hw H.
  assert (0 < 10 ^ Z.of_nat (pred w)) by (apply Z.pow_pos_nonneg; lia).
  assert (10 ^ Z.of_nat (pred w) <= 10 ^ Z.of_nat w)
    by (apply Z.pow_le_mono_r; lia).
  destruct (scan_d_shape w s) as [E | [r [E | E]]]; rewrite E in H.
  - apply scan_digits_bound in H. lia.
  - destruct (scan_digits (pred w) r) as [u | ] eqn:Eu; [ | discriminate ].
    injection H as <-. apply scan_digits_bound in Eu. lia.
  - apply scan_digits_bound in H. lia.
Qed.

Lemma take_word_length w : forall s, (String.length (take_word w s) <= w)%nat.
Proof.
  induction w as [ | w IH ]; intros s; cbn [take_word]; [ cbn; lia | ].
  destruct s as [ | c r ]; [ cbn; lia | ].
  destruct (isspace c); [ cbn; lia | ]. cbn [String.length]. specialize (IH r). lia.
Qed.

Lemma scan_s_length w s t : scan_s w s = Some t -> (String.length t <= w)%nat.
Proof.
  unfold scan_s. pose proof (take_word_length w (skip_space s)) as H.
  destruct (take_word w (skip_space s)); [ discriminate | ].
  now intros [= <-].
Qed.

Lemma Qltb_ge x y : Qltb x y = false -> (y <= x)%Q.
Proof.
  unfold Qltb. intros H. apply negb_false_iff in H. now apply Qle_bool_iff.
Qed.

Ltac range_facts :=
  repeat match goal with
    | H : _ || _ = false |- _ => apply orb_false_iff in H; destruct H
    | H : (_ <? _) = false |- _ => apply Z.ltb_ge in H
    | H : (_ <? _) = true |- _ => apply Z.ltb_lt in H
    | H : Qltb _ _ = false |- _ => apply Qltb_ge in H
    end.

(** A case of the [switch] that goes on with the loop keeps the variables
    in range. *)
Lemma option_case_in_range o argv k optarg c w c' w' :
  in_range c ->
  option_case o argv k optarg c w = (Ret c', w') ->
  in_range c'.
Proof.
  intros Hc H. crunch_case H. repeat split_case H.
  all: try discriminate H.
  all: injection H as <- <-.
  all: try exact Hc.
  all: destruct Hc as (Hpad & Hdelay & Hmode & Htstop & Hflush & Hcomment & Hline & Hgp).
  all: unfold in_range;
    cbn [pad delay mode tstop do_flush comment gnuplot
         set_do_overwrite set_do_graph set_do_display set_comment set_gnuplot
         set_do_flush set_pad set_delay set_tstop set_mode] in *.
  all: range_facts.
  all: repeat split; try assumption; try lia.
  all: try apply strclean_text_spec.
  all: try match goal with
         | |- context [or_keep (scan_d ?n ?a) ?old] =>
             destruct (scan_d n a) as [v | ] eqn:Escan; cbn [or_keep];
             [ apply scan_d_bound in Escan; [ cbn in Escan; lia | lia ] | lia ]
         | |- context [or_keep (scan_s ?n ?a) ?old] =>
             destruct (scan_s n a) as [t | ] eqn:Escan; cbn [or_keep];
             [ apply scan_s_length in Escan; unfold strlen; lia | assumption ]
         end.
Qed.

(** X4: whatever the command line, the variables the option loop hands to
    the rest of [main] are in range: the bus address in 0...30, the delay in
    0...600, the mode in 0...5, the time limit not negative, the flush
    interval a number of at most five characters, the comment one line
    that fits its buffer, the plot program within its buffer. *)
Theorem option_loop_keeps_ranges (o : oracle) (fuel : nat) (argv : list string) :
  forall (c : config) (w : world) (c' : config) (w' : world),
    in_range c ->
    options o fuel argv c w = (Ret c', w') ->
    in_range c'.
Proof.
  induction fuel as [ | fuel IH ]; intros c w c' w' Hc H; [ discriminate H | ].
  cbn [options] in H.
  apply bind_cases in H. destruct H as [(out & _ & E) | (r & w1 & _ & H)];
    [ discriminate E | ].
  destruct (fst r =? EOF).
  - injection H as <- _. exact Hc.
  - apply bind_cases in H. destruct H as [(out & _ & E) | (c1 & w2 & Hcase & H)];
      [ discriminate E | ].
    apply (IH c1 w2 c' w'); [ | exact H ].
    apply (option_case_in_range _ _ _ _ _ _ _ _ Hc Hcase).
Qed.

Lemma defaults_in_range : in_range defaults.
Proof. unfold in_range, defaults, strlen, MAXLEN. cbn. repeat split; try lia; discriminate. Qed.

(** X4 on a command line that sets the bus address. *)
Lemma option_loop_ranges_witness :
  in_range (set_pad 3 defaults).
Proof.
  apply (option_loop_keeps_ranges hands_off 10 ["k2000"; "-a"; "3"; "out.dat"]
           defaults (initial hands_off) (set_pad 3 defaults)
           (snd (options hands_off 10 ["k2000"; "-a"; "3"; "out.dat"] defaults
                   (initial hands_off)))).
  - apply defaults_in_range.
  - vm_compute. reflexivity.
Defined.

(** *** What the option loop leaves alone *)

Lemma console_only_refl w : console_only w w.
Proof. split; [ apply grows_refl | repeat split ]. Qed.

Lemma console_only_trans a b c :
  console_only a b -> console_only b c -> console_only a c.
Proof.
  intros (G1 & A1 & B1 & C1 & D1 & E1 & F1 & H1) (G2 & A2 & B2 & C2 & D2 & E2 & F2 & H2).
  split; [ eapply grows_trans; eauto | ].
  repeat split; congruence.
Qed.

Ltac console_leaf :=
  intros;
  match goal with
  | |- preserves console_only (modify (log (Msg ?m))) =>
      apply preserves_modify; intros; split;
      [ apply grows_log; now exists m | repeat split ]
  | |- preserves console_only (modify _) =>
      apply preserves_modify; intros; split;
      [ apply grows_same; reflexivity | repeat split ]
  end.

Lemma GetOpt_console_only argv optS : preserves console_only (GetOpt argv optS).
Proof. walk console_only_refl console_only_trans fail; console_leaf. Qed.

Lemma option_case_console_only o argv k a c :
  preserves console_only (option_case o argv k a c).
Proof. walk console_only_refl console_only_trans fail; console_leaf. Qed.

(** X5: the option loop touches nothing but the console.  Whatever the
    command line, and however the loop ends, the events it adds are
    messages, the file on disk is as it was, no stream or pipe is opened,
    the terminal mode is as it was and the bus has not been used.  A
    return from [main] out of the option loop has therefore nothing to
    release. *)
Theorem option_loop_touches_only_the_console (o : oracle) (fuel : nat)
  (argv : list string) (c : config) (w : world) :
  let w' := snd (options o fuel argv c w) in
  (exists evs, trace w' = (trace w ++ evs)%list
               /\ forall e, In e evs -> exists m, e = Msg m)
  /\ disk w' = disk w /\ outfile w' = outfile w /\ gp w' = gp w
  /\ raw_mode w' = raw_mode w /\ n_ibwrt w' = n_ibwrt w /\ n_ibrd w' = n_ibrd w.
Proof.
  cbv zeta.
  assert (preserves console_only (options o fuel argv c)) as H.
  { revert c. induction fuel as [ | fuel IH ]; intros c.
    - walk console_only_refl console_only_trans fail.
    - cbn [options].
      walk console_only_refl console_only_trans
        ltac:(first [ apply IH | apply GetOpt_console_only
                    | apply option_case_console_only ]). }
  destruct (H w) as ((evs & Htr & Hall) & Hd & Ho & Hg & Hr & _ & Hw & Hrd).
  split; [ | now repeat split ].
  exists evs. split; [ exact Htr | ].
  intros e Hin. rewrite Forall_forall in Hall. exact (Hall e Hin).
Qed.

(** *** How the option loop ends *)

(** [GetOpt] sets [optarg] for every option whose case reads it. *)
Lemma optarg_given argv w k w' :
  GetOpt argv optionS w = (Ret (k, None), w') -> takes_argument k = false.
Proof.
  intros H.
  destruct w as [wdisk wout wgp wraw wpeek woptind wletP nwrt nrd ntime nclock npoll
                 nwait wtrace].
  crunch_getopt H. repeat split_getopt H.
  all: try discriminate H.
  all: injection H as <- _; try reflexivity.
  all: match goal with
       | |- takes_argument ?k = false => destruct (takes_argument k) eqn:T
       end; [ exfalso | reflexivity ].
  all: unfold takes_argument in T; cbn [existsb map] in T.
  all: repeat (apply orb_true_iff in T; destruct T as [T | T]); try discriminate T.
  all: apply Z.eqb_eq, uchar_inj in T; subst.
  all: match goal with
       | E : strchr optionS _ = Some _ |- _ => vm_compute in E; injection E as <-
       end.
  all: match goal with
       | E : colon_follows _ = false |- _ => discriminate E
       end.
Qed.

Lemma option_case_outcomes o argv k optarg c w out w' :
  (optarg = None -> takes_argument k = false) ->
  option_case o argv k optarg c w = (Halt out, w') ->
  out = Exit 0 \/ out = Exit 1 \/ out = Fault OutOfBounds.
Proof.
  intros Harg H. destruct optarg as [s | ].
  - crunch_case H. repeat split_case H.
    all: try discriminate H.
    all: injection H as <- _; auto.
  - specialize (Harg eq_refl). unfold takes_argument in Harg.
    cbn [existsb map] in Harg.
    repeat (apply orb_false_iff in Harg; destruct Harg as [? Harg]).
    crunch_case H.
    repeat match goal with
      | E : (k =? _) = false |- _ => rewrite E in H; clear E
      end.
    repeat split_case H.
    all: try discriminate H.
    all: injection H as <- _; auto.
Qed.

Lemma options_outcomes o fuel argv :
  forall c w,
    (pending argv w < fuel)%nat ->
    match fst (options o fuel argv c w) with
    | Ret _ => True
    | Halt out => out = Exit 0 \/ out = Exit 1 \/ out = Fault OutOfBounds
    end.
Proof.
  induction fuel as [ | fuel IH ]; intros c w Hfuel; [ lia | ].
  cbn [options]. unfold bind at 1.
  destruct (GetOpt argv optionS w) as [r w1] eqn:Hget.
  destruct (GetOpt_progress _ _ _ _ _ Hget) as (k & a & -> & Hk).
  cbn [fst snd].
  destruct (Z.eqb_spec k EOF) as [-> | Hne]; [ exact I | ].
  unfold bind.
  destruct (option_case o argv k a c w1) as [[c' | out] w2] eqn:Hcase.
  - pose proof (option_case_cases _ _ _ _ _ _ _ _ Hcase) as Hw. cbn in Hw. subst w2.
    destruct Hk as [-> | [-> | Hk]]; [ contradiction | | ].
    + destruct (option_case_error o argv a c w1) as [w3 E]. congruence.
    + apply IH. lia.
  - cbn [fst]. refine (option_case_outcomes _ _ _ _ _ _ _ _ _ Hcase).
    intros ->. apply (optarg_given _ _ _ _ Hget).
Qed.

(** X6: the option loop always comes to an end, in EOF from [GetOpt] or
    in a return from [main] with 0 (the help text) or 1 (a bad option).
    Every call of [GetOpt] that goes on takes a character of the command
    line, and [optarg] is never null where a case of the [switch] reads
    it; what is left as undefined behaviour is the [strcpy] of a comment
    that does not fit its buffer. *)
Theorem option_loop_ends (o : oracle) (argv : list string) (c : config) (w : world) :
  letP w = None ->
  match fst (options o (options_fuel argv) argv c w) with
  | Ret _ => True
  | Halt out => out = Exit 0 \/ out = Exit 1 \/ out = Fault OutOfBounds
  end.
Proof.
  intros Hnone. apply options_outcomes. unfold pending, options_fuel. rewrite Hnone.
  pose proof (chars_skipn_all argv (optind w)). lia.
Qed.

(** X6 on a command line that asks for the help text. *)
Lemma option_loop_ends_witness :
  match fst (options hands_off (options_fuel ["k2000"; "-h"]) ["k2000"; "-h"]
               defaults (initial hands_off)) with
  | Ret _ => True
  | Halt out => out = Exit 0 \/ out = Exit 1 \/ out = Fault OutOfBounds
  end.
Proof.
  apply (option_loop_ends hands_off ["k2000"; "-h"] defaults (initial hands_off)).
  reflexivity.
Defined.

(** ** The keyboard *)

(** X7: a key that [kbhit] has found is kept for [readch].  With no key
    held back, a byte other than 0xFF waiting at the terminal makes
    [kbhit] answer 1; a second [kbhit] answers 1 again without reading the
    terminal, and [readch] then returns that byte without waiting, after
    which no key is held back any more. *)
Theorem kbhit_keeps_the_key_for_readch (o : oracle) (w : world) (ch : ascii) :
  peek_character w = -1 ->
  tty_poll o (n_poll w) = Some ch ->
  schar ch <> -1 ->
  exists w',
    (h1 <- kbhit o;; h2 <- kbhit o;; k <- readch o;; ret (h1, h2, k)) w
    = (Ret (1, 1, schar ch), w')
    /\ trace w' = (trace w ++ [PollTty])%list
    /\ n_poll w' = S (n_poll w)
    /\ n_wait w' = n_wait w
    /\ peek_character w' = -1.
Proof.
  intros Hpeek Hpoll Hch.
  destruct w as [wdisk wout wgp wraw wpeek woptind wletP nwrt nrd ntime nclock npoll
                 nwait wtrace].
  crunch_in Hpeek. crunch_in Hpoll. subst wpeek.
  crunch. change (-1 =? -1) with true. crunch. rewrite Hpoll. crunch.
  apply Z.eqb_neq in Hch. repeat (rewrite Hch; crunch).
  eexists. split; [ reflexivity | ]. crunch. repeat split.
Qed.

(** X7 with q waiting at the terminal. *)
Lemma kbhit_keeps_the_key_witness :
  let o := quit_at_once in
  let w := initial o in
  exists w',
    (h1 <- kbhit o;; h2 <- kbhit o;; k <- readch o;; ret (h1, h2, k)) w
    = (Ret (1, 1, schar "q"), w')
    /\ trace w' = (trace w ++ [PollTty])%list
    /\ n_poll w' = S (n_poll w)
    /\ n_wait w' = n_wait w
    /\ peek_character w' = -1.
Proof.
  apply (kbhit_keeps_the_key_for_readch quit_at_once (initial quit_at_once) "q").
  - reflexivity.
  - reflexivity.
  - vm_compute. discriminate.
Defined.

(** X8: the value -1 of [peek_character] stands for "no key held back" as
    well as for the byte 0xFF.  When that byte waits at the terminal,
    [kbhit] takes it and answers 1, but [readch] does not find it: it
    waits for another byte and returns that one. *)
Theorem kbhit_loses_the_byte_255 (o : oracle) (w : world) (ch : ascii) :
  peek_character w = -1 ->
  tty_poll o (n_poll w) = Some ch ->
  schar ch = -1 ->
  exists w',
    (h <- kbhit o;; k <- readch o;; ret (h, k)) w
    = (Ret (1, schar (tty_wait o (n_wait w))), w')
    /\ trace w' = (trace w ++ [PollTty; WaitTty])%list
    /\ n_wait w' = S (n_wait w).
Proof.
  intros Hpeek Hpoll Hch.
  destruct w as [wdisk wout wgp wraw wpeek woptind wletP nwrt nrd ntime nclock npoll
                 nwait wtrace].
  crunch_in Hpeek. crunch_in Hpoll. subst wpeek.
  crunch. change (-1 =? -1) with true. crunch. rewrite Hpoll. crunch.
  repeat (rewrite Hch; change (-1 =? -1) with true; crunch).
  eexists. split; [ reflexivity | ]. crunch. rewrite <- app_assoc. repeat split.
Qed.

(** X8 with the byte 0xFF waiting at the terminal. *)
Lemma kbhit_byte_255_witness :
  let o := bench always_ok steady_reading one_second_ticks
             (key_at 0 (ascii_of_nat 255)) in
  let w := initial o in
  exists w',
    (h <- kbhit o;; k <- readch o;; ret (h, k)) w
    = (Ret (1, schar (tty_wait o (n_wait w))), w')
    /\ trace w' = (trace w ++ [PollTty; WaitTty])%list
    /\ n_wait w' = S (n_wait w).
Proof.
  apply (kbhit_loses_the_byte_255
           (bench always_ok steady_reading one_second_ticks
              (key_at 0 (ascii_of_nat 255)))
           (initial (bench always_ok steady_reading one_second_ticks
                       (key_at 0 (ascii_of_nat 255))))
           (ascii_of_nat 255)).
  - reflexivity.
  - reflexivity.
  - reflexivity.
Defined.

(** ** How the loop goes on and ends *)

Lemma same_time_refl w : same_time w w.
Proof. reflexivity. Qed.

Lemma same_time_trans a b c : same_time a b -> same_time b c -> same_time a c.
Proof. unfold same_time. congruence. Qed.

Lemma sample_same_time o c file t0 l : preserves same_time (sample o c file t0 l).
Proof.
  walk same_time_refl same_time_trans fail;
    intros; apply preserves_modify; intros; reflexivity.
Qed.




(** X10: without a time limit the loop does not end by itself.  With
    [tstop] at 0, as long as the instrument answers and no key is
    pressed, every round takes a sample and is followed by another one:
    after any number [n] of rounds the loop is still going and the output
    file is still open; [n] samples have been shown, numbered one after
    the other from the count the loop started with (modulo 2^64, the
    counter being an [unsigned long]). *)
Theorem no_time_limit_no_end (o : oracle) (c : config) (file : string) (t0 : Z)
  (n : nat) :
  forall (l : locals) (w : world) (d : string),
  (tstop c <= 0)%Q ->
  outfile w = Some d ->
  (do_graph c = true -> gp w = true) ->
  do_flush c mod two64 <> 0 ->
  peek_character w = -1 ->
  stop_key (key l) = false ->
  (forall i, (i < n)%nat ->
     ibwrt_ok o (n_ibwrt w + i) ":read?" = true
     /\ exists data, ibrd_data o (n_ibrd w + i) = Some data /\ data <> "") ->
  (forall i, (i < n)%nat -> tty_poll o (n_poll w + i) = None) ->
  exists w' evs d',
    sampling o n c file t0 l w = (Halt Running, w')
    /\ trace w' = (trace w ++ evs)%list
    /\ map fst (progress evs)
       = map (fun i => (loop l + Z.of_nat (S i)) mod two64) (seq 0 n)
    /\ outfile w' = Some d'.
Proof.
  induction n as [ | n IH ];
    intros l w d Hlimit Hout Hgp Hflush Hpeek Hkey Hinst Hquiet.
  - exists w, [], d. repeat split; [ now rewrite app_nil_r | exact Hout ].
  - destruct (Hinst 0%nat (Nat.lt_0_succ _)) as [Hsend [data [Hread Hdata]]].
    rewrite Nat.add_0_r in Hsend, Hread.
    pose proof (Hquiet 0%nat (Nat.lt_0_succ _)) as Hnone. rewrite Nat.add_0_r in Hnone.
    destruct (sample_round o c file t0 l w d data Hout Hgp Hflush Hpeek Hsend Hread Hdata)
      as (w1 & evs1 & Hrun & Htr & Hout1 & Hgp1 & Hpeek1 & Hw1 & Hr1 & Hc1 & Hp1
            & _ & Hprog & _).
    unfold key_after in Hrun. rewrite Hnone in Hrun.
    rewrite (Qltb_false _ _ Hlimit), andb_false_r in Hrun.
    destruct (IH {| loop := (loop l + 1) mod two64; key := key l |} w1 _
                Hlimit Hout1)
      as (w' & evs & d' & Hrest & Htr' & Hlen & Hout'); auto.
    + now rewrite Hgp1.
    + intros i Hi. rewrite Hw1, Hr1.
      replace (S (n_ibwrt w) + i)%nat with (n_ibwrt w + S i)%nat by lia.
      replace (S (n_ibrd w) + i)%nat with (n_ibrd w + S i)%nat by lia.
      apply Hinst. lia.
    + intros i Hi. rewrite Hp1.
      replace (S (n_poll w) + i)%nat with (n_poll w + S i)%nat by lia.
      apply Hquiet. lia.
    + exists w', (evs1 ++ evs)%list, d'. split.
      * rewrite (sampling_step _ _ _ _ _ _ _ _ _ Hrun). cbn [key].
        rewrite Hkey. exact Hrest.
      * repeat split.
        -- now rewrite Htr', Htr, app_assoc.
        -- rewrite progress_app, map_app, Hprog, Hlen.
           cbn [map fst app seq loop]. f_equal.
           rewrite <- seq_shift, map_map. apply map_ext. intros i.
           rewrite Zplus_mod_idemp_l. f_equal. lia.
        -- exact Hout'.
Qed.

(** X10 on three rounds with nothing typed. *)
Lemma no_time_limit_witness :
  let o := hands_off in
  let w := at_loop o "" in
  exists w' evs d',
    sampling o 3 no_graph "out.dat" 0 first_round w = (Halt Running, w')
    /\ trace w' = (trace w ++ evs)%list
    /\ map fst (progress evs)
       = map (fun i => (loop first_round + Z.of_nat (S i)) mod two64) (seq 0 3)
    /\ outfile w' = Some d'.
Proof.
  intros o w.
  apply (no_time_limit_no_end o no_graph "out.dat" 0 3 first_round w "").
  - intros H. discriminate H.
  - reflexivity.
  - intros H. discriminate H.
  - intros H. discriminate H.
  - reflexivity.
  - reflexivity.
  - intros i _. split; [ reflexivity | ].
    exists ("+1.2345E+00" ++ LF). split; [ reflexivity | discriminate ].
  - intros i _. reflexivity.
Defined.

(** ** The flush interval and the delay *)

(** X11: with a positive flush interval, the round in which the number of
    samples reaches a multiple of it flushes the output file, so that the
    file on disk holds every line logged so far, and refreshes the plot
    when graphing is on; any other round does neither, and the file on
    disk gains only what the C library writes by itself when the line is
    put into the stream. *)
Theorem flush_every_nth_sample (o : oracle) (c : config) (file : string) (t0 : Z)
  (l : locals) (w : world) (d data : string) :
  outfile w = Some d ->
  (do_graph c = true -> gp w = true) ->
  0 < do_flush c < two64 ->
  peek_character w = -1 ->
  ibwrt_ok o (n_ibwrt w) ":read?" = true ->
  ibrd_data o (n_ibrd w) = Some data ->
  data <> "" ->
  let line := data_line (elapsed t0 (clock o (n_clock w)))
                (reading_of (substring 0 (Z.to_nat 90) data)) in
  exists r w',
    sample o c file t0 l w = (Ret r, w')
    /\ outfile w' = Some (d ++ line)
    /\ if (loop l + 1) mod two64 mod do_flush c =? 0
       then disk w' = Some (d ++ line)
            /\ In Fflush (added w w')
            /\ plotted (added w w') = (if do_graph c then [plot_command file] else [])
       else disk w' = written_through o (disk w) (d ++ line)
            /\ ~ In Fflush (added w w')
            /\ plotted (added w w') = [].
Proof.
  intros Hout Hgp Hflush Hpeek Hsend Hread Hdata line.
  destruct w as [wdisk wout wgp wraw wpeek woptind wletP nwrt nrd ntime nclock npoll
                 nwait wtrace].
  crunch_in Hout. crunch_in Hgp. crunch_in Hpeek. crunch_in Hsend. crunch_in Hread.
  subst. subst line. unfold reading_of, plot_command.
  assert ((do_flush c =? 0) = false) as Hnz by (apply Z.eqb_neq; lia).
  crunch. rewrite (Z.mod_small (do_flush c) two64) by lia.
  destruct (0 <? delay c); crunch;
    rewrite Hsend; crunch; rewrite Hread; crunch;
    rewrite (cut_last_run _ _ Hdata); crunch; rewrite Hnz; crunch.
  all: match goal with
       | |- context [if ?b =? 0 then _ else _] => destruct (b =? 0)
       end; crunch.
  all: try (destruct (do_graph c); [ rewrite (Hgp eq_refl) | ]; crunch).
  all: change (-1 =? -1) with true; crunch.
  all: destruct (tty_poll o npoll) as [ch | ]; crunch.
  all: try (destruct (schar ch =? -1) eqn:Hch; crunch;
            [ apply Z.eqb_eq in Hch; rewrite ?Hch; change (-1 =? -1) with true
            | rewrite ?Hch ]; crunch).
  all: eexists; eexists; split; [ reflexivity | ]; crunch.
  all: rewrite <- ?app_assoc; rewrite skipn_added.
  all: split; [ reflexivity | ].
  all: split; [ reflexivity | ].
  all: split; [ try (cbn; tauto); cbn; intuition discriminate | ].
  all: reflexivity.
Qed.

(** X11 on the second sample of a run with a flush interval of 2. *)
Lemma flush_every_nth_witness :
  let o := hands_off in
  let c := set_do_flush 2 no_graph in
  let l := {| loop := 1; key := 0 |} in
  let w := at_loop o "" in
  let line := data_line (elapsed 0 (clock o (n_clock w)))
                (reading_of (substring 0 (Z.to_nat 90) ("+1.2345E+00" ++ LF))) in
  exists r w',
    sample o c "out.dat" 0 l w = (Ret r, w')
    /\ outfile w' = Some ("" ++ line)
    /\ if (loop l + 1) mod two64 mod do_flush c =? 0
       then disk w' = Some ("" ++ line)
            /\ In Fflush (added w w')
            /\ plotted (added w w') = (if do_graph c then [plot_command "out.dat"] else [])
       else disk w' = written_through o (disk w) ("" ++ line)
            /\ ~ In Fflush (added w w')
            /\ plotted (added w w') = [].
Proof.
  intros o c l w.
  apply (flush_every_nth_sample o c "out.dat" 0 l w "" ("+1.2345E+00" ++ LF)).
  - reflexivity.
  - intros H. discriminate H.
  - split; reflexivity.
  - reflexivity.
  - reflexivity.
  - reflexivity.
  - discriminate.
Defined.

(** X12: a negative flush interval, which -w accepts, switches flushing
    off.  The test [loop % do_flush] is made in [unsigned long], where the
    interval stands for a number just below 2^64, so that no sample count
    below that number is a multiple of it: the round neither flushes the
    file nor refreshes the plot. *)
Theorem negative_flush_interval_never_flushes (c : config) (file : string)
  (loop' : Z) (w : world) :
  - two64 < do_flush c < 0 ->
  0 < loop' < two64 + do_flush c ->
  refresh c file loop' w = (Ret tt, w).
Proof.
  intros Hflush Hloop. unfold refresh.
  assert (do_flush c mod two64 = two64 + do_flush c) as ->.
  { symmetry. apply (Z.mod_unique _ _ (-1)); lia. }
  destruct (Z.eqb_spec (two64 + do_flush c) 0) as [E | _]; [ lia | ].
  rewrite (Z.mod_small loop') by lia.
  destruct (Z.eqb_spec loop' 0) as [E | _]; [ lia | ].
  reflexivity.
Qed.

(** X12 on the thousandth sample with a flush interval of -5. *)
Lemma negative_flush_interval_witness :
  refresh (set_do_flush (-5) defaults) "out.dat" 1000 (initial hands_off)
  = (Ret tt, initial hands_off).
Proof.
  apply (negative_flush_interval_never_flushes (set_do_flush (-5) defaults) "out.dat"
           1000 (initial hands_off)).
  - split; reflexivity.
  - split; reflexivity.
Defined.

Lemma trigger_trace o c w :
  exists rest,
    trace (snd (trigger o c w))
    = (trace w ++ (if 0 <? delay c then [Usleep (delay c * 100000)] else [])
         ++ Ibwrt ":read?" :: rest)%list
    /\ Forall no_sleep rest.
Proof.
  destruct w as [wdisk wout wgp wraw wpeek woptind wletP nwrt nrd ntime nclock npoll
                 nwait wtrace].
  crunch. destruct (0 <? delay c); crunch.
  all: destruct (ibwrt_ok o nwrt ":read?"); crunch.
  all: try (destruct wgp; crunch).
  all: try (destruct wout; crunch).
  all: rewrite <- ?app_assoc; cbn [app].
  all: eexists; split; [ reflexivity | ].
  all: repeat constructor; intros us; discriminate.
Qed.

Lemma after_trigger_no_sleep o c file t0 l :
  preserves (grows no_sleep)
    (r <- ibrd o 90;;
     match r with
     | None => say ReadError;; ret (Break l)
     | Some data => log_reading o c file t0 l data
     end).
Proof. grow no_sleep fail; intros us; discriminate. Qed.

(** X13: every round of the loop begins with the delay and the read
    command.  When [delay] is positive the program sleeps once, for
    [delay] tenths of a second, and then sends ":read?"; when it is 0 the
    command is sent at once.  Nothing else in the round sleeps. *)
Theorem round_sleeps_then_reads (o : oracle) (c : config) (file : string) (t0 : Z)
  (l : locals) (w : world) :
  exists rest,
    added w (snd (sample o c file t0 l w))
    = ((if 0 <? delay c then [Usleep (delay c * 100000)] else [])
       ++ Ibwrt ":read?" :: rest)%list
    /\ forall us, ~ In (Usleep us) rest.
Proof.
  destruct (trigger_trace o c w) as (rest1 & Htr1 & Hall1).
  unfold sample, bind at 1.
  destruct (trigger o c w) as [[[] | out] w1]; cbn [snd] in *.
  - destruct (after_trigger_no_sleep o c file t0 l w1) as (rest2 & Htr2 & Hall2).
    exists (rest1 ++ rest2)%list. split.
    + apply added_app. rewrite Htr2, Htr1. rewrite <- !app_assoc. reflexivity.
    + intros us Hin. apply in_app_or in Hin.
      rewrite Forall_forall in Hall1, Hall2.
      destruct Hin as [Hin | Hin];
        [ apply (Hall1 _ Hin us) | apply (Hall2 _ Hin us) ]; reflexivity.
  - exists rest1. split.
    + apply added_app. exact Htr1.
    + intros us Hin. rewrite Forall_forall in Hall1. now apply (Hall1 _ Hin us).
Qed.

(** ** The codes [main] returns *)

Lemma ends_in_ret A Q (P : A -> Prop) a : P a -> ends_in Q P (ret a).
Proof. intros H w. exact H. Qed.

Lemma ends_in_exit A (Q : Z -> Prop) (P : A -> Prop) n : Q n -> ends_in Q P (halt (Exit n)).
Proof. intros H w. exact H. Qed.

Lemma ends_in_fault A Q (P : A -> Prop) f : ends_in Q P (halt (Fault f)).
Proof. intros w. exact I. Qed.

Lemma ends_in_running A Q (P : A -> Prop) : ends_in Q P (halt Running).
Proof. intros w. exact I. Qed.

Lemma ends_in_get Q : ends_in Q anything get.
Proof. intros w. exact I. Qed.

Lemma ends_in_modify Q f : ends_in Q anything (modify f).
Proof. intros w. exact I. Qed.

Lemma ends_in_bind A B Q (P : B -> Prop) (m : M A) (k : A -> M B) :
  ends_in Q anything m -> (forall a, ends_in Q P (k a)) -> ends_in Q P (bind m k).
Proof.
  intros Hm Hk w. unfold bind. specialize (Hm w).
  destruct (m w) as [[a | out] w1]; cbn [fst] in *; [ apply Hk | exact Hm ].
Qed.

Lemma ends_in_anything A Q (P : A -> Prop) (m : M A) :
  ends_in Q P m -> ends_in Q anything m.
Proof.
  intros H w. specialize (H w).
  destruct (fst (m w)) as [a | [n | f | ]]; try exact I. exact H.
Qed.

(** One step through a computation, as [walk_step] does it for
    [preserves]. *)
Ltac code_step known :=
  intros;
  match goal with
  | |- ends_in _ _ _ => solve [ known ]
  | |- ends_in _ _ (ret _) => apply ends_in_ret
  | |- ends_in _ _ (halt (Exit _)) => apply ends_in_exit
  | |- ends_in _ _ (halt (Fault _)) => apply ends_in_fault
  | |- ends_in _ _ (halt Running) => apply ends_in_running
  | |- ends_in _ _ get => apply ends_in_get
  | |- ends_in _ _ (modify _) => apply ends_in_modify
  | |- ends_in _ _ (bind _ _) => apply ends_in_bind
  | |- ends_in _ _ (match ?x with _ => _ end) => destruct x
  | |- ends_in _ _ ?m => let h := head_of m in progress unfold h
  end.

Ltac codes known := repeat code_step known; try exact I.

Lemma sampling_codes o fuel c file t0 :
  forall l, ends_in (fun n => n = ERR_INST) anything (sampling o fuel c file t0 l).
Proof.
  induction fuel as [ | fuel IH ]; intros l.
  - codes fail.
  - cbn [sampling]. codes ltac:(apply IH). reflexivity.
Qed.

Lemma measure_codes o fuel c file :
  ends_in (fun n => n = ERR_INST) (fun n => n = 0) (measure o fuel c file).
Proof. codes ltac:(apply sampling_codes); reflexivity. Qed.

Lemma options_codes o fuel argv :
  forall c, ends_in (fun n => n = 0 \/ n = 1) anything (options o fuel argv c).
Proof.
  induction fuel as [ | fuel IH ]; intros c.
  - codes fail.
  - cbn [options]. codes ltac:(apply IH); auto.
Qed.

Lemma exit_code_instrument n : n = ERR_INST -> exit_code n.
Proof. unfold exit_code. auto. Qed.

Lemma exit_code_success n : n = 0 -> exit_code n.
Proof. unfold exit_code. auto. Qed.

Lemma exit_code_options n : n = 0 \/ n = 1 -> exit_code n.
Proof. unfold exit_code. intros [H | H]; auto. Qed.

Lemma ends_in_weaken A (Q Q' : Z -> Prop) (P P' : A -> Prop) (m : M A) :
  (forall n, Q n -> Q' n) -> (forall a, P a -> P' a) ->
  ends_in Q P m -> ends_in Q' P' m.
Proof.
  intros HQ HP H w. specialize (H w).
  destruct (fst (m w)) as [a | [n | f | ]]; auto.
Qed.

(** X14: the codes of [main].  Whatever the command line and whatever the
    surroundings answer, a run that returns from [main] returns 0, 1, 4
    (ERR_FILE) or 5 (ERR_INST); the part from the first bus call on
    returns 0 or 5 only. *)
Theorem main_returns_0_1_4_or_5 (o : oracle) (fuel : nat) (argv : list string) :
  match fst (main o fuel argv) with
  | Exit n => n = 0 \/ n = 1 \/ n = ERR_FILE \/ n = ERR_INST
  | _ => True
  end
  /\ forall c file w,
       match fst (measure o fuel c file w) with
       | Ret n => n = 0
       | Halt (Exit n) => n = ERR_INST
       | Halt _ => True
       end.
Proof.
  split; [ | intros c file w; apply (measure_codes o fuel c file w) ].
  assert (ends_in exit_code exit_code (main_body o fuel argv)) as H.
  { unfold main_body, acquire.
    codes ltac:(first
      [ apply (ends_in_weaken _ _ _ _ _ _ exit_code_options (fun a H => H)
                 (options_codes o _ argv _))
      | apply (ends_in_weaken _ _ _ _ _ _ exit_code_instrument exit_code_success
                 (measure_codes o fuel _ _)) ]).
    all: unfold exit_code; auto. }
  specialize (H (initial o)). unfold main.
  destruct (main_body o fuel argv (initial o)) as [[code | [n | f | ]] w'];
    cbn [fst] in *; try exact I; exact H.
Qed.

(** ** Returns before the instrument is reached *)

Lemma nothing_opened_refl w : nothing_opened w w.
Proof. split; [ apply grows_refl | repeat split ]. Qed.

Lemma nothing_opened_trans a b c :
  nothing_opened a b -> nothing_opened b c -> nothing_opened a c.
Proof.
  intros (G1 & A1 & B1 & C1 & D1 & E1 & F1) (G2 & A2 & B2 & C2 & D2 & E2 & F2).
  split; [ eapply grows_trans; eauto | ].
  repeat split; congruence.
Qed.

Ltac early_leaf :=
  intros;
  match goal with
  | |- preserves nothing_opened (modify (log _)) =>
      apply preserves_modify; intros; split;
      [ apply grows_log; exact I | repeat split ]
  | |- preserves nothing_opened (modify _) =>
      apply preserves_modify; intros; split;
      [ apply grows_same; reflexivity | repeat split ]
  end.

Lemma options_nothing_opened o fuel argv :
  forall c, preserves nothing_opened (options o fuel argv c).
Proof.
  induction fuel as [ | fuel IH ]; intros c.
  - walk nothing_opened_refl nothing_opened_trans fail.
  - cbn [options].
    walk nothing_opened_refl nothing_opened_trans ltac:(apply IH); early_leaf.
Qed.

Ltac crunch_output H :=
  lazy beta iota zeta delta
    [prepare_output fopen_wt
     bind get emit say modify ret halt log
     set_disk set_outfile set_gp set_raw_mode set_peek_character set_optind
     set_letP
     disk outfile gp raw_mode peek_character optind letP
     n_ibwrt n_ibrd n_time n_clock n_poll n_wait trace fst snd] in H.

Ltac split_output H :=
  match type of H with
  | context [if ?b then _ else _] =>
      lazymatch b with
      | context [if _ then _ else _] => fail
      | context [match _ with _ => _ end] => fail
      | _ => destruct b eqn:?
      end
  | context [match ?x with _ => _ end] =>
      lazymatch x with
      | context [if _ then _ else _] => fail
      | context [match _ with _ => _ end] => fail
      | _ => destruct x eqn:?
      end
  end; crunch_output H.

(** The opening of the output file: it goes on, or it returns 1 (the user
    has not agreed) or 4 (the file cannot be created) with nothing
    opened. *)
Lemma prepare_output_cases o c file w r w' :
  prepare_output o c file w = (r, w') ->
  r = Ret tt
  \/ (nothing_opened w w'
      /\ (r = Halt (Exit 1) \/ (r = Halt (Exit ERR_FILE) /\ fopen_ok o = false))).
Proof.
  intros H.
  destruct w as [wdisk wout wgp wraw wpeek woptind wletP nwrt nrd ntime nclock npoll
                 nwait wtrace].
  crunch_output H. repeat split_output H.
  all: injection H as <- <-; auto.
  all: right; split; [ | auto ].
  all: split; [ | repeat split ].
  all: eexists; cbn [trace]; split; [ rewrite <- ?app_assoc; reflexivity | ].
  all: repeat constructor.
Qed.

(** X15: a run that returns 1 or 4 has opened nothing.  These are the
    returns of the option loop, of the check for a data file name, of the
    overwrite prompt and of a failed [fopen]: the file at the output path
    is as it was before the run, no stream and no pipe is open, the
    terminal is in its own mode, and the bus has not been used; 4 is
    returned only when the file could not be created. *)
Theorem early_returns_open_nothing (o : oracle) (fuel : nat) (argv : list string)
  (n : Z) :
  fst (main o fuel argv) = Exit n ->
  n = 1 \/ n = ERR_FILE ->
  let w' := snd (main o fuel argv) in
  disk w' = existing o
  /\ outfile w' = None
  /\ gp w' = false
  /\ raw_mode w' = false
  /\ n_ibwrt w' = 0%nat
  /\ n_ibrd w' = 0%nat
  /\ Forall early_event (trace w')
  /\ (n = ERR_FILE -> fopen_ok o = false).
Proof.
  intros Hn Hcode. cbv zeta.
  assert (forall r w', main_body o fuel argv (initial o) = (r, w') ->
            (r = Ret n \/ r = Halt (Exit n)) ->
            nothing_opened (initial o) w' /\ (n = ERR_FILE -> fopen_ok o = false))
    as Hbody.
  { intros r w' H Hr. unfold main_body in H.
    apply bind_cases in H. destruct H as [(out & H & ->) | ([] & w1 & H1 & H)].
    { discriminate H. }
    assert (nothing_opened (initial o) w1) as Hw1.
    { injection H1 as <-. split; [ apply grows_log; exact I | repeat split ]. }
    apply bind_cases in H. destruct H as [(out & H & ->) | (c & w2 & H2 & H)].
    - pose proof (options_nothing_opened o (options_fuel argv) argv defaults w1) as Hopt.
      pose proof (options_codes o (options_fuel argv) argv defaults w1) as Hc.
      rewrite H in Hopt, Hc. cbn [fst snd] in Hopt, Hc.
      split; [ apply (nothing_opened_trans _ _ _ Hw1 Hopt) | ].
      destruct Hr as [Hr | Hr]; [ discriminate Hr | ]. injection Hr as ->.
      intros ->. destruct Hc as [Hc | Hc]; discriminate Hc.
    - pose proof (options_nothing_opened o (options_fuel argv) argv defaults w1) as Hopt.
      rewrite H2 in Hopt. cbn [snd] in Hopt.
      pose proof (nothing_opened_trans _ _ _ Hw1 Hopt) as Hw2.
      unfold bind at 1, get at 1 in H.
      destruct (nth_error argv (optind w2)) as [file | ].
      + apply bind_cases in H. destruct H as [(out & H & ->) | ([] & w3 & H3 & H)].
        { unfold strcpy_check in H. destruct (strlen file <? MAXLEN);
            [ discriminate H | ].
          injection H as <- _. destruct Hr as [Hr | Hr]; discriminate Hr. }
        assert (w3 = w2) as ->.
        { unfold strcpy_check in H3. destruct (strlen file <? MAXLEN);
            [ now injection H3 | discriminate H3 ]. }
        unfold acquire in H.
        apply bind_cases in H. destruct H as [(out & H & ->) | ([] & w4 & H4 & H)].
        * destruct (prepare_output_cases _ _ _ _ _ _ H) as [E | [Hw [E | [E Hopen]]]];
            [ discriminate E | | ].
          -- split; [ apply (nothing_opened_trans _ _ _ Hw2 Hw) | ].
             destruct Hr as [Hr | Hr]; [ discriminate Hr | ].
             injection E as ->. injection Hr as <-. intros E'. discriminate E'.
          -- split; [ apply (nothing_opened_trans _ _ _ Hw2 Hw) | ].
             intros _. exact Hopen.
        * exfalso. pose proof (measure_codes o fuel c file w4) as Hm.
          rewrite H in Hm. cbn [fst] in Hm.
          destruct Hr as [-> | ->]; subst n; destruct Hcode as [E | E];
            discriminate E.
      + unfold bind, say, emit, modify, halt in H. injection H as <- <-.
        split.
        * eapply nothing_opened_trans; [ exact Hw2 | ].
          split; [ | repeat split ].
          exists [Msg Usage; Msg NeedDataFile]. cbn [trace log].
          split; [ now rewrite <- app_assoc | repeat constructor ].
        * destruct Hr as [Hr | Hr]; [ discriminate Hr | ]. injection Hr as <-.
          intros E. discriminate E. }
  unfold main in *.
  destruct (main_body o fuel argv (initial o)) as [[code | out] w'] eqn:Hrun;
    cbn [fst snd] in *.
  - injection Hn as ->.
    destruct (Hbody _ _ eq_refl (or_introl eq_refl))
      as (((evs & Htr & Hall) & Hd & Ho & Hg & Hr & Hw & Hrd) & Hopen).
    cbn in Hd, Ho, Hg, Hr, Hw, Hrd, Htr. rewrite Htr. auto 10.
  - subst out.
    destruct (Hbody _ _ eq_refl (or_intror eq_refl))
      as (((evs & Htr & Hall) & Hd & Ho & Hg & Hr & Hw & Hrd) & Hopen).
    cbn in Hd, Ho, Hg, Hr, Hw, Hrd, Htr. rewrite Htr. auto 10.
Qed.

(** X15 on a run in which the user does not agree to overwrite. *)
Lemma early_returns_witness :
  let o := file_in_the_way in
  let w' := snd (main o 3 argv_plain) in
  disk w' = existing o
  /\ outfile w' = None
  /\ gp w' = false
  /\ raw_mode w' = false
  /\ n_ibwrt w' = 0%nat
  /\ n_ibrd w' = 0%nat
  /\ Forall early_event (trace w')
  /\ (1 = ERR_FILE -> fopen_ok o = false).
Proof.
  intros o.
  apply (early_returns_open_nothing o 3 argv_plain 1).
  - vm_compute. reflexivity.
  - left. reflexivity.
Defined.

(** ** What is released when the loop has been entered *)

















(** ** The plot pipe when graphing is switched off *)

Lemma same_gp_refl w : same_gp w w.
Proof. reflexivity. Qed.

Lemma same_gp_trans a b c : same_gp a b -> same_gp b c -> same_gp a c.
Proof. unfold same_gp. congruence. Qed.

Ltac pipe_leaf := intros; apply preserves_modify; intros; reflexivity.

Lemma connect_same_gp o c : do_graph c = false -> preserves same_gp (connect o c).
Proof.
  intros Hg. unfold connect, handshake. rewrite Hg.
  walk same_gp_refl same_gp_trans fail; pipe_leaf.
Qed.

Lemma stopping_same_gp o c : do_graph c = false -> preserves same_gp (stopping o c).
Proof.
  intros Hg. unfold stopping. rewrite Hg.
  walk same_gp_refl same_gp_trans fail; pipe_leaf.
Qed.

Lemma after_trigger_same_gp o c file t0 l :
  preserves same_gp
    (r <- ibrd o 90;;
     match r with
     | None => say ReadError;; ret (Break l)
     | Some data => log_reading o c file t0 l data
     end).
Proof. walk same_gp_refl same_gp_trans fail; pipe_leaf. Qed.

Lemma trigger_Ret_same_gp o c w u w' : trigger o c w = (Ret u, w') -> gp w' = gp w.
Proof.
  intros H.
  destruct w as [wdisk wout wgp wraw wpeek woptind wletP nwrt nrd ntime nclock npoll
                 nwait wtrace].
  crunch_hyp H. repeat split_hyp H.
  all: try discriminate H.
  all: injection H as _ <-; reflexivity.
Qed.

Lemma sampling_Ret_same_gp o fuel c file t0 :
  forall l w l' w', sampling o fuel c file t0 l w = (Ret l', w') -> gp w' = gp w.
Proof.
  induction fuel as [ | fuel IH ]; intros l w l' w' H; [ discriminate H | ].
  cbn [sampling] in H.
  apply bind_cases in H. destruct H as [(out & _ & E) | (x & w1 & H1 & H)];
    [ discriminate E | ].
  assert (gp w1 = gp w) as Hw1.
  { unfold sample in H1.
    apply bind_cases in H1. destruct H1 as [(out & _ & E) | ([] & w0 & H0 & H1)];
      [ discriminate E | ].
    pose proof (after_trigger_same_gp o c file t0 l w0) as Hrest.
    rewrite H1 in Hrest. unfold same_gp in Hrest. cbn [snd] in Hrest.
    rewrite Hrest. apply (trigger_Ret_same_gp _ _ _ _ _ H0). }
  destruct x as [l1 | l1].
  - destruct (stop_key (key l1)).
    + injection H as _ <-. exact Hw1.
    + rewrite <- Hw1. apply (IH _ _ _ _ H).
  - injection H as _ <-. exact Hw1.
Qed.

Lemma front_of_record_same_gp o c inst :
  preserves same_gp (say Summary;; write_header o c inst;; t0 <- timeinfo o;;
                     init_keyboard;; ret t0).
Proof. walk same_gp_refl same_gp_trans fail; pipe_leaf. Qed.

Lemma connect_grows o c : preserves (grows any_event) (connect o c).
Proof. grow any_event fail; exact I. Qed.

Lemma record_grows o fuel c file inst :
  preserves (grows any_event) (record o fuel c file inst).
Proof. grow any_event ltac:(apply sampling_grows); exact I. Qed.

(** X17: gnuplot is started whether graphing is on or not, and with
    graphing switched off (-n) nothing closes the pipe again: when the
    pipe could be opened, a run that comes to its normal end returns with
    the pipe still open. *)
Theorem no_graph_leaves_the_pipe_open (o : oracle) (fuel : nat) (c : config)
  (file : string) (w : world) (n : Z) (w' : world) :
  do_graph c = false ->
  popen_ok o = true ->
  measure o fuel c file w = (Ret n, w') ->
  In (Popen "gnuplot") (added w w') /\ gp w' = true.
Proof.
  intros Hg Hopen H.
  unfold measure in H.
  apply bind_cases in H. destruct H as [(out & _ & E) | (inst & w1 & H1 & H)];
    [ discriminate E | ].
  apply bind_cases in H. destruct H as [(out & _ & E) | (c' & w2 & H2 & H)];
    [ discriminate E | ].
  assert (c' = c /\ gp w2 = true /\ trace w2 = (trace w1 ++ [Popen "gnuplot"])%list)
    as (-> & Hw2 & Htr2).
  { unfold prepare_gnuplot, popen_w, bind, emit, modify, ret in H2.
    rewrite Hopen, Hg in H2. now injection H2 as <- <-. }
  split.
  { destruct (connect_grows o c w) as (e1 & Htr1 & _).
    destruct (record_grows o fuel c file inst w2) as (e3 & Htr3 & _).
    rewrite H1 in Htr1. rewrite H in Htr3. cbn [snd] in Htr1, Htr3.
    rewrite Htr2, Htr1, <- !app_assoc in Htr3.
    rewrite (added_app _ _ _ Htr3).
    apply in_or_app. right. now left. }
  unfold record in H.
  apply bind_cases in H. destruct H as [(out & _ & E) | ([] & w3 & H3 & H)];
    [ discriminate E | ].
  apply bind_cases in H. destruct H as [(out & _ & E) | ([] & w4 & H4 & H)];
    [ discriminate E | ].
  apply bind_cases in H. destruct H as [(out & _ & E) | (t0 & w5 & H5 & H)];
    [ discriminate E | ].
  apply bind_cases in H. destruct H as [(out & _ & E) | ([] & w6 & H6 & H)];
    [ discriminate E | ].
  apply bind_cases in H. destruct H as [(out & _ & E) | (l' & w7 & H7 & H)];
    [ discriminate E | ].
  pose proof (stopping_same_gp o c Hg w7) as Hs. rewrite H in Hs.
  unfold same_gp in Hs. cbn [snd] in Hs. rewrite Hs.
  rewrite (sampling_Ret_same_gp _ _ _ _ _ _ _ _ _ H7).
  pose proof (front_of_record_same_gp o c inst w2) as Hf.
  unfold bind in Hf. rewrite H3, H4, H5, H6 in Hf. cbn in Hf.
  unfold same_gp in Hf. now rewrite Hf.
Qed.

(** X17 on a run with -n that is ended by q. *)
Lemma no_graph_pipe_witness :
  let o := quit_at_once in
  let run := measure o 1 no_graph "out.dat" (set_outfile (Some "") (initial o)) in
  In (Popen "gnuplot") (added (set_outfile (Some "") (initial o)) (snd run))
  /\ gp (snd run) = true.
Proof.
  intros o run.
  apply (no_graph_leaves_the_pipe_open o 1 no_graph "out.dat"
           (set_outfile (Some "") (initial o)) 0 (snd run)).
  - reflexivity.
  - reflexivity.
  - vm_compute. reflexivity.
Defined.

(** ** The layout of the log *)

Lemma sampling_same_time o fuel c file t0 :
  forall l, preserves same_time (sampling o fuel c file t0 l).
Proof.
  induction fuel as [ | fuel IH ]; intros l.
  - walk same_time_refl same_time_trans fail.
  - cbn [sampling].
    walk same_time_refl same_time_trans
      ltac:(first [ apply IH | apply sample_same_time ]).
Qed.

(** The header, written to an open file. *)
Lemma write_header_run o c inst w d :
  outfile w = Some d ->
  exists w',
    write_header o c inst w = (Ret tt, w')
    /\ outfile w' = Some (d ++ text (header c inst (ctime o (time_now o (n_time w)))))
    /\ n_time w' = S (n_time w)
    /\ n_clock w' = n_clock w
    /\ n_ibrd w' = n_ibrd w.
Proof.
  intros Hout.
  destruct w as [wdisk wout wgp wraw wpeek woptind wletP nwrt nrd ntime nclock npoll
                 nwait wtrace].
  crunch_in Hout. subst. unfold write_header. crunch.
  eexists. split; [ reflexivity | ]. crunch.
  split; [ | repeat split ].
  unfold header, text. cbn [fold_right]. now rewrite !append_assoc, append_nil_r.
Qed.

(** X18: the layout of the log.  A run that goes from the header through
    the loop to the end of the shutdown leaves on disk, after what the file
    held before: the five header lines (program version, instrument
    identity, comment, start time, column titles), one data line for every
    sample, in order, and the trailer with the stop time. *)
Theorem log_is_header_samples_trailer (o : oracle) (fuel : nat) (c : config)
  (file inst : string) (w : world) (d : string) (n : Z) (w' : world) :
  outfile w = Some d ->
  record o fuel c file inst w = (Ret n, w') ->
  let start := ctime o (time_now o (n_time w)) in
  let stop := ctime o (time_now o (S (n_time w))) in
  let t0 := clock o (n_clock w) in
  exists recs,
    samples_from o (S (n_clock w)) (n_ibrd w) recs
    /\ disk w'
       = Some (d ++ text (header c inst start ++ map (line_of t0) recs ++ [trailer stop])).
Proof.
  intros Hout H start stop t0. unfold record in H.
  apply bind_cases in H. destruct H as [(out & _ & E) | ([] & w0 & H0 & H)];
    [ discriminate E | ].
  assert (outfile w0 = Some d /\ n_time w0 = n_time w /\ n_clock w0 = n_clock w
          /\ n_ibrd w0 = n_ibrd w) as (Hout0 & Ht0 & Hc0 & Hr0).
  { injection H0 as <-. now repeat split. }
  apply bind_cases in H. destruct H as [(out & _ & E) | ([] & w1 & H1 & H)];
    [ discriminate E | ].
  destruct (write_header_run o c inst w0 d Hout0) as (w1' & E & Hout1 & Ht1 & Hc1 & Hr1).
  rewrite H1 in E. injection E as <-.
  apply bind_cases in H. destruct H as [(out & _ & E) | (t & w2 & H2 & H)];
    [ discriminate E | ].
  assert (t = t0 /\ outfile w2 = outfile w1 /\ n_time w2 = n_time w1
          /\ n_clock w2 = S (n_clock w1) /\ n_ibrd w2 = n_ibrd w1)
    as (-> & Hout2 & Ht2 & Hc2 & Hr2).
  { unfold timeinfo, bind, get, emit, modify, ret in H2. injection H2 as <- <-.
    subst t0. split; [ now rewrite Hc1, Hc0 | now repeat split ]. }
  apply bind_cases in H. destruct H as [(out & _ & E) | ([] & w3 & H3 & H)];
    [ discriminate E | ].
  assert (outfile w3 = outfile w2 /\ n_time w3 = n_time w2
          /\ n_clock w3 = n_clock w2 /\ n_ibrd w3 = n_ibrd w2)
    as (Hout3 & Ht3 & Hc3 & Hr3).
  { unfold init_keyboard, bind, emit, modify in H3. injection H3 as <-.
    now repeat split. }
  apply bind_cases in H. destruct H as [(out & _ & E) | (l' & w4 & H4 & H)];
    [ discriminate E | ].
  rewrite Hout2, Hout1 in Hout3.
  destruct (sampling_writes _ _ _ _ _ _ _ _ _ H4) as (evs & recs & Htr & Hrecs & Hwr).
  destruct (sampling_logged o fuel c file t0 {| loop := 0; key := 0 |} w3)
    as (evs' & Htr' & Hlog).
  rewrite H4 in Htr', Hlog. cbn [snd] in Htr', Hlog.
  rewrite Htr in Htr'. apply app_inv_head in Htr'. subst evs'.
  rewrite Hout3 in Hlog.
  pose proof (sampling_cases o fuel c file t0 _ w3 _ _ _ Hout3 H4) as [[d4 Hout4] _].
  destruct Hlog as [Hlog | [Hlog _]]; [ | congruence ].
  pose proof (sampling_same_time o fuel c file t0 {| loop := 0; key := 0 |} w3) as Htime.
  rewrite H4 in Htime. unfold same_time in Htime. cbn [snd] in Htime.
  destruct (stopping_writes_trailer o c w4 _ Hlog) as (r & w5 & rest & E & _ & _ & _ & Hd).
  rewrite H in E. injection E as _ <-.
  exists recs. split.
  - rewrite Hc3, Hc2, Hc1, Hc0, Hr3, Hr2, Hr1, Hr0 in Hrecs. exact Hrecs.
  - rewrite Hd, Hwr, Htime, Ht3, Ht2, Ht1, Ht0.
    f_equal. rewrite !text_app. cbn [text fold_right].
    now rewrite !append_assoc, append_nil_r.
Qed.

(** X18 on a run of one sample. *)
Lemma log_layout_witness :
  let o := quit_at_once in
  let w := set_outfile (Some "") (initial o) in
  let run := record o 1 no_graph "out.dat" "KEITHLEY" w in
  let start := ctime o (time_now o (n_time w)) in
  let stop := ctime o (time_now o (S (n_time w))) in
  let t0 := clock o (n_clock w) in
  exists recs,
    samples_from o (S (n_clock w)) (n_ibrd w) recs
    /\ disk (snd run)
       = Some ("" ++ text (header no_graph "KEITHLEY" start
                             ++ map (line_of t0) recs ++ [trailer stop])).
Proof.
  intros o w run.
  apply (log_is_header_samples_trailer o 1 no_graph "out.dat" "KEITHLEY" w "" 0
           (snd run)).
  - reflexivity.
  - vm_compute. reflexivity.
Defined.

(** ** The commands of a run *)

Lemma sent_app tr1 tr2 : sent (tr1 ++ tr2) = (sent tr1 ++ sent tr2)%list.
Proof.
  induction tr1 as [ | e tr1 IH ]; [ reflexivity | ].
  destruct e; cbn; rewrite ?IH; reflexivity.
Qed.

Lemma no_send_all evs : Forall no_send evs -> sent evs = [].
Proof.
  induction 1 as [ | e evs He _ IH ]; [ reflexivity | ].
  change (e :: evs) with ([e] ++ evs)%list. now rewrite sent_app, He, IH.
Qed.

Lemma only_read_all evs :
  Forall only_read evs -> sent evs = repeat ":read?" (List.length (sent evs)).
Proof.
  induction 1 as [ | e evs He _ IH ]; [ reflexivity | ].
  destruct e; cbn; try exact IH.
  rewrite (He cmd eq_refl). now f_equal.
Qed.

Lemma In_sent cmd evs : In (Ibwrt cmd) evs -> In cmd (sent evs).
Proof.
  induction evs as [ | e evs IH ]; [ contradiction | ].
  intros [-> | H]; [ now left | ].
  destruct e; cbn; auto.
Qed.

Ltac crunch_handshake H :=
  lazy beta iota zeta delta
    [handshake ibdev inst_write ibwrt ibrd cut_last pclose_gp
     bind get emit say modify ret halt log
     set_disk set_outfile set_gp set_raw_mode set_peek_character set_optind
     set_letP tick_ibwrt tick_ibrd tick_time tick_clock tick_poll tick_wait
     disk outfile gp raw_mode peek_character optind letP
     n_ibwrt n_ibrd n_time n_clock n_poll n_wait trace
     fst snd option_map] in H;
  change (1 =? 0) with false in H; change (0 =? 0) with true in H;
  lazy beta iota in H.

Ltac split_handshake H :=
  match type of H with
  | context [if ?b then _ else _] =>
      lazymatch b with
      | context [if _ then _ else _] => fail
      | context [match _ with _ => _ end] => fail
      | _ => destruct b eqn:?
      end
  | context [match ?x with _ => _ end] =>
      lazymatch x with
      | context [if _ then _ else _] => fail
      | context [match _ with _ => _ end] => fail
      | _ => destruct x eqn:?
      end
  end; crunch_handshake H.

(** The commands of a handshake that goes through. *)
Lemma handshake_sent o c w inst w' :
  handshake o c w = (Ret inst, w') ->
  exists evs,
    trace w' = (trace w ++ evs)%list
    /\ sent evs
       = (["*rst;*cls;:form:elem read,unit;*opc"; "*idn?"]
          ++ (if do_display c then []
              else [":DISP:TEXT:DATA '-ACQUIRING- ';:DISP:TEXT:STAT 1"]))%list.
Proof.
  intros H.
  destruct w as [wdisk wout wgp wraw wpeek woptind wletP nwrt nrd ntime nclock npoll
                 nwait wtrace].
  crunch_handshake H. repeat split_handshake H.
  all: try discriminate H.
  all: injection H as _ <-.
  all: cbn [trace]; rewrite <- ?app_assoc.
  all: eexists; split; reflexivity.
Qed.

(** The commands of a shutdown that goes through. *)
Lemma stopping_sent o c w n w' :
  stopping o c w = (Ret n, w') ->
  n = 0
  /\ exists evs,
       trace w' = (trace w ++ evs)%list
       /\ sent evs
          = ((if do_display c then [] else [":DISP:TEXT:STAT 0"]) ++ ["syst:pres"])%list.
Proof.
  intros H.
  destruct w as [wdisk wout wgp wraw wpeek woptind wletP nwrt nrd ntime nclock npoll
                 nwait wtrace].
  crunch_hyp H. repeat split_hyp H.
  all: try discriminate H.
  all: injection H as <- <-; split; [ reflexivity | ].
  all: cbn [trace]; rewrite <- ?app_assoc.
  all: eexists; split; reflexivity.
Qed.

Lemma prepare_gnuplot_no_send o c file :
  preserves (grows no_send) (prepare_gnuplot o c file).
Proof. grow no_send fail; reflexivity. Qed.

Lemma prepare_gnuplot_display o c file w c' w' :
  prepare_gnuplot o c file w = (Ret c', w') -> do_display c' = do_display c.
Proof.
  unfold prepare_gnuplot. intros H.
  apply bind_Ret in H. destruct H as (launched & w1 & _ & H).
  apply bind_Ret in H. destruct H as (c1 & w2 & H2 & H).
  apply bind_Ret in H. destruct H as ([] & w3 & _ & H).
  injection H as <- _.
  destruct launched.
  - now injection H2 as <- _.
  - unfold bind, say, emit, modify, ret in H2. now injection H2 as <- _.
Qed.

Lemma front_of_record_no_send o c inst :
  preserves (grows no_send)
    (say Summary;; write_header o c inst;; t0 <- timeinfo o;; init_keyboard;; ret t0).
Proof. grow no_send fail; reflexivity. Qed.

Lemma sampling_only_read o fuel c file t0 :
  forall l, preserves (grows only_read) (sampling o fuel c file t0 l).
Proof.
  induction fuel as [ | fuel IH ]; intros l.
  - grow only_read fail.
  - cbn [sampling]. grow only_read ltac:(apply IH); intros cmd; try discriminate.
    now intros [= <-].
Qed.

(** A round sends the read command. *)
Lemma sample_sends_read o c file t0 l w :
  exists evs, trace (snd (sample o c file t0 l w)) = (trace w ++ evs)%list
              /\ In (Ibwrt ":read?") evs.
Proof.
  destruct (trigger_trace o c w) as (rest1 & Htr1 & _).
  unfold sample, bind at 1.
  destruct (trigger o c w) as [[[] | out] w1]; cbn [snd] in *.
  - destruct (after_trigger_no_sleep o c file t0 l w1) as (rest2 & Htr2 & _).
    eexists. split; [ rewrite Htr2, Htr1, <- !app_assoc; reflexivity | ].
    apply in_or_app. right. now left.
  - eexists. split; [ exact Htr1 | ].
    apply in_or_app. right. now left.
Qed.

Lemma sampling_sends_read o fuel c file t0 l w l' w' :
  sampling o fuel c file t0 l w = (Ret l', w') ->
  exists evs, trace w' = (trace w ++ evs)%list /\ In (Ibwrt ":read?") evs.
Proof.
  destruct fuel as [ | fuel ]; [ discriminate | ].
  cbn [sampling]. intros H.
  apply bind_Ret in H. destruct H as (x & w1 & H1 & H).
  destruct (sample_sends_read o c file t0 l w) as (e1 & Htr1 & Hin).
  rewrite H1 in Htr1. cbn [snd] in Htr1.
  assert (exists e2, trace w' = (trace w1 ++ e2)%list) as [e2 Htr2].
  { destruct x as [l1 | l1].
    - destruct (stop_key (key l1)).
      + injection H as _ <-. exists []. now rewrite app_nil_r.
      + destruct (sampling_grows o fuel c file t0 l1 w1) as (e2 & Htr2 & _).
        rewrite H in Htr2. now exists e2.
    - injection H as _ <-. exists []. now rewrite app_nil_r. }
  exists (e1 ++ e2)%list. split; [ now rewrite Htr2, Htr1, app_assoc | ].
  apply in_or_app. now left.
Qed.

(** X19: the commands of a complete run, in order.  A run that comes to
    its normal end has sent the reset and format command, the identity
    query, the display text when the display is blanked (-d), the
    mode-select command, then the read command once for every round of the
    loop (at least once), the command that takes the display text away
    again when it was shown, and the preset command; it has sent nothing
    else, and it returns 0. *)
Theorem commands_of_a_complete_run (o : oracle) (fuel : nat) (c : config)
  (file : string) (w : world) (n : Z) (w' : world) :
  measure o fuel c file w = (Ret n, w') ->
  n = 0
  /\ exists token k,
       nth_error scpi_mode (Z.to_nat (mode c)) = Some token
       /\ (1 <= k)%nat
       /\ sent (added w w')
          = (["*rst;*cls;:form:elem read,unit;*opc"; "*idn?"]
             ++ (if do_display c then []
                 else [":DISP:TEXT:DATA '-ACQUIRING- ';:DISP:TEXT:STAT 1"])
             ++ [(":func '" ++ token ++ "';:init; *opc" ++ LF)%string]
             ++ repeat ":read?" k
             ++ (if do_display c then [] else [":DISP:TEXT:STAT 0"])
             ++ ["syst:pres"])%list.
Proof.
  intros H. unfold measure, connect in H.
  apply bind_Ret in H. destruct H as (inst & w2 & H & Hrest).
  apply bind_Ret in H. destruct H as (inst' & w1 & H1 & H).
  apply bind_Ret in H. destruct H as ([] & w2' & H2 & H).
  injection H as -> ->.
  apply bind_Ret in Hrest. destruct Hrest as (c' & w3 & H3 & H).
  unfold record in H.
  apply bind_Ret in H. destruct H as ([] & w4 & H4 & H).
  apply bind_Ret in H. destruct H as ([] & w5 & H5 & H).
  apply bind_Ret in H. destruct H as (t0 & w6 & H6 & H).
  apply bind_Ret in H. destruct H as ([] & w7 & H7 & H).
  apply bind_Ret in H. destruct H as (l' & w8 & H8 & H9).
  destruct (handshake_sent _ _ _ _ _ H1) as (e1 & T1 & S1).
  destruct (select_mode_Ret _ _ _ _ H2) as (token & Htok & T2).
  destruct (prepare_gnuplot_no_send o c file w2) as (e3 & T3 & A3).
  rewrite H3 in T3. cbn [snd] in T3.
  pose proof (prepare_gnuplot_display _ _ _ _ _ _ H3) as Hdisp.
  destruct (front_of_record_no_send o c' inst w3) as (e4 & T4 & A4).
  unfold bind at 1 2 3 4 in T4. rewrite H4, H5, H6, H7 in T4. cbn [snd ret] in T4.
  destruct (sampling_only_read o fuel c' file t0 {| loop := 0; key := 0 |} w7)
    as (e5 & T5 & A5).
  rewrite H8 in T5. cbn [snd] in T5.
  destruct (sampling_sends_read _ _ _ _ _ _ _ _ _ H8) as (e5' & T5' & Hin).
  rewrite T5 in T5'. apply app_inv_head in T5'. subst e5'.
  destruct (stopping_sent _ _ _ _ _ H9) as (-> & e6 & T6 & S6).
  split; [ reflexivity | ].
  exists token, (List.length (sent e5)). split; [ exact Htok | ]. split.
  { apply In_sent in Hin. destruct (sent e5); [ contradiction | cbn; lia ]. }
  assert (trace w'
          = (trace w ++ e1 ++ [Ibwrt (mode_command token)] ++ e3 ++ e4 ++ e5 ++ e6)%list)
    as T.
  { rewrite T6, T5, T4, T3, T2, T1, <- !app_assoc. reflexivity. }
  rewrite (added_app _ _ _ T), !sent_app, S1, S6, Hdisp.
  rewrite (no_send_all _ A3), (no_send_all _ A4), <- (only_read_all _ A5).
  reflexivity.
Qed.

(** X19 on a run of one sample. *)
Lemma commands_witness :
  let o := quit_at_once in
  let w := set_outfile (Some "") (initial o) in
  let run := measure o 1 no_graph "out.dat" w in
  0 = 0
  /\ exists token k,
       nth_error scpi_mode (Z.to_nat (mode no_graph)) = Some token
       /\ (1 <= k)%nat
       /\ sent (added w (snd run))
          = (["*rst;*cls;:form:elem read,unit;*opc"; "*idn?"]
             ++ (if do_display no_graph then []
                 else [":DISP:TEXT:DATA '-ACQUIRING- ';:DISP:TEXT:STAT 1"])
             ++ [(":func '" ++ token ++ "';:init; *opc" ++ LF)%string]
             ++ repeat ":read?" k
             ++ (if do_display no_graph then [] else [":DISP:TEXT:STAT 0"])
             ++ ["syst:pres"])%list.
Proof.
  intros o w run.
  apply (commands_of_a_complete_run o 1 no_graph "out.dat" w 0 (snd run)).
  vm_compute. reflexivity.
Defined.


(** ** The text of a reading *)

Lemma chop_snoc r a : chop (r ++ String a "") = r.
Proof.
  induction r as [ | c r IH ]; [ reflexivity | ].
  cbn [append chop]. rewrite IH. destruct r; reflexivity.
Qed.

Lemma length_snoc r a : String.length (r ++ String a "") = S (String.length r).
Proof. induction r as [ | x r IH ]; [ reflexivity | ]. cbn. now rewrite IH. Qed.

Lemma cstring_fixed r : string_all not_nul r = true -> cstring r = r.
Proof.
  induction r as [ | c r IH ]; [ reflexivity | ].
  cbn [string_all cstring]. intros H. apply andb_true_iff in H as [Hc Hr].
  unfold not_nul in Hc. apply negb_true_iff in Hc. rewrite Hc. now rewrite IH.
Qed.

Lemma substring_whole s : forall n, (String.length s <= n)%nat -> substring 0 n s = s.
Proof.
  induction s as [ | c s IH ]; intros [ | n ] H; cbn in *; try reflexivity; try lia.
  rewrite IH by lia. reflexivity.
Qed.

(** X20: of a response, exactly the last byte is taken away, whatever it
    is.  In a round in which the instrument delivers the bytes [r]
    followed by one more byte (at most 90 in all, none of [r] a NUL), the
    line written to the log carries [r] itself, so that of a response
    closed by CR LF the CR stays in the log; OVERFLOW is written in its
    place only when [r] is the overflow value to the letter. *)
Theorem reading_keeps_all_but_the_last_byte (o : oracle) (c : config)
  (file : string) (t0 : Z) (l : locals) (w : world) (d r : string) (a : ascii) :
  outfile w = Some d ->
  (do_graph c = true -> gp w = true) ->
  do_flush c mod two64 <> 0 ->
  peek_character w = -1 ->
  ibwrt_ok o (n_ibwrt w) ":read?" = true ->
  ibrd_data o (n_ibrd w) = Some (r ++ String a "") ->
  (String.length r < 90)%nat ->
  string_all not_nul r = true ->
  written (added w (snd (sample o c file t0 l w)))
  = [fmt_f4 (elapsed t0 (clock o (n_clock w))) ++ TAB
     ++ (if String.eqb r "+9.9E37" then "OVERFLOW" else r) ++ LF].
Proof.
  intros Hout Hgp Hflush Hpeek Hsend Hread Hlen Hnul.
  assert (r ++ String a "" <> "") as Hdata by (destruct r; discriminate).
  destruct (sample_round o c file t0 l w d _ Hout Hgp Hflush Hpeek Hsend Hread Hdata)
    as (w' & evs & Hrun & Htr & _ & _ & _ & _ & _ & _ & _ & Hwr & _).
  rewrite Hrun. cbn [snd]. rewrite (added_app _ _ _ Htr), Hwr.
  unfold data_line, reading_of.
  rewrite substring_whole.
  - now rewrite chop_snoc, (cstring_fixed _ Hnul).
  - change (Z.to_nat 90) with 90%nat. rewrite length_snoc. lia.
Qed.

(** X20 on the overflow value closed by CR LF. *)
Lemma reading_witness :
  let o := bench always_ok
             (fun _ => Some ("+9.9E37" ++ String (ascii_of_nat 13) LF))
             one_second_ticks no_keys in
  let w := at_loop o "" in
  let r := "+9.9E37" ++ String (ascii_of_nat 13) "" in
  written (added w (snd (sample o no_graph "out.dat" 0 first_round w)))
  = [fmt_f4 (elapsed 0 (clock o (n_clock w))) ++ TAB
     ++ (if String.eqb r "+9.9E37" then "OVERFLOW" else r) ++ LF].
Proof.
  intros o w r.
  apply (reading_keeps_all_but_the_last_byte o no_graph "out.dat" 0 first_round w ""
           r (ascii_of_nat 10)).
  - reflexivity.
  - intros H. discriminate H.
  - intros H. discriminate H.
  - reflexivity.
  - reflexivity.
  - reflexivity.
  - cbn. lia.
  - reflexivity.
Defined.

(** ** When the user is not asked *)

Ltac prompt_leaf :=
  intros;
  match goal with
  | |- preserves (grows no_prompt) (modify (log ?e)) =>
      apply preserves_modify; intros; apply grows_log;
      split; [ discriminate | intros ?; discriminate ]
  | |- preserves (grows no_prompt) (modify _) =>
      apply preserves_modify; intros; apply grows_same; reflexivity
  end.

Lemma sampling_no_prompt o fuel c file t0 :
  forall l, preserves (grows no_prompt) (sampling o fuel c file t0 l).
Proof.
  induction fuel as [ | fuel IH ]; intros l.
  - walk (grows_refl no_prompt) (grows_trans no_prompt) fail.
  - cbn [sampling].
    walk (grows_refl no_prompt) (grows_trans no_prompt) ltac:(apply IH); prompt_leaf.
Qed.

Lemma measure_no_prompt o fuel c file :
  preserves (grows no_prompt) (measure o fuel c file).
Proof.
  walk (grows_refl no_prompt) (grows_trans no_prompt) ltac:(apply sampling_no_prompt);
    prompt_leaf.
Qed.

(** X21: with overwriting forced (-f), or with no file at the output
    path, the user is not asked: the run shows no prompt and does not read
    the standard input, and the file is opened right after the look at the
    path. *)
Theorem no_prompt_when_forced_or_absent (o : oracle) (fuel : nat) (c : config)
  (file : string) (w : world) :
  do_overwrite c = true \/ disk w = None ->
  exists evs,
    added w (snd (acquire o fuel c file w)) = (Access file :: Fopen file :: evs)%list
    /\ forall e, In e evs -> e <> Getc /\ forall f, e <> Msg (OverwritePrompt f).
Proof.
  intros Hcase.
  assert (file_there w && negb (do_overwrite c) = false) as Hcond.
  { unfold file_there. destruct Hcase as [-> | ->]; [ apply andb_false_r | reflexivity ]. }
  pose (rest := (if fopen_ok o
                 then modify (set_disk (Some ""));; modify (set_outfile (Some ""));;
                      measure o fuel c file
                 else say (CannotOpen file);; halt (Exit ERR_FILE)) : M Z).
  assert (acquire o fuel c file w = rest (log (Fopen file) (log (Access file) w))) as E.
  { unfold rest, acquire, prepare_output, fopen_wt, bind, get, emit, say, modify, ret, halt.
    change (file_there (log (Access file) w)) with (file_there w).
    rewrite Hcond. destruct (fopen_ok o); reflexivity. }
  assert (preserves (grows no_prompt) rest) as Hrest.
  { unfold rest.
    walk (grows_refl no_prompt) (grows_trans no_prompt)
      ltac:(apply measure_no_prompt); prompt_leaf. }
  destruct (Hrest (log (Fopen file) (log (Access file) w))) as (evs & Htr & Hall).
  rewrite E. exists evs. split.
  - apply added_app. rewrite Htr. cbn [trace log]. now rewrite <- !app_assoc.
  - intros e Hin. rewrite Forall_forall in Hall. exact (Hall e Hin).
Qed.

(** X21 with a file at the output path and -f. *)
Lemma no_prompt_witness :
  let o := with_file "old" None quit_at_once in
  let c := set_do_overwrite true no_graph in
  exists evs,
    added (initial o) (snd (acquire o 1 c "out.dat" (initial o)))
    = (Access "out.dat" :: Fopen "out.dat" :: evs)%list
    /\ forall e, In e evs -> e <> Getc /\ forall f, e <> Msg (OverwritePrompt f).
Proof.
  intros o c.
  apply (no_prompt_when_forced_or_absent o 1 c "out.dat" (initial o)).
  left. reflexivity.
Defined.

(** ** The file on disk and the output stream *)















(** ** The handshake and the output file *)

Lemma file_untouched_refl w : file_untouched w w.
Proof. now repeat split. Qed.

Lemma file_untouched_trans a b c :
  file_untouched a b -> file_untouched b c -> file_untouched a c.
Proof.
  intros (A1 & B1 & C1) (A2 & B2 & C2). repeat split; congruence.
Qed.

Lemma connect_file_untouched o c : preserves file_untouched (connect o c).
Proof.
  walk file_untouched_refl file_untouched_trans fail;
    intros; apply preserves_modify; intros; now repeat split.
Qed.

Lemma connect_codes o c : ends_in (fun n => n = ERR_INST) anything (connect o c).
Proof. codes fail; reflexivity. Qed.

(** X23: the handshake and the mode selection never touch the output
    file.  On every way through them, the error returns included, the
    output stream is as open as it was, nothing has been flushed or closed,
    and the terminal mode is unchanged; every return from [main] in this
    part is a return with 5. *)
Theorem handshake_never_touches_the_file (o : oracle) (c : config) (w : world) :
  let run := connect o c w in
  outfile (snd run) = outfile w
  /\ disk (snd run) = disk w
  /\ raw_mode (snd run) = raw_mode w
  /\ match fst run with
     | Halt (Exit n) => n = ERR_INST
     | _ => True
     end.
Proof.
  cbv zeta. destruct (connect_file_untouched o c w) as (A & B & C).
  repeat split; try assumption.
  pose proof (connect_codes o c w) as H.
  destruct (fst (connect o c w)) as [inst | [n | f | ]]; try exact I. exact H.
Qed.

(** ** The name of the data file *)

(** X24: the name of the data file has to fit a buffer of [MAXLEN] bytes.
    On a command line that consists of the data file alone, a name of
    [MAXLEN] characters or more (one that does not begin with the switch
    character) is copied past the end of [filename]: the run ends in
    undefined behaviour before anything is opened. *)
Theorem long_file_name_overflows_the_buffer (o : oracle) (fuel : nat)
  (prog file : string) :
  MAXLEN <= strlen file ->
  String.prefix "-" file = false ->
  fst (main o fuel [prog; file]) = Fault OutOfBounds
  /\ trace (snd (main o fuel [prog; file])) = [Msg Disclaimer].
Proof.
  intros Hlen Hsw.
  destruct file as [ | ch r ]; [ exfalso; apply Hlen; reflexivity | ].
  assert (Ascii.eqb ch SW = false) as Hch.
  { unfold SW. cbn in Hsw. destruct (Ascii.eqb_spec ch "-"); [ | reflexivity ].
    subst ch. cbn in Hsw. destruct r; discriminate Hsw. }
  apply Z.ltb_ge in Hlen.
  unfold main, main_body, options_fuel. cbn [options].
  unfold GetOpt, gopEOF, strcpy_check, bind, get, say, emit, modify, ret, halt.
  cbn [optind letP initial log set_letP List.length nth_error fst snd Nat.ltb Nat.leb].
  rewrite Hch. cbn [fst snd]. change (EOF =? EOF) with true.
  cbn [optind set_letP log initial nth_error].
  rewrite Hlen. cbn [fst snd trace set_letP log initial app]. split; reflexivity.
Qed.

(** X24 on a name of 127 characters. *)
Lemma long_file_name_witness :
  fst (main hands_off 3 ["k2000"; name_of_length 127]) = Fault OutOfBounds
  /\ trace (snd (main hands_off 3 ["k2000"; name_of_length 127])) = [Msg Disclaimer].
Proof.
  apply (long_file_name_overflows_the_buffer hands_off 3 "k2000" (name_of_length 127)).
  - intros H. vm_compute in H. discriminate H.
  - reflexivity.
Defined.
